(** * State evaluation pipeline of the smart-contract execution engine

    A shallow embedding of the cache, the interaction loaders, the
    JavaScript handler and the state evaluators, together with the
    properties the specification states about them. *)

From Stdlib Require Import ZArith Lia.
From stdpp Require Import gmap strings list fin_maps sorting pretty.

Local Open Scope Z_scope.

(** ** JavaScript data *)

(** A JavaScript object used as a record: a key may be absent, or present
    with the value [undefined] ([Some None]). *)
Definition rget {V} (m : gmap string (option V)) (k : string) : option V :=
  m !! k ≫= λ v, v.

Definition rset {V} (m : gmap string (option V)) (k : string) (v : option V)
  : gmap string (option V) := <[k := v]> m.

(** A thrown JavaScript error object: [name], [message], [stack], and the
    [subtype] carried by [ContractError]. *)
Module JsError.
Record t := mk {
  name : string;
  message : string;
  subtype : option string;
  stack : option string
}.
End JsError.

(** The outcome of a call: it returns a value or throws. *)
Inductive Completion (E A : Type) :=
| Returned (a : A)
| Thrown (e : E).
Arguments Returned {E A}.
Arguments Thrown {E A}.

(** What [errorMessages[id]] can hold: a string, or (on the skipped
    internal write path) the caught error object itself. *)
Inductive ErrVal :=
| ErrString (s : string)
| ErrObject (e : JsError.t).

(** [GQLNodeInterface]: the interaction transaction, with the fields the
    evaluator reads. [dry], [confirmationStatus] and [vrf] are optional. *)
Module Tx.
Record t := mk {
  id : string;
  sortKey : string;
  dry : option bool;
  confirmationStatus : option string;
  vrf : option string;
  owner_address : string;
  block_height : Z
}.
End Tx.

#[global] Instance Tx_eq_dec : EqDecision Tx.t.
Proof. solve_decision. Defined.

(** [if (x)] on an optional boolean field. *)
Definition truthy (b : option bool) : bool := default false b.

(** [EvalStateResult<State>] *)
Module EvalStateResult.
Record t (State : Type) := mk {
  state : State;
  validity : gmap string (option bool);
  errorMessages : gmap string (option ErrVal)
}.
Arguments mk {State}.
Arguments state {State}.
Arguments validity {State}.
Arguments errorMessages {State}.
End EvalStateResult.

(** [SortKeyCacheResult<V>]; the evaluator can return a [null] sort key. *)
Module SortKeyCacheResult.
Record t (V : Type) := mk {
  sortKey : option string;
  cachedValue : V
}.
Arguments mk {V}.
Arguments sortKey {V}.
Arguments cachedValue {V}.
End SortKeyCacheResult.

(** [InteractionResultType] *)
Inductive InteractionResultType :=
| type_ok
| type_error
| type_exception.

#[global] Instance InteractionResultType_eq_dec : EqDecision InteractionResultType.
Proof. solve_decision. Defined.

(** The [result] field of an interaction result: absent, [null] or a value. *)
Inductive ResultValue (R : Type) :=
| ResultUndefined
| ResultNull
| ResultOf (r : R).
Arguments ResultUndefined {R}.
Arguments ResultNull {R}.
Arguments ResultOf {R}.

(** [InteractionResult<State, Result>] (the Warp variant) *)
Module InteractionResult.
Record t (State Result : Type) := mk {
  type : InteractionResultType;
  result : ResultValue Result;
  state : State;
  errorMessage : option string;
  event : option string;
  gasUsed : option Z
}.
Arguments mk {State Result}.
Arguments type {State Result}.
Arguments result {State Result}.
Arguments state {State Result}.
Arguments errorMessage {State Result}.
Arguments event {State Result}.
Arguments gasUsed {State Result}.
End InteractionResult.

(** Modelled from the spec: [genesisSortKey] is imported from
    LexicographicalInteractionsSorter, which is not among the sources. A
    sort key is a block height padded to 12 digits, 13 digits of
    milliseconds and 64 hash characters, separated by commas, and the
    genesis sort key compares less than every real one: all of it is
    zeros. *)
Definition genesisSortKey : string :=
  "000000000000,0000000000000,0000000000000000000000000000000000000000000000000000000000000000".

(** ** The sort-key cache (LevelDbCache) *)

(** The database and its sub-levels are opened with
    [valueEncoding: 'json']: [put] writes a value as [JSON.stringify]
    prints it and [get] returns what [JSON.parse] reads from that text.
    [json value] is the value so read back. It need not be [value]: a
    property holding [undefined] is not written, and an [Error] object is
    written with its own enumerable properties only. Values are taken to
    be such that [JSON.stringify] does not throw. *)
Class JsonEncoding (V : Type) := json : V → V.

(** The store is one key-value database with a sub-level per contract;
    inside a sub-level the keys are the sort keys, ordered
    lexicographically on bytes. Contract ids are 43-character transaction
    ids, so that [k.substring(1, 44)] of LevelDbCache.keys recovers the
    sub-level name. *)
Module LevelDbCache.
Section cache.
Context {V : Type} `{!JsonEncoding V}.

Definition sublevel (db : gmap string (gmap string V)) (key : string)
  : gmap string V := default ∅ (db !! key).

(** Strict lexicographic order on keys, the [lt] of range options. *)
Definition key_lt (a b : string) : Prop := ¬ String.le b a.

#[global] Instance key_lt_dec : RelDecision key_lt.
Proof. intros a b. unfold key_lt. apply _. Defined.

Definition get (db : gmap string (gmap string V)) (key sortKey : string)
  : option (SortKeyCacheResult.t V) :=
  match sublevel db key !! sortKey with
  | Some result => Some (SortKeyCacheResult.mk (Some sortKey) result)
  | None => None
  end.

(** [put]: the store holds each value as it is read back. *)
Definition put (db : gmap string (gmap string V)) (key sortKey : string) (value : V)
  : gmap string (gmap string V) :=
  <[key := <[sortKey := json value]> (sublevel db key)]> db.

(** [contractCache.keys({ reverse: true, limit })]: the stored keys,
    greatest first, at most [limit] of them. *)
Definition keys_ascending (sub : gmap string V) : list string :=
  merge_sort String.le (elements (dom sub)).

Definition keys_reverse (limit : nat) (sub : gmap string V) : list string :=
  take limit (reverse (keys_ascending sub)).

(** [contractCache.clear({ lt })]; without a bound everything is cleared. *)
Definition clear_lt (bound : option string) (sub : gmap string V) : gmap string V :=
  match bound with
  | Some k => filter (λ kv, ¬ key_lt kv.1 k) sub
  | None => ∅
  end.

Definition getLast (db : gmap string (gmap string V)) (key : string)
  : option (SortKeyCacheResult.t V) :=
  match keys_reverse 1 (sublevel db key) with
  | k :: _ => get db key k
  | [] => None
  end.

(** [LevelDbCache.keys]: the contracts that have at least one entry. *)
Definition keys (db : gmap string (gmap string V)) : list string :=
  elements (dom (filter (λ kv, kv.2 ≠ ∅) db)).

(** The argument of [prune(entriesStored = 5)] as JavaScript passes it;
    numbers are taken to be integers. *)
Inductive JsNumber :=
| Undefined
| Null
| Num (n : Z).

(** The default parameter value applies to a missing or [undefined]
    argument only; then [if (!entriesStored || entriesStored <= 0)]. *)
Definition entriesStored_effective (arg : JsNumber) : Z :=
  let entriesStored := match arg with Undefined => Num 5 | a => a end in
  match entriesStored with
  | Undefined => 1
  | Null => 1
  | Num n => if bool_decide (n = 0) || bool_decide (n ≤ 0) then 1 else n
  end.

(** What one iteration of the loop of [prune] leaves in a sub-level. *)
Definition prune_contract (entriesStored : nat) (sub : gmap string V) : gmap string V :=
  let entries := keys_reverse entriesStored sub in
  if bool_decide (length entries < entriesStored)%nat then sub
  else clear_lt (last entries) sub.

(** One iteration: [continue] when fewer than [entriesStored] keys came
    back, else clear below the last of them. *)
Definition prune_step (entriesStored : nat) (d : gmap string (gmap string V)) (c : string)
  : gmap string (gmap string V) :=
  let contractCache := sublevel d c in
  let entries := keys_reverse entriesStored contractCache in
  if bool_decide (length entries < entriesStored)%nat then d
  else <[c := clear_lt (last entries) contractCache]> d.

Definition prune (arg : JsNumber) (db : gmap string (gmap string V))
  : gmap string (gmap string V) :=
  let entriesStored := Z.to_nat (entriesStored_effective arg) in
  foldl (prune_step entriesStored) db (keys db).

(** [contractCache.keys({ reverse: true, lte, limit })]: the stored keys
    not above [lte], greatest first, at most [limit] of them. *)
Definition keys_reverse_lte (lte : string) (limit : nat) (sub : gmap string V)
  : list string :=
  take limit (reverse (filter (λ k, String.le k lte) (keys_ascending sub))).

Definition getLessOrEqual (db : gmap string (gmap string V)) (key sortKey : string)
  : option (SortKeyCacheResult.t V) :=
  match keys_reverse_lte sortKey 1 (sublevel db key) with
  | k :: _ => get db key k
  | [] => None
  end.

(** [delete]: the sub-level of the contract is cleared. *)
Definition delete (db : gmap string (gmap string V)) (key : string)
  : gmap string (gmap string V) :=
  <[key := clear_lt None (sublevel db key)]> db.

End cache.
End LevelDbCache.


(** ** The gateway interactions loader *)

Module WarpGatewayInteractionsLoader.

(** [ConfirmationStatus]: both flags are optional. *)
Record ConfirmationStatus := {
  notCorrupted : option bool;
  confirmed : option bool
}.

(** The query string of one request. A parameter spread from [''] is not
    sent ([None]). *)
Record Query := {
  q_url : string;
  q_contractId : string;
  q_from : option string;
  q_to : option string;
  q_page : string;
  q_minimize : string;
  q_confirmationStatus : option string;
  q_source : option string
}.

(** One element of [response.interactions]. *)
Record GatewayInteraction := {
  interaction : Tx.t;
  status : option string
}.

(** The JSON body: [{ paging: { pages }, interactions }]. *)
Record GatewayResponse := {
  paging_pages : Z;
  interactions : list GatewayInteraction
}.

(** What [fetch] settles to: a response with its [ok] flag, [status] and
    JSON body ([None] when [res.json()] rejects), or a rejection whose
    value has an optional [status]. *)
Inductive FetchResult :=
| Resolved (ok : bool) (status : Z) (json : option GatewayResponse)
| Rejected (status : option Z).

Section loader.
Variable fetch : Query → FetchResult.
Variable baseUrl : string.
Variable confirmationStatus : option ConfirmationStatus.
Variable source : option string.

(** [stripTrailingSlash] *)
Definition stripTrailingSlash (str : string) : string :=
  match String.rev str with
  | String c rest =>
      if Ascii.eqb c (Ascii.Ascii true true true true false true false false)
      then String.rev rest else str
  | EmptyString => str
  end.

(** [${error.status}] *)
Definition status_text (status : option Z) : string :=
  match status with
  | Some n => pretty n
  | None => "undefined"
  end.

(** The error of the [catch] handler. *)
Definition unable_to_retrieve (status : option Z) : JsError.t :=
  JsError.mk "Error"
    ("Unable to retrieve transactions. Warp gateway responded with status "
       +:+ status_text status +:+ ".")
    None None.

(** [x ? { key: x } : ''] for a string [x]: the empty string is falsy. *)
Definition spread_if_truthy (x : option string) : option string :=
  match x with
  | Some "" => None
  | other => other
  end.

Definition query (contractId : string) (fromSortKey toSortKey : option string) (page : Z)
  : Query :=
  {| q_url := stripTrailingSlash baseUrl +:+ "/gateway/interactions-sort-key";
     q_contractId := contractId;
     q_from := spread_if_truthy fromSortKey;
     q_to := spread_if_truthy toSortKey;
     q_page := pretty page;
     q_minimize := "true";
     q_confirmationStatus :=
       match confirmationStatus with
       | Some cs =>
           if truthy (notCorrupted cs) then Some "not_corrupted"
           else if truthy (confirmed cs) then Some "confirmed" else None
       | None => None
       end;
     q_source := spread_if_truthy source |}.

(** [fetch(...).then(res => res.ok ? res.json() : Promise.reject(res)).catch(...)] *)
Definition request (q : Query) : Completion JsError.t GatewayResponse :=
  match fetch q with
  | Resolved true _ (Some response) => Returned response
  | Resolved true _ None => Thrown (unable_to_retrieve None)
  | Resolved false status _ => Thrown (unable_to_retrieve (Some status))
  | Rejected status => Thrown (unable_to_retrieve status)
  end.

(** [{ ...interaction.interaction, confirmationStatus: interaction.status }] *)
Definition with_status (i : GatewayInteraction) : Tx.t :=
  let tx := interaction i in
  Tx.mk (Tx.id tx) (Tx.sortKey tx) (Tx.dry tx) (status i) (Tx.vrf tx)
    (Tx.owner_address tx) (Tx.block_height tx).

(** The [do ... while (page < totalPages)] loop; [fuel] bounds the number
    of requests, [None] meaning the bound was reached. *)
Fixpoint load_loop (fuel : nat) (contractId : string) (fromSortKey toSortKey : option string)
    (page : Z) (interactions : list Tx.t)
  : option (Completion JsError.t (list Tx.t)) :=
  match fuel with
  | O => None
  | S fuel' =>
      let page := page + 1 in
      match request (query contractId fromSortKey toSortKey page) with
      | Thrown e => Some (Thrown e)
      | Returned response =>
          let totalPages := paging_pages response in
          let interactions := interactions ++ (with_status <$> WarpGatewayInteractionsLoader.interactions response) in
          if bool_decide (page < totalPages)
          then load_loop fuel' contractId fromSortKey toSortKey page interactions
          else Some (Returned interactions)
      end
  end.

Definition load (fuel : nat) (contractId : string) (fromSortKey toSortKey : option string)
  : option (Completion JsError.t (list Tx.t)) :=
  load_loop fuel contractId fromSortKey toSortKey 0 [].

End loader.
End WarpGatewayInteractionsLoader.

(** ** The caching interactions loader *)

Module CacheableInteractionsLoader.
Section loader.
Context {Delegate : Type}.

(** [delegate.load], which may throw and may change the delegate. *)
Variable delegate_load :
  string → option string → option string → Delegate
  → Completion JsError.t (list Tx.t) * Delegate.

(** [String.prototype.localeCompare] *)
Variable localeCompare : string → string → Z.

(** The loader: the memo [interactionsCache] and the delegate. *)
Record t := mk {
  interactionsCache : gmap string (list Tx.t);
  delegate : Delegate
}.

(** An argument converted to a string, as [localeCompare] does. *)
Definition ToString (x : option string) : string := default "undefined" x.

Definition lastCachedKey (cachedInteractions : list Tx.t) : string :=
  match last cachedInteractions with
  | Some tx => Tx.sortKey tx
  | None => genesisSortKey
  end.

Definition load (contractTxId : string) (fromSortKey toSortKey : option string) (this : t)
  : Completion JsError.t (list Tx.t) * t :=
  match interactionsCache this !! contractTxId with
  | None =>
      match delegate_load contractTxId fromSortKey toSortKey (delegate this) with
      | (Returned interactions, d) =>
          (Returned interactions,
           mk (<[contractTxId := interactions]> (interactionsCache this)) d)
      | (Thrown e, d) => (Thrown e, mk (interactionsCache this) d)
      end
  | Some cachedInteractions =>
      let lastCachedKey := lastCachedKey cachedInteractions in
      if bool_decide (localeCompare lastCachedKey (ToString toSortKey) < 0) then
        match delegate_load contractTxId (Some lastCachedKey) toSortKey (delegate this) with
        | (Returned missingInteractions, d) =>
            let allInteractions := cachedInteractions ++ missingInteractions in
            (Returned allInteractions,
             mk (<[contractTxId := allInteractions]> (interactionsCache this)) d)
        | (Thrown e, d) => (Thrown e, mk (interactionsCache this) d)
        end
      else (Returned cachedInteractions, this)
  end.

(** [clearCache] *)
Definition clearCache (this : t) : t := mk ∅ (delegate this).

End loader.
End CacheableInteractionsLoader.

(** ** The JavaScript handler *)

Module JsHandlerApi.

(** A value a promise can reject with: an error object, a string (the
    timeout promise rejects with ['timeout']), or [null]/[undefined]. *)
Inductive JsThrown :=
| ThrownError (e : JsError.t)
| ThrownString (s : string)
| ThrownNullish.

(** [ContractInteraction<Input>]; [interactionType] is ['view'] or ['write']. *)
Record ContractInteraction (Input : Type) := {
  input : Input;
  caller : string;
  interactionType : string
}.
Arguments input {Input}.
Arguments caller {Input}.
Arguments interactionType {Input}.

(** A truthy value returned by the contract function, with its [state] and
    [result] properties ([None] for [undefined]). *)
Record HandlerResult (State Result : Type) := {
  hr_state : option State;
  hr_result : option Result
}.
Arguments hr_state {State Result}.
Arguments hr_result {State Result}.

(** How [Promise.race([timeoutPromise, contractFunction(...)])] settles;
    a falsy value resolves to [None]. *)
Inductive RaceOutcome (State Result : Type) :=
| Resolves (handlerResult : option (HandlerResult State Result))
| Rejects (err : JsThrown).
Arguments Resolves {State Result}.
Arguments Rejects {State Result}.

Section handler.
Context {State Input Result KV : Type}.

(** [SmartWeaveGlobal], with the fields [handle] assigns and the key-value
    storage. *)
Record SmartWeaveGlobal := {
  _activeTx : option Tx.t;
  swCaller : option string;
  kv : KV
}.

(** The key-value storage of [swGlobal]: each operation may throw. *)
Variable kv_open kv_commit kv_rollback kv_close : KV → option JsThrown * KV.

(** The contract function raced against the timeout. *)
Variable contractFunction :
  State → ContractInteraction Input → KV → RaceOutcome State Result * KV.

(** Truthiness of a state value, for [handlerResult.state || currentResult.state]. *)
Variable state_truthy : State → bool.

(** [JSON.stringify(handlerResult)], the [stack] the engine attaches to a
    new [Error], and [String(err)]. *)
Variable stringify : option (HandlerResult State Result) → string.
Variable engine_stack : string → option string.
Variable error_toString : JsError.t → string.

(** [handlerResult && (handlerResult.state !== undefined || handlerResult.result !== undefined)] *)
Definition accepted (handlerResult : option (HandlerResult State Result)) : bool :=
  match handlerResult with
  | Some hr => bool_decide (is_Some (hr_state hr)) || bool_decide (is_Some (hr_result hr))
  | None => false
  end.

(** [a || b] on strings held in optional fields. *)
Definition or_else (a : option string) (b : string) : string :=
  match a with
  | Some s => if bool_decide (s = "") then b else s
  | None => b
  end.

(** The [catch (err)] block, after [kv.rollback()]; reading [err.name] of
    [null] or [undefined] throws a TypeError. *)
Definition classify (currentResult : EvalStateResult.t State) (err : JsThrown)
  : Completion JsThrown (InteractionResult.t State Result) :=
  match err with
  | ThrownNullish =>
      Thrown (ThrownError (JsError.mk "TypeError" "Cannot read properties of null" None None))
  | ThrownString s =>
      Returned (InteractionResult.mk type_exception ResultNull
                  (EvalStateResult.state currentResult) (Some s) None None)
  | ThrownError e =>
      if bool_decide (JsError.name e = "ContractError") then
        Returned (InteractionResult.mk type_error ResultNull
                    (EvalStateResult.state currentResult) (Some (JsError.message e)) None None)
      else
        Returned (InteractionResult.mk type_exception ResultNull
                    (EvalStateResult.state currentResult)
                    (Some (or_else (JsError.stack e)
                             (or_else (Some (JsError.message e)) (error_toString e))))
                    None None)
  end.

(** The [try] block: the completion it ends with, or the caught value. *)
Definition try_block (currentResult : EvalStateResult.t State)
    (interaction : ContractInteraction Input) (store : KV)
  : (InteractionResult.t State Result + JsThrown) * KV :=
  let stateCopy := EvalStateResult.state currentResult in
  match kv_open store with
  | (Some err, store) => (inr err, store)
  | (None, store) =>
      match contractFunction stateCopy interaction store with
      | (Rejects err, store) => (inr err, store)
      | (Resolves handlerResult, store) =>
          if accepted handlerResult then
            match kv_commit store with
            | (Some err, store) => (inr err, store)
            | (None, store) =>
                let hr_st := handlerResult ≫= hr_state in
                let hr_res := handlerResult ≫= hr_result in
                (inl (InteractionResult.mk type_ok
                        (match hr_res with Some r => ResultOf r | None => ResultUndefined end)
                        (match hr_st with
                         | Some s => if state_truthy s then s else EvalStateResult.state currentResult
                         | None => EvalStateResult.state currentResult
                         end)
                        None None None),
                 store)
            end
          else
            let msg := "Unexpected result from contract: " +:+ stringify handlerResult in
            (inr (ThrownError (JsError.mk "Error" msg None (engine_stack msg))), store)
      end
  end.

(** [handle]: [try], [catch] with the rollback, and [finally] closing the
    storage; a throw from [finally] replaces the completion. *)
Definition handle (currentResult : EvalStateResult.t State)
    (interaction : ContractInteraction Input) (interactionTx : Tx.t)
    (swGlobal : SmartWeaveGlobal)
  : Completion JsThrown (InteractionResult.t State Result) * SmartWeaveGlobal :=
  let sw store :=
    {| _activeTx := Some interactionTx; swCaller := Some (caller interaction); kv := store |} in
  let '(completion, store) :=
    match try_block currentResult interaction (kv swGlobal) with
    | (inl result, store) => (Returned result, store)
    | (inr err, store) =>
        match kv_rollback store with
        | (Some err', store) => (Thrown err', store)
        | (None, store) => (classify currentResult err, store)
        end
    end in
  match kv_close store with
  | (Some err, store) => (Thrown err, sw store)
  | (None, store) => (completion, sw store)
  end.

End handler.
End JsHandlerApi.

(** ** The state evaluator *)

(** Computations of the evaluator: they read and change the world outside
    it (the interaction-state scratchpad, other contracts, plugins, the
    cache) and return or throw. *)
Definition M (World A : Type) : Type := World → Completion JsError.t A * World.

Definition ret {World A} (a : A) : M World A := λ w, (Returned a, w).

Definition throw {World A} (e : JsError.t) : M World A := λ w, (Thrown e, w).

Definition bind {World A B} (m : M World A) (k : A → M World B) : M World B :=
  λ w, match m w with
       | (Returned a, w') => k a w'
       | (Thrown e, w') => (Thrown e, w')
       end.

Definition try_catch {World A} (m : M World A) (h : JsError.t → M World A) : M World A :=
  λ w, match m w with
       | (Thrown e, w') => h e w'
       | r => r
       end.

Definition effect {World} (f : World → World) : M World unit := λ w, (Returned tt, f w).

Definition gets {World A} (f : World → A) : M World A := λ w, (Returned (f w), w).

#[global] Instance M_ret {World} : MRet (M World) := @ret World.
#[global] Instance M_bind {World} : MBind (M World) := λ A B k m, bind m k.

(** [new Error(message)] *)
Definition Error (message : string) : JsError.t := JsError.mk "Error" message None None.

(** The line feed character, code 10. *)
Definition newline : string :=
  String (Ascii.Ascii false true false true false false false false) EmptyString.

Module ContractDefinition.
Record t (State : Type) := mk {
  txId : string;
  initState : State
}.
Arguments mk {State}.
Arguments txId {State}.
Arguments initState {State}.
End ContractDefinition.

(** [CurrentTx]: one entry of the call chain. *)
Module CurrentTx.
Record t := mk {
  contractTxId : string;
  interactionTxId : string
}.
End CurrentTx.

(** [canBeCached] *)
Definition canBeCached (tx : Tx.t) : bool :=
  match Tx.confirmationStatus tx with
  | None => true
  | Some status => bool_decide (status = "confirmed")
  end.

Module DefaultStateEvaluator.
Section evaluator.
Context {State Input Result World : Type}.

(** The evaluation options the evaluator reads. *)
Record EvaluationOptions := {
  ignoreExceptions : bool;
  internalWrites : bool;
  stackTrace_saveState : bool;
  cacheEveryNInteractions : Z;
  updateCacheForEachInteraction : bool
}.

(** [HandlerApi<State>], as the evaluator calls it. *)
Record HandlerApi := {
  initState : State → World → World;
  handle : EvalStateResult.t State → Input → Tx.t → M World (InteractionResult.t State Result)
}.

(** [ExecutionContext]; [contract_txId] and [contract_isRoot] stand for
    [contract.txId()] and [contract.isRoot()]. *)
Record ExecutionContext := {
  contractDefinition : ContractDefinition.t State;
  sortedInteractions : list Tx.t;
  evaluationOptions : EvaluationOptions;
  handler : HandlerApi;
  contract_txId : string;
  contract_isRoot : bool;
  cachedState : option (SortKeyCacheResult.t (EvalStateResult.t State));
  requestedSortKey : option string
}.

(** What the evaluator calls and is not part of it: the abort signal, the
    plugins, the tags parser, [JSON], the writing contract's [readState],
    the interaction state of the contract, the call stack, the event
    target and the execution context modifiers. *)
Record Collaborators := {
  (* [signal?.aborted] *)
  signal_aborted : World → bool;
  (* [vrfPlugin.process().verify(vrf, sortKey)], when the plugin is loaded *)
  vrfPlugin_verify : option (string → string → bool);
  evmSignatureVerificationPlugin : option (Tx.t → M World bool);
  (* [progressPlugin.process], given [allInteractions] and [currentInteraction] *)
  progressPlugin : option (nat → nat → World → World);
  isEvmSigned : Tx.t → bool;
  isInteractWrite : Tx.t → string → bool;
  getContractTag : Tx.t → string;
  (* the [value] of the Input tag, when the interaction has one *)
  getInputTag : Tx.t → string → option string;
  (* [JSON.parse], [None] when it throws *)
  JSON_parse : string → option Input;
  (* [JSON.stringify] of the interaction built from an input and a caller *)
  JSON_stringify : Input → string → string;
  (* [!input] is false *)
  input_truthy : Input → bool;
  (* [warp.contract(writer, ...).readState(interaction.sortKey, undefined, signal)] *)
  writingContract_readState :
    string → Tx.t → M World (option (SortKeyCacheResult.t (EvalStateResult.t State)));
  interactionState_setInitial : string → EvalStateResult.t State → option string → World → World;
  (* the entry staged for a contract at a sort key, or [null] *)
  interactionState_get : string → string → World → option (EvalStateResult.t State);
  interactionState_update : string → EvalStateResult.t State → option string → World → World;
  interactionState_commit : Tx.t → bool → M World unit;
  interactionState_rollback : Tx.t → bool → M World unit;
  addInteractionData : option Input → Tx.t → World → World;
  interactionCall_update : option State → option bool → option string → World → World;
  dispatchEvent : bool → string → World → World;
  clearChildren : World → World;
  executionContextModifiers : list (State → ExecutionContext → M World ExecutionContext)
}.

Variable warp : Collaborators.

(** The abstract method [onStateEvaluated]. *)
Variable onStateEvaluated :
  Tx.t → ExecutionContext → EvalStateResult.t State → M World unit.

(** The variables of [doReadState] that its loop changes.
    [lastConfirmedTxState] keeps the transaction and the state value; the
    [EvalStateResult] it was built with shares the [validity] and
    [errorMessages] objects of the loop, so those two are read from the
    loop when the record is used. *)
Record Loop := {
  executionContext : ExecutionContext;
  currentState : State;
  currentSortKey : option string;
  validity : gmap string (option bool);
  errorMessages : gmap string (option ErrVal);
  errorMessage : option string;
  lastConfirmedTxState : option (Tx.t * State);
  shouldBreakAfterEvolve : bool
}.

(** How a branch of the loop body ends: with [continue], by falling
    through to the rest of the body, or with a [throw] that rejects the
    evaluation; each with the variables as the branch left them. *)
Inductive Flow :=
| Continue (l : Loop)
| Next (l : Loop)
| Reject (e : JsError.t) (l : Loop).

(** Modelled from the spec: the enumeration [KnownErrors] is not among the
    sources; each error class carries its own name, as the [name] that
    [JsHandlerApi.handle] tests for ['ContractError'] does. *)
Definition KnownErrors_ContractError : string := "ContractError".

(** Modelled from the spec: the [name] of [NonWhitelistedSourceError]. *)
Definition KnownErrors_NonWhitelistedSourceError : string := "NonWhitelistedSourceError".

(** Modelled from the spec: the [name] of [AbortError]. *)
Definition KnownErrors_AbortError : string := "AbortError".

(** The errors of the writing contract that the internal write skips. *)
Definition skipped_in_internal_write (e : JsError.t) : bool :=
  (bool_decide (JsError.name e = KnownErrors_ContractError)
   && (bool_decide (JsError.subtype e = Some "unsafeClientSkip")
       || bool_decide (JsError.subtype e = Some "constructor")
       || bool_decide (JsError.subtype e = Some "blacklistedSkip")))
  || bool_decide (JsError.name e = KnownErrors_NonWhitelistedSourceError).

(** [parseInput] *)
Definition parseInput (inputTag : string) : option Input := JSON_parse warp inputTag.

(** The branch for an internal write: another contract writes on this one. *)
Definition internalWrite (contract_txId0 : string) (saveState : bool)
    (missingInteraction : Tx.t) (l : Loop) : M World Flow :=
  let id := Tx.id missingInteraction in
  effect (addInteractionData warp None missingInteraction) ;;
  r ← try_catch
         (writingContractState ←
            writingContract_readState warp (getContractTag warp missingInteraction)
              missingInteraction;
          newState ←
            gets (interactionState_get warp contract_txId0 (Tx.sortKey missingInteraction));
          ret (l, newState, writingContractState))
         (λ e,
            if skipped_in_internal_write e then
              let errorMessages := rset (errorMessages l) id (Some (ErrObject e)) in
              ret ({| executionContext := executionContext l;
                      currentState := currentState l;
                      currentSortKey := currentSortKey l;
                      validity := validity l;
                      errorMessages := errorMessages;
                      errorMessage := errorMessage l;
                      lastConfirmedTxState :=
                        if canBeCached missingInteraction
                        then Some (missingInteraction, currentState l)
                        else lastConfirmedTxState l;
                      shouldBreakAfterEvolve := shouldBreakAfterEvolve l |}, None, None)
            else throw e);
  let '(l, newState, writingContractState) := r in
  l ← match newState, writingContractState with
       | Some newState, Some writingContractState =>
           let parentValidity :=
             truthy (rget (EvalStateResult.validity
                             (SortKeyCacheResult.cachedValue writingContractState)) id) in
           let currentState :=
             if parentValidity then EvalStateResult.state newState else currentState l in
           effect (initState (handler (executionContext l)) currentState) ;;
           ret {| executionContext := executionContext l;
                  currentState := currentState;
                  currentSortKey := currentSortKey l;
                  validity :=
                    if parentValidity
                    then rset (validity l) id (rget (EvalStateResult.validity newState) id)
                    else rset (validity l) id (Some false);
                  errorMessages :=
                    if parentValidity then
                      match rget (EvalStateResult.errorMessages newState) id with
                      | Some (ErrString "") | None => errorMessages l
                      | Some msg => rset (errorMessages l) id (Some msg)
                      end
                    else
                      rset (errorMessages l) id
                        (rget (EvalStateResult.errorMessages
                                 (SortKeyCacheResult.cachedValue writingContractState)) id);
                  errorMessage := errorMessage l;
                  lastConfirmedTxState :=
                    if canBeCached missingInteraction
                    then Some (missingInteraction, currentState)
                    else lastConfirmedTxState l;
                  shouldBreakAfterEvolve := shouldBreakAfterEvolve l |}
       | _, _ =>
           ret {| executionContext := executionContext l;
                  currentState := currentState l;
                  currentSortKey := currentSortKey l;
                  validity := rset (validity l) id (Some false);
                  errorMessages := errorMessages l;
                  errorMessage := errorMessage l;
                  lastConfirmedTxState := lastConfirmedTxState l;
                  shouldBreakAfterEvolve := shouldBreakAfterEvolve l |}
       end;
  effect (interactionCall_update warp
            (if saveState then Some (currentState l) else None)
            (rget (validity l) id) (errorMessage l)) ;;
  ret (Next l).

(** The branch for a direct interaction with this contract. *)
Definition directInteraction (ignoreExceptions0 saveState : bool)
    (missingInteraction : Tx.t) (l : Loop) : M World Flow :=
  let id := Tx.id missingInteraction in
  match getInputTag warp missingInteraction
          (ContractDefinition.txId (contractDefinition (executionContext l))) with
  | None => ret (Continue l)
  | Some inputTag =>
      match parseInput inputTag with
      | None => ret (Continue l)
      | Some input =>
          if negb (input_truthy warp input) then ret (Continue l)
          else
            effect (addInteractionData warp (Some input) missingInteraction) ;;
            result ←
              handle (handler (executionContext l))
                (EvalStateResult.mk (currentState l) (validity l) (errorMessages l))
                input missingInteraction;
            let errorMessage := InteractionResult.errorMessage result in
            let errorMessages :=
              if bool_decide (InteractionResult.type result ≠ type_ok)
              then rset (errorMessages l) id (ErrString <$> errorMessage)
              else errorMessages l in
            effect (interactionCall_update warp
                      (if saveState then Some (currentState l) else None)
                      (rget (validity l) id) errorMessage) ;;
            if bool_decide (InteractionResult.type result = type_exception)
               && negb ignoreExceptions0
            then
              ret (Reject
                     (Error ("Exception while processing "
                               +:+ JSON_stringify warp input (Tx.owner_address missingInteraction)
                               +:+ ":" +:+ newline +:+ default "undefined" errorMessage))
                     {| executionContext := executionContext l;
                        currentState := currentState l;
                        currentSortKey := currentSortKey l;
                        validity := validity l;
                        errorMessages := errorMessages;
                        errorMessage := errorMessage;
                        lastConfirmedTxState := lastConfirmedTxState l;
                        shouldBreakAfterEvolve := shouldBreakAfterEvolve l |})
            else
              let isValidInteraction := bool_decide (InteractionResult.type result = type_ok) in
              let currentState := InteractionResult.state result in
              match InteractionResult.event result with
              | Some event => effect (dispatchEvent warp isValidInteraction event)
              | None => ret tt
              end ;;
              ret (Next {| executionContext := executionContext l;
                           currentState := currentState;
                           currentSortKey := currentSortKey l;
                           validity := rset (validity l) id (Some isValidInteraction);
                           errorMessages := errorMessages;
                           errorMessage := errorMessage;
                           lastConfirmedTxState :=
                             if canBeCached missingInteraction
                             then Some (missingInteraction, currentState)
                             else lastConfirmedTxState l;
                           shouldBreakAfterEvolve := shouldBreakAfterEvolve l |})
      end
  end.

(** The errors of a modifier after which the loop stops. *)
Definition stops_after_evolve (e : JsError.t) : bool :=
  (bool_decide (JsError.name e = KnownErrors_ContractError)
   && bool_decide (JsError.subtype e = Some "unsafeClientSkip"))
  || bool_decide (JsError.name e = KnownErrors_NonWhitelistedSourceError).

(** [for (const { modify } of modifiers) executionContext = await modify(...)]:
    the context reached, and the error when a modifier threw. *)
Fixpoint applyModifiers
    (modifiers : list (State → ExecutionContext → M World ExecutionContext))
    (currentState : State) (executionContext : ExecutionContext) (w : World)
  : (ExecutionContext * option JsError.t) * World :=
  match modifiers with
  | [] => ((executionContext, None), w)
  | modify :: rest =>
      match modify currentState executionContext w with
      | (Returned executionContext', w') => applyModifiers rest currentState executionContext' w'
      | (Thrown e, w') => ((executionContext, Some e), w')
      end
  end.

(** The rest of the loop body, after the interaction was applied. *)
Definition afterInteraction (contract_txId0 : string) (contract_isRoot0 : bool)
    (i missingInteractionsLength : nat) (missingInteraction : Tx.t) (l : Loop)
  : M World Loop :=
  let id := Tx.id missingInteraction in
  match progressPlugin warp with
  | Some process => effect (process missingInteractionsLength i)
  | None => ret tt
  end ;;
  modified ← (λ w,
    let '(r, w') := applyModifiers (executionContextModifiers warp)
                      (currentState l) (executionContext l) w in
    (Returned r, w'));
  l ← match modified.2 with
      | None =>
          ret {| executionContext := modified.1;
                 currentState := currentState l;
                 currentSortKey := currentSortKey l;
                 validity := validity l;
                 errorMessages := errorMessages l;
                 errorMessage := errorMessage l;
                 lastConfirmedTxState := lastConfirmedTxState l;
                 shouldBreakAfterEvolve := shouldBreakAfterEvolve l |}
      | Some e =>
          if stops_after_evolve e then
            ret {| executionContext := modified.1;
                   currentState := currentState l;
                   currentSortKey := currentSortKey l;
                   validity := rset (validity l) id (Some false);
                   errorMessages :=
                     rset (errorMessages l) id (Some (ErrString (JsError.message e)));
                   errorMessage := errorMessage l;
                   lastConfirmedTxState := lastConfirmedTxState l;
                   shouldBreakAfterEvolve := true |}
          else throw e
      end;
  let cacheEveryN := cacheEveryNInteractions (evaluationOptions (executionContext l)) in
  let forceStateStoreToCache :=
    bool_decide (cacheEveryN > 0) && bool_decide (Z.of_nat i `mod` cacheEveryN = 0) in
  if contract_isRoot0 then
    effect (clearChildren warp) ;;
    match lastConfirmedTxState l with
    | Some (tx, st) =>
        effect (interactionState_update warp contract_txId0
                  (EvalStateResult.mk st (validity l) (errorMessages l))
                  (Some (Tx.sortKey tx))) ;;
        if truthy (rget (validity l) id)
        then interactionState_commit warp missingInteraction forceStateStoreToCache
        else interactionState_rollback warp missingInteraction forceStateStoreToCache
    | None => ret tt
    end ;;
    ret l
  else
    effect (interactionState_update warp contract_txId0
              (EvalStateResult.mk (currentState l) (validity l) (errorMessages l))
              (currentSortKey l)) ;;
    ret l.

(** [currentSortKey = missingInteraction.sortKey] *)
Definition at_interaction (missingInteraction : Tx.t) (l : Loop) : Loop :=
  {| executionContext := executionContext l;
     currentState := currentState l;
     currentSortKey := Some (Tx.sortKey missingInteraction);
     validity := validity l;
     errorMessages := errorMessages l;
     errorMessage := errorMessage l;
     lastConfirmedTxState := lastConfirmedTxState l;
     shouldBreakAfterEvolve := shouldBreakAfterEvolve l |}.

(** The variables a branch ended with. *)
Definition variables (flow : Flow) : Loop :=
  match flow with
  | Continue l | Next l | Reject _ l => l
  end.

(** The start of the loop body: the sort key and the initial interaction
    state are set, the VRF proof and the EVM signature are verified.
    [false] means the signature was not verified and the body ends with
    [continue]. *)
Definition verify (ctx0 : ExecutionContext) (missingInteraction : Tx.t) (l : Loop)
  : M World bool :=
  effect (interactionState_setInitial warp (contract_txId ctx0)
            (EvalStateResult.mk (currentState l) (validity l) (errorMessages l))
            (Some (Tx.sortKey missingInteraction))) ;;
  match Tx.vrf missingInteraction, vrfPlugin_verify warp with
  | Some vrf, Some verify =>
      if verify vrf (Tx.sortKey missingInteraction) then ret tt
      else throw (Error "Vrf verification failed.")
  | _, _ => ret tt
  end ;;
  match evmSignatureVerificationPlugin warp with
  | Some process =>
      if isEvmSigned warp missingInteraction
      then try_catch (process missingInteraction) (λ _, ret false)
      else ret true
  | None => ret true
  end.

(** The choice between the two branches. *)
Definition applyInteraction (ctx0 : ExecutionContext) (missingInteraction : Tx.t) (l : Loop)
  : M World Flow :=
  if isInteractWrite warp missingInteraction
       (ContractDefinition.txId (contractDefinition ctx0))
     && internalWrites (evaluationOptions ctx0)
  then internalWrite (contract_txId ctx0)
         (stackTrace_saveState (evaluationOptions ctx0)) missingInteraction l
  else directInteraction (ignoreExceptions (evaluationOptions ctx0))
         (stackTrace_saveState (evaluationOptions ctx0)) missingInteraction l.

(** One pass through the body of the loop, for [missingInteractions[i]];
    [ctx0] is the execution context [doReadState] was called with, whose
    options, contract and definition the loop keeps using. *)
Definition iteration (ctx0 : ExecutionContext) (i missingInteractionsLength : nat)
    (missingInteraction : Tx.t) (l : Loop) : M World Loop :=
  let l := at_interaction missingInteraction l in
  verified ← verify ctx0 missingInteraction l;
  if negb verified then ret l
  else
    flow ← applyInteraction ctx0 missingInteraction l;
    match flow with
    | Continue l => ret l
    | Reject e _ => throw e
    | Next l =>
        afterInteraction (contract_txId ctx0) (contract_isRoot ctx0)
          i missingInteractionsLength missingInteraction l
    end.

(** The [for] loop from index [i] on, over the interactions that remain. *)
Fixpoint loop (ctx0 : ExecutionContext) (i missingInteractionsLength : nat)
    (remaining : list Tx.t) (l : Loop) : M World Loop :=
  match remaining with
  | [] => ret l
  | missingInteraction :: rest =>
      if shouldBreakAfterEvolve l then ret l
      else
        aborted ← gets (signal_aborted warp);
        if (aborted : bool) then
          throw (JsError.mk KnownErrors_AbortError
                   "Abort signal in DefaultStateEvaluator" None None)
        else
          l ← iteration ctx0 i missingInteractionsLength missingInteraction l;
          loop ctx0 (S i) missingInteractionsLength rest l
  end.

(** The execution context the loop ended with. *)
Definition context_of (l : Loop) : ExecutionContext := executionContext l.

Definition doReadState (missingInteractions : list Tx.t)
    (baseState : EvalStateResult.t State) (executionContext : ExecutionContext)
  : M World (SortKeyCacheResult.t (EvalStateResult.t State)) :=
  effect (initState (handler executionContext) (EvalStateResult.state baseState)) ;;
  l ← loop executionContext 0 (length missingInteractions) missingInteractions
        {| executionContext := executionContext;
           currentState := EvalStateResult.state baseState;
           currentSortKey := None;
           validity := EvalStateResult.validity baseState;
           errorMessages := EvalStateResult.errorMessages baseState;
           errorMessage := None;
           lastConfirmedTxState := None;
           shouldBreakAfterEvolve := false |};
  match lastConfirmedTxState l with
  | Some (tx, st) =>
      onStateEvaluated tx (context_of l)
        (EvalStateResult.mk st (validity l) (errorMessages l))
  | None => ret tt
  end ;;
  ret (SortKeyCacheResult.mk (currentSortKey l)
         (EvalStateResult.mk (currentState l) (validity l) (errorMessages l))).

(** [DefaultStateEvaluator.eval] *)
Definition eval (executionContext : ExecutionContext)
  : M World (SortKeyCacheResult.t (EvalStateResult.t State)) :=
  doReadState (sortedInteractions executionContext)
    (EvalStateResult.mk
       (ContractDefinition.initState (contractDefinition executionContext)) ∅ ∅)
    executionContext.

End evaluator.
End DefaultStateEvaluator.

(** ** The cacheable state evaluator *)

Module CacheableStateEvaluator.
Import DefaultStateEvaluator.
Section evaluator.
Context {State Input Result Ext : Type} `{!JsonEncoding (EvalStateResult.t State)}.

(** The world of this evaluator: its sort-key cache, and everything else. *)
Abbreviation World := (gmap string (gmap string (EvalStateResult.t State)) * Ext)%type.
Abbreviation Ctx := (@ExecutionContext State Input Result World).

Variable warp : @Collaborators State Input Result World.

Definition cache_put (contractTxId sortKey : string) (value : EvalStateResult.t State)
  : M World unit :=
  effect (λ w, (LevelDbCache.put w.1 contractTxId sortKey value, w.2)).

(** [putInCache]; [state.errorMessages || {}] is [state.errorMessages],
    which the type makes an object. *)
Definition putInCache (contractTxId : string) (transaction : Tx.t)
    (state : EvalStateResult.t State) : M World unit :=
  if truthy (Tx.dry transaction) then ret tt
  else
    match Tx.confirmationStatus transaction with
    | Some status =>
        if bool_decide (status ≠ "confirmed") then ret tt
        else
          cache_put contractTxId (Tx.sortKey transaction)
            (EvalStateResult.mk (EvalStateResult.state state)
               (EvalStateResult.validity state) (EvalStateResult.errorMessages state))
    | None =>
        cache_put contractTxId (Tx.sortKey transaction)
          (EvalStateResult.mk (EvalStateResult.state state)
             (EvalStateResult.validity state) (EvalStateResult.errorMessages state))
    end.

Definition onStateEvaluated (transaction : Tx.t) (executionContext : Ctx)
    (state : EvalStateResult.t State) : M World unit :=
  putInCache (ContractDefinition.txId (contractDefinition executionContext))
    transaction state.

Definition onStateUpdate (transaction : Tx.t) (executionContext : Ctx)
    (state : EvalStateResult.t State) (force : bool) : M World unit :=
  if updateCacheForEachInteraction (evaluationOptions executionContext) || force
  then putInCache (ContractDefinition.txId (contractDefinition executionContext))
         transaction state
  else ret tt.

Definition onInternalWriteStateUpdate (transaction : Tx.t) (contractTxId : string)
    (state : EvalStateResult.t State) : M World unit :=
  putInCache contractTxId transaction state.

(** The condition under which the specification calls an interaction
    cacheable. *)
Definition cacheable (i : Tx.t) : Prop :=
  truthy (Tx.dry i) = false
  ∧ (Tx.confirmationStatus i = None ∨ Tx.confirmationStatus i = Some "confirmed").

(** A sequence of cache writes, each through [putInCache]. *)
Fixpoint putAllInCache (writes : list (string * Tx.t * EvalStateResult.t State))
  : M World unit :=
  match writes with
  | [] => ret tt
  | (contractTxId, transaction, state) :: rest =>
      putInCache contractTxId transaction state ;; putAllInCache rest
  end.

(** [missingInteractions.findIndex((tx) => tx.id === interactionTxId)];
    [None] stands for -1. *)
Definition findIndex (interactionTxId : string) (missingInteractions : list Tx.t)
  : option nat :=
  fst <$> list_find (λ tx, Tx.id tx = interactionTxId) missingInteractions.

(** One pass of [for (const entry of currentTx || [])]:
    [missingInteractions.splice(index)] keeps the first [index] elements. *)
Definition inf_loop_fix (contractTxId : string) (missingInteractions : list Tx.t)
    (entry : CurrentTx.t) : list Tx.t :=
  if bool_decide (CurrentTx.contractTxId entry = contractTxId) then
    match findIndex (CurrentTx.interactionTxId entry) missingInteractions with
    | Some index => take index missingInteractions
    | None => missingInteractions
    end
  else missingInteractions.

Definition inf_loop_guard (contractTxId : string) (currentTx : option (list CurrentTx.t))
    (missingInteractions : list Tx.t) : list Tx.t :=
  foldl (inf_loop_fix contractTxId) missingInteractions (default [] currentTx).

(** [eval]. The array [executionContext.sortedInteractions] is spliced in
    place, so the context handed on holds the truncated list. The call
    chain [currentTx] is also passed to [doReadState], which has no
    parameter for it. *)
Definition eval (executionContext : Ctx) (currentTx : option (list CurrentTx.t))
  : M World (SortKeyCacheResult.t (EvalStateResult.t State)) :=
  let exact_hit :=
    match cachedState executionContext with
    | Some cached =>
        bool_decide (SortKeyCacheResult.sortKey cached = requestedSortKey executionContext)
    | None => false
    end in
  match cachedState executionContext, exact_hit with
  | Some cached, true =>
      effect (initState (handler executionContext)
                (EvalStateResult.state (SortKeyCacheResult.cachedValue cached))) ;;
      ret cached
  | cachedState, _ =>
      let contractTxId := ContractDefinition.txId (contractDefinition executionContext) in
      if bool_decide (contractTxId = "") then
        throw (Error "Contract tx id not set in the execution context")
      else
        let missingInteractions :=
          inf_loop_guard contractTxId currentTx (sortedInteractions executionContext) in
        let executionContext :=
          {| contractDefinition := contractDefinition executionContext;
             sortedInteractions := missingInteractions;
             evaluationOptions := evaluationOptions executionContext;
             handler := handler executionContext;
             contract_txId := contract_txId executionContext;
             contract_isRoot := contract_isRoot executionContext;
             cachedState := cachedState;
             requestedSortKey := requestedSortKey executionContext |} in
        if bool_decide (length missingInteractions = 0%nat) then
          match cachedState with
          | Some cached =>
              effect (initState (handler executionContext)
                        (EvalStateResult.state (SortKeyCacheResult.cachedValue cached))) ;;
              ret cached
          | None =>
              let initState0 :=
                ContractDefinition.initState (contractDefinition executionContext) in
              effect (initState (handler executionContext) initState0) ;;
              let stateToCache := EvalStateResult.mk initState0 ∅ ∅ in
              cache_put contractTxId genesisSortKey stateToCache ;;
              ret (SortKeyCacheResult.mk (Some genesisSortKey) stateToCache)
          end
        else
          let baseState :=
            match cachedState with
            | None => ContractDefinition.initState (contractDefinition executionContext)
            | Some cached => EvalStateResult.state (SortKeyCacheResult.cachedValue cached)
            end in
          let baseValidity :=
            match cachedState with
            | None => ∅
            | Some cached => EvalStateResult.validity (SortKeyCacheResult.cachedValue cached)
            end in
          let baseErrorMessages :=
            match cachedState with
            | None => ∅
            | Some cached =>
                EvalStateResult.errorMessages (SortKeyCacheResult.cachedValue cached)
            end in
          doReadState warp onStateEvaluated missingInteractions
            (EvalStateResult.mk baseState baseValidity baseErrorMessages)
            executionContext
  end.

(** The context after the guard: the same, with the spliced list. *)
Definition guarded (ctx : Ctx) (currentTx : option (list CurrentTx.t)) : Ctx :=
  {| contractDefinition := contractDefinition ctx;
     sortedInteractions :=
       inf_loop_guard (ContractDefinition.txId (contractDefinition ctx)) currentTx
         (sortedInteractions ctx);
     evaluationOptions := evaluationOptions ctx;
     handler := handler ctx;
     contract_txId := contract_txId ctx;
     contract_isRoot := contract_isRoot ctx;
     cachedState := cachedState ctx;
     requestedSortKey := requestedSortKey ctx |}.

(** The state the fold starts from. *)
Definition base_of (ctx : Ctx) : EvalStateResult.t State :=
  match cachedState ctx with
  | None => EvalStateResult.mk (ContractDefinition.initState (contractDefinition ctx)) ∅ ∅
  | Some cached =>
      EvalStateResult.mk
        (EvalStateResult.state (SortKeyCacheResult.cachedValue cached))
        (EvalStateResult.validity (SortKeyCacheResult.cachedValue cached))
        (EvalStateResult.errorMessages (SortKeyCacheResult.cachedValue cached))
  end.

(** [latestAvailableState]; [if (sortKey)] is false for [undefined] and
    for the empty string. *)
Definition latestAvailableState (contractTxId : string) (sortKey : option string)
  : M World (option (SortKeyCacheResult.t (EvalStateResult.t State))) :=
  match sortKey with
  | Some sortKey =>
      if bool_decide (sortKey = "")
      then gets (λ w, LevelDbCache.getLast w.1 contractTxId)
      else gets (λ w, LevelDbCache.getLessOrEqual w.1 contractTxId sortKey)
  | None => gets (λ w, LevelDbCache.getLast w.1 contractTxId)
  end.

(** [sortedInteractions.indexOf(transaction)], [None] standing for -1.
    [indexOf] compares object references; the interactions of a list are
    distinct objects, and the transaction looked for is one of them or
    none, so a reference is identified with the record it refers to. *)
Definition indexOf (transaction : Tx.t) (sortedInteractions : list Tx.t) : option nat :=
  fst <$> list_find (λ tx, tx = transaction) sortedInteractions.

(** [onContractCall]: the state is cached for the interaction before
    [transaction]. Reading [dry] of an [undefined] array element would
    throw a TypeError. *)
Definition onContractCall (transaction : Tx.t) (executionContext : Ctx)
    (state : EvalStateResult.t State) : M World unit :=
  if bool_decide (length (sortedInteractions executionContext) = 0%nat) then ret tt
  else
    match indexOf transaction (sortedInteractions executionContext) with
    | None => ret tt
    | Some txIndex =>
        if bool_decide (txIndex < 1)%nat then ret tt
        else
          match sortedInteractions executionContext !! (txIndex - 1)%nat with
          | Some previous =>
              putInCache (ContractDefinition.txId (contractDefinition executionContext))
                previous state
          | None =>
              throw (JsError.mk "TypeError" "Cannot read properties of undefined" None None)
          end
    end.

(** [syncState]: the error messages are not kept. *)
Definition syncState (contractTxId sortKey : string) (state : State)
    (validity : gmap string (option bool)) : M World unit :=
  cache_put contractTxId sortKey (EvalStateResult.mk state validity ∅).

(** [hasContractCached]: [getLast(contractTxId) != null]. *)
Definition hasContractCached (contractTxId : string) : M World bool :=
  gets (λ w, bool_decide (is_Some (LevelDbCache.getLast w.1 contractTxId))).

End evaluator.
End CacheableStateEvaluator.

(** ** The handler's access to other contracts *)

Module Handler.
Section handler.
Context {State World : Type}.

(** [childContract.readState(requestedHeight, chain)] of the contract
    that is read, and [stateEvaluator.onContractCall] for the execution
    context of the reading contract. *)
Variable childContract_readState :
  string → Z → list CurrentTx.t → M World (EvalStateResult.t State).
Variable onContractCall : Tx.t → EvalStateResult.t State → M World unit.

(** The call chain handed to the contract that is read:
    [[...(currentTx || []), { contractTxId, interactionTxId }]]. *)
Definition chain (currentTx : option (list CurrentTx.t))
    (contractTxId interactionTxId : string) : list CurrentTx.t :=
  default [] currentTx ++ [CurrentTx.mk contractTxId interactionTxId].

(** The function that [assignReadContractState] installs as
    [SmartWeave.contracts.readContractState], for the handler of the
    contract [this_txId]; [block_height] and [transaction_id] stand for
    [swGlobal.block.height] and [swGlobal.transaction.id]. It returns the
    state with its validity or the state alone. *)
Definition readContractState (this_txId : string)
    (currentTx : option (list CurrentTx.t)) (currentResult : EvalStateResult.t State)
    (interactionTx : Tx.t) (block_height : Z) (transaction_id : string)
    (contractTxId : string) (height : option Z) (returnValidity : option bool)
  : M World (EvalStateResult.t State + State) :=
  let requestedHeight :=
    match height with
    | Some h => if bool_decide (h = 0) then block_height else h
    | None => block_height
    end in
  onContractCall interactionTx currentResult ;;
  stateWithValidity ←
    childContract_readState contractTxId requestedHeight
      (chain currentTx this_txId transaction_id);
  ret (if truthy returnValidity then inl stateWithValidity
       else inr (EvalStateResult.state stateWithValidity)).

End handler.
End Handler.

(** ** Re-entrant evaluation across contracts *)

Module Reentry.

(** Modelled from the spec: the contracts of one root call, which the
    sources do not represent as a value. Each has its sorted interactions.
    To the evaluator of a contract an interaction is either an internal
    write of another contract, its [writer], whose state the
    internal-write branch of [doReadState] reads, or a direct interaction:
    then the handler runs, and its host hooks read the state of the
    contracts [hooks]. *)
Record Network := {
  interactionsOf : gmap string (list Tx.t);
  writer : string → Tx.t → option string;
  hooks : string → Tx.t → list string
}.

(** Modelled from the spec: every (contract, interaction) pair that can be
    put on the call chain of such a network. *)
Definition pairs (net : Network) : list CurrentTx.t :=
  map_to_list (interactionsOf net) ≫= λ '(contract, txs),
    (λ tx, CurrentTx.mk contract (Tx.id tx)) <$> txs.

Section reentry.
(** The guard applied to the missing interactions. *)
Variable guard : string → option (list CurrentTx.t) → list Tx.t → list Tx.t.
Variable net : Network.

(** Modelled from the spec: [Contract.readState] is not among the sources.
    Following the evaluator's algorithm, reading [contract] at
    [requestedSortKey] with the call chain [currentTx] takes the
    interactions of the contract up to that key, applies the guard of
    [CacheableStateEvaluator.eval] with that chain and folds what is
    left. The two re-entries are those of the sources. For an internal
    write, [doReadState] calls
    [writingContract.readState(missingInteraction.sortKey, undefined, signal)]:
    the writer is read with no chain. For a direct interaction the hook
    installed by [Handler.assignReadContractState] calls
    [childContract.readState(requestedHeight, [...(currentTx || []),
    { contractTxId, interactionTxId }])]: the contract is read, here at the
    sort key of the interaction, with [Handler.chain]. The result is the
    number of interactions processed; [None] means that the fuel ran
    out. *)
Fixpoint readState (fuel : nat) (contract requestedSortKey : string)
    (currentTx : option (list CurrentTx.t)) : option nat :=
  match fuel with
  | O => None
  | S fuel' =>
      let sortedInteractions :=
        filter (λ tx, String.le (Tx.sortKey tx) requestedSortKey)
          (default [] (interactionsOf net !! contract)) in
      let missingInteractions := guard contract currentTx sortedInteractions in
      counts ← mapM (λ tx,
        match writer net contract tx with
        | Some writingContract =>
            nested ← readState fuel' writingContract (Tx.sortKey tx) None;
            Some (S nested)
        | None =>
            nested ← mapM (λ childContract,
              readState fuel' childContract (Tx.sortKey tx)
                (Some (Handler.chain currentTx contract (Tx.id tx))))
              (hooks net contract tx);
            Some (S (sum_list nested))
        end) missingInteractions;
      Some (sum_list counts)
  end.

End reentry.
End Reentry.

(** ** Computations that return or throw *)

Definition and_then {E A B} (c : Completion E A) (k : A → Completion E B)
  : Completion E B :=
  match c with
  | Returned a => k a
  | Thrown e => Thrown e
  end.

#[global] Instance Completion_ret {E} : MRet (Completion E) := @Returned E.
#[global] Instance Completion_bind {E} : MBind (Completion E) := λ A B k c, and_then c k.

(** ** The handler executor factory *)

Module HandlerExecutorFactory.

(** [new ContractError(error, subtype)], for a string [error]. *)
Definition ContractError (error : string) (subtype : option string) : JsError.t :=
  JsError.mk DefaultStateEvaluator.KnownErrors_ContractError error subtype None.

(** [new NonWhitelistedSourceError(error)], for a string [error]. *)
Definition NonWhitelistedSourceError (error : string) : JsError.t :=
  JsError.mk DefaultStateEvaluator.KnownErrors_NonWhitelistedSourceError error None None.

(** [str.includes(searchString)] *)
Fixpoint includes (str searchString : string) : bool :=
  String.prefix searchString str
  || match str with
     | EmptyString => false
     | String _ rest => includes rest searchString
     end.

(** The evaluation options [create] reads. *)
Record EvaluationOptions := {
  unsafeClient : string;
  allowBigInt : bool;
  whitelistSources : list string
}.

(** The fields of [ContractDefinition] that [create] reads; [src] is
    [null] for a wasm contract. *)
Record ContractDefinition := {
  txId : string;
  srcTxId : string;
  contractType : string;
  srcWasmLang : option string;
  src : option string
}.

(** What makes the handler of a contract. *)
Inductive Engine :=
| WasmRust
| Vm2Plugin
| IvmPlugin
| QuickJsPlugin
| JsFunction.

Section factory.
Context {Handler : Type}.

(** [warp.hasPlugin] and the [process] of the blacklist plugin. *)
Variable hasPlugin : string → bool.
Variable blacklistPlugin_process : string → Completion JsError.t bool.

(** [normalizeContractSource], which is not among the sources. *)
Variable normalizeContractSource : option string → bool → string.

(** What [create] does between the two checks and the choice of the
    engine: the key-value storage, the global object and the extension
    plugins; and the making of the handler by the engine chosen, from the
    normalized source for a JavaScript contract. Both may throw. *)
Variable prepare : Completion JsError.t unit.
Variable build : Engine → option string → Completion JsError.t Handler.

(** [blacklistContracts]: an error of the plugin is logged and the
    contract counts as not blacklisted. *)
Definition blacklistContracts (contractDefinition : ContractDefinition)
  : Completion JsError.t unit :=
  let blacklisted :=
    match blacklistPlugin_process (txId contractDefinition) with
    | Returned blacklisted => blacklisted
    | Thrown _ => false
    end in
  if blacklisted then
    Thrown (ContractError
              ("[SkipUnsafeError] Skipping evaluation of the blacklisted contract "
                 +:+ txId contractDefinition +:+ ".")
              (Some "blacklistedSkip"))
  else Returned tt.

(** [checkWhiteListContractSources]; the options are always given. *)
Definition checkWhiteListContractSources (contractDefinition : ContractDefinition)
    (evaluationOptions : EvaluationOptions) : Completion JsError.t unit :=
  if bool_decide (0 < length (whitelistSources evaluationOptions))%nat
     && negb (bool_decide (srcTxId contractDefinition ∈ whitelistSources evaluationOptions))
  then
    Thrown (NonWhitelistedSourceError
              ("[NonWhitelistedSourceError] Contract source not part of whitelisted sources list: "
                 +:+ srcTxId contractDefinition +:+ "."))
  else Returned tt.

(** The [switch (evaluationOptions.unsafeClient)] for a source that
    mentions [unsafeClient]. *)
Definition unsafeClientCheck (contractDefinition : ContractDefinition)
    (evaluationOptions : EvaluationOptions) (normalizedSource : string)
  : Completion JsError.t unit :=
  if includes normalizedSource "unsafeClient" then
    if bool_decide (unsafeClient evaluationOptions = "allow") then Returned tt
    else if bool_decide (unsafeClient evaluationOptions = "throw") then
      Thrown (Error
                ("[SkipUnsafeError] Using unsafeClient is not allowed by default. Use EvaluationOptions.unsafeClient flag to evaluate "
                   +:+ txId contractDefinition +:+ "."))
    else if bool_decide (unsafeClient evaluationOptions = "skip") then
      Thrown (ContractError
                ("[SkipUnsafeError] Skipping evaluation of the unsafe contract "
                   +:+ txId contractDefinition +:+ ".")
                (Some "unsafeClientSkip"))
    else
      Thrown (Error ("Unknown unsafeClient setting " +:+ unsafeClient evaluationOptions))
  else Returned tt.

(** [create] *)
Definition create (contractDefinition : ContractDefinition)
    (evaluationOptions : EvaluationOptions) : Completion JsError.t Handler :=
  (if hasPlugin "contract-blacklist" then blacklistContracts contractDefinition
   else Returned tt) ;;
  checkWhiteListContractSources contractDefinition evaluationOptions ;;
  prepare ;;
  if bool_decide (contractType contractDefinition = "wasm") then
    if bool_decide (srcWasmLang contractDefinition = Some "rust") then build WasmRust None
    else
      Thrown (Error ("Support for " +:+ default "undefined" (srcWasmLang contractDefinition)
                       +:+ " not implemented yet."))
  else
    let normalizedSource :=
      normalizeContractSource (src contractDefinition) (hasPlugin "vm2") in
    unsafeClientCheck contractDefinition evaluationOptions normalizedSource ;;
    (if negb (allowBigInt evaluationOptions) && includes normalizedSource "BigInt" then
       Thrown (Error "Using BigInt is not allowed by default. Use EvaluationOptions.allowBigInt flag.")
     else Returned tt) ;;
    if hasPlugin "vm2" then build Vm2Plugin (Some normalizedSource)
    else if hasPlugin "ivm-handler-api" then build IvmPlugin (src contractDefinition)
    else if hasPlugin "quickjs" then build QuickJsPlugin (src contractDefinition)
    else build JsFunction (Some normalizedSource).

End factory.
End HandlerExecutorFactory.

(** ** The evaluator of inner writes *)

Module InnerWritesEvaluator.

(** [ContractCallRecord] and [InteractionCall], with the fields the
    evaluator reads; an object used as a map is the list of its entries
    in the order of [Object.keys]. [dryWrite] is the field of
    [interactionInput], of which [foreignContractCalls] is one too. *)
Inductive ContractCallRecord :=
| mkContractCallRecord (contractTxId : string) (innerCallType : option string)
    (interactions : list (string * InteractionCall))
with InteractionCall :=
| mkInteractionCall (dryWrite : option bool)
    (foreignContractCalls : list (string * ContractCallRecord)).

Definition contractTxId (callStack : ContractCallRecord) : string :=
  match callStack with mkContractCallRecord contractTxId _ _ => contractTxId end.

Definition interactions (callStack : ContractCallRecord) : list (string * InteractionCall) :=
  match callStack with mkContractCallRecord _ _ interactions => interactions end.

(** [evalForeignCalls], returning the array [result] as it has become.
    The recursive call does not pass [onlyDryWrites], which takes its
    default [true]. *)
Fixpoint evalForeignCalls (rootContractTxId : string) (interaction : InteractionCall)
    (result : list string) (onlyDryWrites : bool) {struct interaction} : list string :=
  match interaction with
  | mkInteractionCall _ foreignContractCalls =>
      (fix forEachCall (calls : list (string * ContractCallRecord)) (result : list string)
         : list string :=
         match calls with
         | [] => result
         | (_, mkContractCallRecord foreignContractTxId innerCallType foreignInteractions)
             :: calls =>
             let result :=
               if bool_decide (innerCallType = Some "write") then
                 (fix forEachInteraction (keys : list (string * InteractionCall))
                      (result : list string) : list string :=
                    match keys with
                    | [] => result
                    | (_, foreignInteraction) :: keys =>
                        let dryWrite :=
                          match foreignInteraction with
                          | mkInteractionCall dryWrite _ => truthy dryWrite
                          end in
                        let result :=
                          if ((onlyDryWrites && dryWrite) || negb onlyDryWrites)
                             && negb (bool_decide (foreignContractTxId ∈ result))
                             && negb (bool_decide (rootContractTxId = foreignContractTxId))
                          then result ++ [foreignContractTxId]
                          else result in
                        let result :=
                          evalForeignCalls rootContractTxId foreignInteraction result true in
                        forEachInteraction keys result
                    end) foreignInteractions result
               else result in
             forEachCall calls result
         end) foreignContractCalls result
  end.

(** [eval] *)
Definition eval (callStack : ContractCallRecord) : list string :=
  foldl (λ result entry,
           evalForeignCalls (contractTxId callStack) entry.2 result true)
    [] (interactions callStack).

End InnerWritesEvaluator.

(** ** The contract definition loader *)

Module ContractDefinitionLoader.

(** The tags the loader reads, by their names in [SmartWeaveTags]. *)
Inductive SmartWeaveTags :=
| CONTRACT_SRC_TX_ID
| WARP_TESTNET
| MIN_FEE
| MANIFEST
| INIT_STATE
| INIT_STATE_TX
| CONTENT_TYPE
| WASM_LANG
| WASM_META.

(** An Arweave transaction: its id and owner; its tags are read through
    [TagsParser.getTag]. *)
Record Transaction := {
  tx_id : string;
  tx_owner : string
}.

(** [if (s)] and [s || null] on an optional string: [undefined] and the
    empty string are falsy. *)
Definition truthy_string (s : option string) : bool :=
  match s with
  | Some s => negb (bool_decide (s = ""))
  | None => false
  end.

(** The double quote character, code 34. *)
Definition quote : string :=
  String (Ascii.Ascii false true false false false true false false) EmptyString.

Section loader.
Context {Json Buffer WasmSrc : Type}.

(** The environment the loader was made for. *)
Variable env : string.

(** What the loader calls: [TagsParser.getTag], the Arweave wrapper and
    wallet, [JSON.parse] and [WasmSrc]. The transactions and their data
    are fixed once posted, so the same request is answered the same way
    each time; every call but [getTag] may throw. *)
Variable getTag : Transaction → SmartWeaveTags → option string.
Variable arweaveWrapper_tx : option string → Completion JsError.t Transaction.
Variable ownerToAddress : string → Completion JsError.t string.
Variable arweaveWrapper_txDataString : option string → Completion JsError.t string.
Variable arweaveWrapper_txData : option string → Completion JsError.t Buffer.
Variable JSON_parse : option string → Completion JsError.t Json.
Variable WasmSrc_new : Buffer → Completion JsError.t WasmSrc.
Variable wasmBinary : WasmSrc → Completion JsError.t Buffer.

(** [ContractSource], the result of [loadContractSource]. *)
Record ContractSource := {
  cs_src : option string;
  cs_srcBinary : option Buffer;
  cs_srcWasmLang : option string;
  cs_contractType : string;
  cs_metadata : option Json;
  cs_srcTx : Transaction
}.

(** [ContractDefinition], the result of [doLoad]. *)
Record ContractDefinition := {
  txId : string;
  srcTxId : option string;
  src : option string;
  srcBinary : option Buffer;
  srcWasmLang : option string;
  initState : Json;
  minFee : option string;
  owner : string;
  contractType : string;
  metadata : option Json;
  manifest : option Json;
  contractTx : Transaction;
  srcTx : Transaction;
  testnet : option string
}.

Definition supportedSrcContentTypes : list string :=
  ["application/javascript"; "application/wasm"].

(** [evalInitialState] *)
Definition evalInitialState (contractTx : Transaction) : Completion JsError.t string :=
  if truthy_string (getTag contractTx INIT_STATE) then
    Returned (default "" (getTag contractTx INIT_STATE))
  else if truthy_string (getTag contractTx INIT_STATE_TX) then
    arweaveWrapper_txDataString (getTag contractTx INIT_STATE_TX)
  else arweaveWrapper_txDataString (Some (tx_id contractTx)).

(** [loadContractSource] *)
Definition loadContractSource (contractSrcTxId : option string)
  : Completion JsError.t ContractSource :=
  contractSrcTx ← arweaveWrapper_tx contractSrcTxId;
  let srcContentType := getTag contractSrcTx CONTENT_TYPE in
  if negb (match srcContentType with
           | Some type => bool_decide (type ∈ supportedSrcContentTypes)
           | None => false
           end) then
    Thrown (Error ("Contract source content type "
                     +:+ default "undefined" srcContentType +:+ " not supported"))
  else
    if bool_decide (srcContentType = Some "application/javascript") then
      src ← arweaveWrapper_txDataString contractSrcTxId;
      Returned {| cs_src := Some src;
                  cs_srcBinary := None;
                  cs_srcWasmLang := None;
                  cs_contractType := "js";
                  cs_metadata := None;
                  cs_srcTx := contractSrcTx |}
    else
      src ← arweaveWrapper_txData contractSrcTxId;
      wasmSrc ← WasmSrc_new src;
      let srcWasmLang := getTag contractSrcTx WASM_LANG in
      if negb (truthy_string srcWasmLang) then
        Thrown (Error ("Wasm lang not set for wasm contract src "
                         +:+ default "undefined" contractSrcTxId))
      else
        srcMetaData ← JSON_parse (getTag contractSrcTx WASM_META);
        binary ← wasmBinary wasmSrc;
        Returned {| cs_src := None;
                    cs_srcBinary := Some binary;
                    cs_srcWasmLang := srcWasmLang;
                    cs_contractType := "wasm";
                    cs_metadata := Some srcMetaData;
                    cs_srcTx := contractSrcTx |}.

(** [doLoad] *)
Definition doLoad (contractTxId : string) (forcedSrcTxId : option string)
  : Completion JsError.t ContractDefinition :=
  contractTx ← arweaveWrapper_tx (Some contractTxId);
  owner ← ownerToAddress (tx_owner contractTx);
  let contractSrcTxId :=
    if truthy_string forcedSrcTxId then forcedSrcTxId
    else getTag contractTx CONTRACT_SRC_TX_ID in
  let testnet :=
    if truthy_string (getTag contractTx WARP_TESTNET) then getTag contractTx WARP_TESTNET
    else None in
  if truthy_string testnet && negb (bool_decide (env = "testnet")) then
    Thrown (Error ("Trying to use testnet contract in a non-testnet env. Use the "
                     +:+ quote +:+ "forTestnet" +:+ quote +:+ " factory method."))
  else if negb (truthy_string testnet) && bool_decide (env = "testnet") then
    Thrown (Error "Trying to use non-testnet contract in a testnet env.")
  else
    let minFee := getTag contractTx MIN_FEE in
    let rawManifest := getTag contractTx MANIFEST in
    manifest ← (if truthy_string rawManifest
                then parsed ← JSON_parse rawManifest; Returned (Some parsed)
                else Returned None);
    s ← evalInitialState contractTx;
    rawInitState ← evalInitialState contractTx;
    initState ← JSON_parse (Some rawInitState);
    source ← loadContractSource contractSrcTxId;
    Returned {| txId := contractTxId;
                srcTxId := contractSrcTxId;
                src := cs_src source;
                srcBinary := cs_srcBinary source;
                srcWasmLang := cs_srcWasmLang source;
                initState := initState;
                minFee := minFee;
                owner := owner;
                contractType := cs_contractType source;
                metadata := cs_metadata source;
                manifest := manifest;
                contractTx := contractTx;
                srcTx := cs_srcTx source;
                testnet := testnet |}.

End loader.
End ContractDefinitionLoader.

(** ** Utilities *)

Module Utils.

(** A hexadecimal digit, for a value below 16. *)
Definition hexDigit (d : N) : Ascii.ascii :=
  Ascii.ascii_of_N (if (d <? 10)%N then 48 + d else 87 + d).

(** [i.toString(16)] for an element [i] of a [Uint8Array]. *)
Definition toString16 (i : Byte.byte) : string :=
  let n := Byte.to_N i in
  if (n <? 16)%N then String (hexDigit n) EmptyString
  else String (hexDigit (n / 16)) (String (hexDigit (n `mod` 16)) EmptyString).

(** The value of a hexadecimal digit. *)
Definition hexValue (c : Ascii.ascii) : option Z :=
  let n := Ascii.N_of_ascii c in
  if ((48 <=? n) && (n <=? 57))%N then Some (Z.of_N (n - 48))
  else if ((97 <=? n) && (n <=? 102))%N then Some (Z.of_N (n - 87))
  else if ((65 <=? n) && (n <=? 70))%N then Some (Z.of_N (n - 55))
  else None.

(** The digits of a hexadecimal literal read from the left, on top of
    the value read so far. *)
Fixpoint hexDigits (digits : string) (value : Z) : option Z :=
  match digits with
  | EmptyString => Some value
  | String c rest =>
      match hexValue c with
      | Some d => hexDigits rest (16 * value + d)
      | None => None
      end
  end.

(** [BigInt('0x' + digits)]: a literal without digits, or with a
    character that is not a digit, is a SyntaxError. *)
Definition BigInt_of_hex (digits : string) : Completion JsError.t Z :=
  match digits with
  | EmptyString =>
      Thrown (JsError.mk "SyntaxError" "Cannot convert 0x to a BigInt" None None)
  | _ =>
      match hexDigits digits 0 with
      | Some value => Returned value
      | None =>
          Thrown (JsError.mk "SyntaxError"
                    ("Cannot convert 0x" +:+ digits +:+ " to a BigInt") None None)
      end
  end.

(** [hex.join('')] *)
Definition join (hex : list string) : string := foldr String.append EmptyString hex.

(** The function applied to each element: its digits, with a ['0'] put
    before an odd number of them. *)
Definition evenDigits (i : Byte.byte) : string :=
  let h := toString16 i in
  if bool_decide (String.length h `mod` 2 ≠ 0)%nat then String.append "0" h else h.

(** [bufToBn] *)
Definition bufToBn (buf : list Byte.byte) : Completion JsError.t Z :=
  let hex := evenDigits <$> buf in
  BigInt_of_hex (join hex).

(** The number a sequence of bytes denotes, most significant byte first. *)
Definition big_endian (buf : list Byte.byte) : Z :=
  foldl (λ value i, 256 * value + Z.of_N (Byte.to_N i)) 0 buf.

End Utils.

(** ** The plugin registry of [Warp] *)

Module Warp.
Section plugins.
Context {Plugin : Type}.

(** [plugin.type()], and [isPluginType], whose lists of known plugin
    types are not among the sources. *)
Variable type : Plugin → string.
Variable isPluginType : string → bool.

(** [use]: the registry [plugins] after the call, or the error thrown. *)
Definition use (plugin : Plugin) (plugins : gmap string Plugin)
  : Completion JsError.t (gmap string Plugin) :=
  let pluginType := type plugin in
  if negb (isPluginType pluginType) then
    Thrown (Error ("Unknown plugin type " +:+ pluginType +:+ "."))
  else Returned (<[pluginType := plugin]> plugins).

Definition hasPlugin (plugins : gmap string Plugin) (type : string) : bool :=
  bool_decide (is_Some (plugins !! type)).

(** [loadPlugin]; [plugins.get(type)] of a registered type is defined. *)
Definition loadPlugin (plugins : gmap string Plugin) (type : string)
  : Completion JsError.t (option Plugin) :=
  if negb (hasPlugin plugins type) then
    Thrown (Error ("Plugin " +:+ type +:+ " not registered."))
  else Returned (plugins !! type).

End plugins.
End Warp.

(** ** Concrete contracts and interactions *)

(** A counter contract with a few interactions, on which the definitions
    above can be run. *)
Module Example.

Definition contractA : string := "contractA_abcdefghijklmnopqrstuvwxyzABCDEFG".
Definition contractB : string := "contractB_abcdefghijklmnopqrstuvwxyzABCDEFG".

Definition sortKey1 : string := "000000000001,1600000000001,aaaaaaaaaaaaaaaaaaaaaaaaaaaaaaaaaaaaaaaaaaaaaaaaaaaaaaaaaaaaaaaa".
Definition sortKey2 : string := "000000000002,1600000000002,bbbbbbbbbbbbbbbbbbbbbbbbbbbbbbbbbbbbbbbbbbbbbbbbbbbbbbbbbbbbbbbb".
Definition sortKey3 : string := "000000000003,1600000000003,cccccccccccccccccccccccccccccccccccccccccccccccccccccccccccccccc".
Definition sortKey4 : string := "000000000004,1600000000004,dddddddddddddddddddddddddddddddddddddddddddddddddddddddddddddddd".
Definition sortKey5 : string := "000000000005,1600000000005,eeeeeeeeeeeeeeeeeeeeeeeeeeeeeeeeeeeeeeeeeeeeeeeeeeeeeeeeeeeeeeee".
Definition sortKey6 : string := "000000000006,1600000000006,ffffffffffffffffffffffffffffffffffffffffffffffffffffffffffffffff".

(** A confirmed interaction, as the gateway returns it. *)
Definition interaction (id sortKey : string) : Tx.t :=
  Tx.mk id sortKey None (Some "confirmed") None "owner_abcdefghijklmnopqrstuvwxyzABCDEFGHIJK" 1.

Definition tx_add : Tx.t := interaction "tx1add_abcdefghijklmnopqrstuvwxyzABCDEFGHIJ" sortKey1.
Definition tx_fail : Tx.t := interaction "tx2fail_abcdefghijklmnopqrstuvwxyzABCDEFGHI" sortKey2.
Definition tx_boom : Tx.t := interaction "tx3boom_abcdefghijklmnopqrstuvwxyzABCDEFGHI" sortKey3.
Definition tx_no_input : Tx.t := interaction "tx4noinput_abcdefghijklmnopqrstuvwxyzABCDEF" sortKey4.
Definition tx_bad_input : Tx.t := interaction "tx5badinput_abcdefghijklmnopqrstuvwxyzABCDE" sortKey5.
Definition tx_write : Tx.t := interaction "tx6write_abcdefghijklmnopqrstuvwxyzABCDEFGH" sortKey6.

(** The same interaction sent as a dry run, and one not yet confirmed. *)
Definition tx_dry : Tx.t :=
  Tx.mk (Tx.id tx_add) sortKey1 (Some true) None None (Tx.owner_address tx_add) 1.
Definition tx_unconfirmed : Tx.t :=
  Tx.mk (Tx.id tx_fail) sortKey2 None (Some "not_processed") None (Tx.owner_address tx_fail) 1.

(** The double quote character, code 34. *)
Definition dq : string :=
  String (Ascii.Ascii false true false false false true false false) EmptyString.

(** The Input tag value [{"function":"f"}]. *)
Definition call (f : string) : string :=
  "{" +:+ dq +:+ "function" +:+ dq +:+ ":" +:+ dq +:+ f +:+ dq +:+ "}".

(** The parsed input: an object with its [function], or [null]. *)
Inductive ExampleInput :=
| Call (function : string)
| JsonNull.

(** [JSON.parse] on the tag values that occur here. *)
Definition parse (text : string) : option ExampleInput :=
  if bool_decide (text = call "add") then Some (Call "add")
  else if bool_decide (text = call "fail") then Some (Call "fail")
  else if bool_decide (text = call "boom") then Some (Call "boom")
  else if bool_decide (text = "null") then Some JsonNull
  else None.

(** The Input tags of the interactions; [tx_no_input] has none, and the
    value of [tx_bad_input] is cut short. *)
Definition inputTags : gmap string string :=
  {[ Tx.id tx_add := call "add";
     Tx.id tx_fail := call "fail";
     Tx.id tx_boom := call "boom";
     Tx.id tx_bad_input := "{" +:+ dq +:+ "function" ]}.

(** The world: the sort-key cache, and the entries staged in the
    interaction state, by contract. *)
Abbreviation World :=
  (gmap string (gmap string (EvalStateResult.t Z)) * gmap string (EvalStateResult.t Z))%type.

(** What the cache reads back for an error object held in
    [errorMessages]. The errors put there are [ContractError] and
    [NonWhitelistedSourceError] objects; their own enumerable properties
    are [name], [subtype] and [error], the text that is also their
    message, here kept in [message]. The stack is not written. *)
Definition written (value : ErrVal) : ErrVal :=
  match value with
  | ErrString s => ErrString s
  | ErrObject e =>
      ErrObject (JsError.mk (JsError.name e) (JsError.message e) (JsError.subtype e) None)
  end.

(** [JSON.parse(JSON.stringify(value))] for the results of the counter: the
    state is a number; a property of [validity] or [errorMessages] that
    holds [undefined] is not written. *)
#[global] Instance json_counter : JsonEncoding (EvalStateResult.t Z) := λ value,
  EvalStateResult.mk (EvalStateResult.state value)
    (filter (λ entry, is_Some entry.2) (EvalStateResult.validity value))
    ((λ message : option ErrVal, written <$> message) <$>
       filter (λ entry, is_Some entry.2) (EvalStateResult.errorMessages value)).

(** The counter's handler: [add] increments, [fail] is rejected by the
    contract, [boom] fails unexpectedly. *)
Definition counter : @DefaultStateEvaluator.HandlerApi Z ExampleInput unit World :=
  {| DefaultStateEvaluator.initState := λ _ w, w;
     DefaultStateEvaluator.handle := λ current input _,
       ret (match input with
            | Call "add" =>
                InteractionResult.mk type_ok ResultUndefined
                  (EvalStateResult.state current + 1) None None None
            | Call "fail" =>
                InteractionResult.mk type_error ResultNull
                  (EvalStateResult.state current) (Some "not allowed") None None
            | _ =>
                InteractionResult.mk type_exception ResultNull
                  (EvalStateResult.state current) (Some "boom") None None
            end) |}.

(** What contract B's [readState] returns for [tx_write], B's fold having
    accepted it and staged the counter 42 for contract A. *)
Definition writerState : SortKeyCacheResult.t (EvalStateResult.t Z) :=
  SortKeyCacheResult.mk (Some sortKey6)
    (EvalStateResult.mk 7 {[ Tx.id tx_write := Some true ]} ∅).

Definition stagedState : EvalStateResult.t Z :=
  EvalStateResult.mk 42 {[ Tx.id tx_write := Some true ]} ∅.

Definition warp : @DefaultStateEvaluator.Collaborators Z ExampleInput unit World :=
  {| DefaultStateEvaluator.signal_aborted := λ _, false;
     DefaultStateEvaluator.vrfPlugin_verify := None;
     DefaultStateEvaluator.evmSignatureVerificationPlugin := None;
     DefaultStateEvaluator.progressPlugin := None;
     DefaultStateEvaluator.isEvmSigned := λ _, false;
     DefaultStateEvaluator.isInteractWrite := λ tx _,
       bool_decide (Tx.id tx = Tx.id tx_write);
     DefaultStateEvaluator.getContractTag := λ _, contractB;
     DefaultStateEvaluator.getInputTag := λ tx _, inputTags !! Tx.id tx;
     DefaultStateEvaluator.JSON_parse := parse;
     DefaultStateEvaluator.JSON_stringify := λ _ _, "{}";
     DefaultStateEvaluator.input_truthy := λ input,
       match input with Call _ => true | JsonNull => false end;
     DefaultStateEvaluator.writingContract_readState := λ _ _ w,
       (Returned (Some writerState), (w.1, <[contractA := stagedState]> w.2));
     DefaultStateEvaluator.interactionState_setInitial := λ _ _ _ w, w;
     DefaultStateEvaluator.interactionState_get := λ contract _ w, w.2 !! contract;
     DefaultStateEvaluator.interactionState_update := λ contract st _ w,
       (w.1, <[contract := st]> w.2);
     DefaultStateEvaluator.interactionState_commit := λ _ _, ret tt;
     DefaultStateEvaluator.interactionState_rollback := λ _ _, ret tt;
     DefaultStateEvaluator.addInteractionData := λ _ _ w, w;
     DefaultStateEvaluator.interactionCall_update := λ _ _ _ w, w;
     DefaultStateEvaluator.dispatchEvent := λ _ _ w, w;
     DefaultStateEvaluator.clearChildren := λ w, w;
     DefaultStateEvaluator.executionContextModifiers := [] |}.

Definition options (ignoreExceptions internalWrites : bool)
  : DefaultStateEvaluator.EvaluationOptions :=
  {| DefaultStateEvaluator.ignoreExceptions := ignoreExceptions;
     DefaultStateEvaluator.internalWrites := internalWrites;
     DefaultStateEvaluator.stackTrace_saveState := false;
     DefaultStateEvaluator.cacheEveryNInteractions := -1;
     DefaultStateEvaluator.updateCacheForEachInteraction := false |}.

(** The execution context of contract A, deployed with the counter at 1. *)
Definition context (sortedInteractions : list Tx.t)
    (cachedState : option (SortKeyCacheResult.t (EvalStateResult.t Z)))
    (ignoreExceptions internalWrites : bool)
  : @DefaultStateEvaluator.ExecutionContext Z ExampleInput unit World :=
  {| DefaultStateEvaluator.contractDefinition := ContractDefinition.mk contractA 1;
     DefaultStateEvaluator.sortedInteractions := sortedInteractions;
     DefaultStateEvaluator.evaluationOptions := options ignoreExceptions internalWrites;
     DefaultStateEvaluator.handler := counter;
     DefaultStateEvaluator.contract_txId := contractA;
     DefaultStateEvaluator.contract_isRoot := true;
     DefaultStateEvaluator.cachedState := cachedState;
     DefaultStateEvaluator.requestedSortKey := None |}.

(** The variables of the loop at its start, from the initial state. *)
Definition start (ctx : @DefaultStateEvaluator.ExecutionContext Z ExampleInput unit World)
  : @DefaultStateEvaluator.Loop Z ExampleInput unit World :=
  {| DefaultStateEvaluator.executionContext := ctx;
     DefaultStateEvaluator.currentState := 1;
     DefaultStateEvaluator.currentSortKey := None;
     DefaultStateEvaluator.validity := ∅;
     DefaultStateEvaluator.errorMessages := ∅;
     DefaultStateEvaluator.errorMessage := None;
     DefaultStateEvaluator.lastConfirmedTxState := None;
     DefaultStateEvaluator.shouldBreakAfterEvolve := false |}.

Definition emptyWorld : World := (∅, ∅).

(** A cache holding six states of contract A. *)
Definition sixEntries : gmap string (gmap string (EvalStateResult.t Z)) :=
  {[ contractA :=
       {[ sortKey1 := EvalStateResult.mk 1 ∅ ∅;
          sortKey2 := EvalStateResult.mk 2 ∅ ∅;
          sortKey3 := EvalStateResult.mk 3 ∅ ∅;
          sortKey4 := EvalStateResult.mk 4 ∅ ∅;
          sortKey5 := EvalStateResult.mk 5 ∅ ∅;
          sortKey6 := EvalStateResult.mk 6 ∅ ∅ ]} ]}.

(** [WARP_GW_URL] *)
Definition WARP_GW_URL : string := "https://d1o5nlqr4okus2.cloudfront.net".

(** A gateway that answers every request with status 504. *)
Definition gateway504 (q : WarpGatewayInteractionsLoader.Query)
  : WarpGatewayInteractionsLoader.FetchResult :=
  WarpGatewayInteractionsLoader.Rejected (Some 504).

(** A gateway with two pages, whose second request ends with status 504. *)
Definition gatewayFailingOnPage2 (q : WarpGatewayInteractionsLoader.Query)
  : WarpGatewayInteractionsLoader.FetchResult :=
  if bool_decide (WarpGatewayInteractionsLoader.q_page q = "1") then
    WarpGatewayInteractionsLoader.Resolved true 200
      (Some {| WarpGatewayInteractionsLoader.paging_pages := 2;
               WarpGatewayInteractionsLoader.interactions :=
                 [ {| WarpGatewayInteractionsLoader.interaction := tx_add;
                      WarpGatewayInteractionsLoader.status := Some "confirmed" |} ] |})
  else WarpGatewayInteractionsLoader.Resolved false 504 None.

(** A delegate loader that returns two interactions of contract A and
    counts its calls. *)
Definition delegateLoad (contractTxId : string) (fromSortKey toSortKey : option string)
    (calls : nat) : Completion JsError.t (list Tx.t) * nat :=
  (Returned [tx_add; tx_fail], S calls).

(** [localeCompare] on sort keys: digits, commas and lower-case letters
    compare as their codes do. *)
Definition localeCompare (a b : string) : Z :=
  match String.compare a b with
  | Lt => -1
  | Eq => 0
  | Gt => 1
  end.

(** A key-value storage that counts the operations done on it and never
    throws. *)
Definition kvStep (store : nat) : option JsHandlerApi.JsThrown * nat := (None, S store).

(** A contract function that rejects every interaction with a
    [ContractError]. *)
Definition rejecting (st : Z) (interaction : JsHandlerApi.ContractInteraction ExampleInput)
    (store : nat) : JsHandlerApi.RaceOutcome Z unit * nat :=
  (JsHandlerApi.Rejects
     (JsHandlerApi.ThrownError (JsError.mk "ContractError" "not allowed" None None)),
   store).

(** Contract A is written by B through [tx_write]: to the evaluator of A
    it is an internal write of B, and to B it is a direct interaction,
    whose handler goes back to the state of A through its host hook. *)
Definition writeBack : Reentry.Network :=
  {| Reentry.interactionsOf := {[ contractA := [tx_write]; contractB := [tx_write] ]};
     Reentry.writer := λ contract _,
       if bool_decide (contract = contractA) then Some contractB else None;
     Reentry.hooks := λ contract _,
       if bool_decide (contract = contractB) then [contractA] else [] |}.

(** The same two contracts when the interaction is a direct one for both,
    the handler of each reading the state of the other. *)
Definition readBack : Reentry.Network :=
  {| Reentry.interactionsOf := {[ contractA := [tx_write]; contractB := [tx_write] ]};
     Reentry.writer := λ _ _, None;
     Reentry.hooks := λ contract _,
       if bool_decide (contract = contractA) then [contractB] else [contractA] |}.

(** The host of contract A again, with a given abort signal and given
    execution context modifiers. *)
Definition host (aborted : World → bool)
    (modifiers :
       list (Z → @DefaultStateEvaluator.ExecutionContext Z ExampleInput unit World
             → M World (@DefaultStateEvaluator.ExecutionContext Z ExampleInput unit World)))
  : @DefaultStateEvaluator.Collaborators Z ExampleInput unit World :=
  {| DefaultStateEvaluator.signal_aborted := aborted;
     DefaultStateEvaluator.vrfPlugin_verify := None;
     DefaultStateEvaluator.evmSignatureVerificationPlugin := None;
     DefaultStateEvaluator.progressPlugin := None;
     DefaultStateEvaluator.isEvmSigned := λ _, false;
     DefaultStateEvaluator.isInteractWrite := λ tx _,
       bool_decide (Tx.id tx = Tx.id tx_write);
     DefaultStateEvaluator.getContractTag := λ _, contractB;
     DefaultStateEvaluator.getInputTag := λ tx _, inputTags !! Tx.id tx;
     DefaultStateEvaluator.JSON_parse := parse;
     DefaultStateEvaluator.JSON_stringify := λ _ _, "{}";
     DefaultStateEvaluator.input_truthy := λ input,
       match input with Call _ => true | JsonNull => false end;
     DefaultStateEvaluator.writingContract_readState := λ _ _ w,
       (Returned (Some writerState), (w.1, <[contractA := stagedState]> w.2));
     DefaultStateEvaluator.interactionState_setInitial := λ _ _ _ w, w;
     DefaultStateEvaluator.interactionState_get := λ contract _ w, w.2 !! contract;
     DefaultStateEvaluator.interactionState_update := λ contract st _ w,
       (w.1, <[contract := st]> w.2);
     DefaultStateEvaluator.interactionState_commit := λ _ _, ret tt;
     DefaultStateEvaluator.interactionState_rollback := λ _ _, ret tt;
     DefaultStateEvaluator.addInteractionData := λ _ _ w, w;
     DefaultStateEvaluator.interactionCall_update := λ _ _ _ w, w;
     DefaultStateEvaluator.dispatchEvent := λ _ _ w, w;
     DefaultStateEvaluator.clearChildren := λ w, w;
     DefaultStateEvaluator.executionContextModifiers := modifiers |}.

(** The abort signal set as soon as the interaction state holds an entry
    for contract A, that is once a first interaction was evaluated. *)
Definition abortedAfterFirst (w : World) : bool := bool_decide (is_Some (w.2 !! contractA)).

(** The error with which the factory refuses an unsafe contract under
    the [unsafeClient] option ['skip'], and a modifier that evolves the
    contract to such a source. *)
Definition unsafeSkip : JsError.t :=
  HandlerExecutorFactory.ContractError
    ("[SkipUnsafeError] Skipping evaluation of the unsafe contract " +:+ contractA +:+ ".")
    (Some "unsafeClientSkip").

Definition evolveToUnsafe (st : Z)
    (ctx : @DefaultStateEvaluator.ExecutionContext Z ExampleInput unit World)
  : M World (@DefaultStateEvaluator.ExecutionContext Z ExampleInput unit World) :=
  throw unsafeSkip.

(** A gateway with two pages of one interaction each. *)
Definition gatewayPage (tx : Tx.t) (status : string)
  : WarpGatewayInteractionsLoader.GatewayResponse :=
  {| WarpGatewayInteractionsLoader.paging_pages := 2;
     WarpGatewayInteractionsLoader.interactions :=
       [ {| WarpGatewayInteractionsLoader.interaction := tx;
            WarpGatewayInteractionsLoader.status := Some status |} ] |}.

Definition gatewayTwoPages (q : WarpGatewayInteractionsLoader.Query)
  : WarpGatewayInteractionsLoader.FetchResult :=
  if bool_decide (WarpGatewayInteractionsLoader.q_page q = "1") then
    WarpGatewayInteractionsLoader.Resolved true 200 (Some (gatewayPage tx_add "confirmed"))
  else
    WarpGatewayInteractionsLoader.Resolved true 200
      (Some (gatewayPage tx_fail "not_processed")).

(** A key-value storage that cannot be closed. *)
Definition closeFails (store : nat) : option JsHandlerApi.JsThrown * nat :=
  (Some (JsHandlerApi.ThrownString "storage is locked"), store).

(** A key-value storage whose rollback fails. *)
Definition rollbackFails (store : nat) : option JsHandlerApi.JsThrown * nat :=
  (Some (JsHandlerApi.ThrownString "nothing to roll back"), store).

(** A JavaScript contract whose source uses the unsafe client, and
    options under which such a contract is skipped. *)
Definition unsafeContract : HandlerExecutorFactory.ContractDefinition :=
  {| HandlerExecutorFactory.txId := contractA;
     HandlerExecutorFactory.srcTxId := "src1_abcdefghijklmnopqrstuvwxyzABCDEFGHIJKL";
     HandlerExecutorFactory.contractType := "js";
     HandlerExecutorFactory.srcWasmLang := None;
     HandlerExecutorFactory.src :=
       Some "export function handle(state) { SmartWeave.unsafeClient.api.get(); }" |}.

Definition skipUnsafe : HandlerExecutorFactory.EvaluationOptions :=
  {| HandlerExecutorFactory.unsafeClient := "skip";
     HandlerExecutorFactory.allowBigInt := false;
     HandlerExecutorFactory.whitelistSources := [] |}.

End Example.
(** * Properties *)

Lemma rget_rset_eq {V} (m : gmap string (option V)) k v :
  rget (rset m k v) k = v.
Proof. unfold rget, rset. by rewrite lookup_insert_eq. Qed.

Lemma rget_rset_ne {V} (m : gmap string (option V)) k k' v :
  k ≠ k' → rget (rset m k v) k' = rget m k'.
Proof. intros. unfold rget, rset. by rewrite lookup_insert_ne. Qed.

(** ** Facts about the cache *)

Section cache_facts.
Context {V : Type} `{!JsonEncoding V}.
Implicit Types (sub : gmap string V) (db : gmap string (gmap string V)).
Import LevelDbCache.

Lemma get_put_eq db key sortKey (value : V) :
  get (put db key sortKey value) key sortKey
  = Some (SortKeyCacheResult.mk (Some sortKey) (json value)).
Proof.
  unfold get, put, sublevel. rewrite lookup_insert_eq. simpl.
  by rewrite lookup_insert_eq.
Qed.

Lemma sublevel_put db key sortKey (value : V) c :
  sublevel (put db key sortKey value) c
  = if decide (key = c) then <[sortKey := json value]> (sublevel db key)
    else sublevel db c.
Proof.
  unfold put, sublevel at 1. rewrite lookup_insert. by case_decide.
Qed.

Lemma elem_of_keys_ascending sub k : k ∈ keys_ascending sub ↔ is_Some (sub !! k).
Proof.
  unfold keys_ascending. rewrite merge_sort_Permutation, elem_of_elements.
  apply elem_of_dom.
Qed.

Lemma keys_ascending_NoDup sub : NoDup (keys_ascending sub).
Proof.
  unfold keys_ascending. rewrite merge_sort_Permutation. apply NoDup_elements.
Qed.

Lemma length_keys_ascending sub : length (keys_ascending sub) = size sub.
Proof.
  unfold keys_ascending. rewrite merge_sort_Permutation.
  rewrite <- size_dom. reflexivity.
Qed.

Lemma keys_descending_sorted sub :
  StronglySorted (flip String.le) (reverse (keys_ascending sub)).
Proof.
  apply Sorted_StronglySorted.
  - intros x y z Hxy Hyz. unfold flip in *. by etrans.
  - apply Sorted_reverse. unfold keys_ascending. apply (Sorted_merge_sort _).
Qed.

Lemma keys_descending_NoDup sub : NoDup (reverse (keys_ascending sub)).
Proof. rewrite reverse_Permutation. apply keys_ascending_NoDup. Qed.

Lemma length_keys_reverse n sub :
  length (keys_reverse n sub) = Nat.min n (size sub).
Proof.
  unfold keys_reverse. by rewrite length_take, length_reverse, length_keys_ascending.
Qed.

Lemma elem_of_keys_reverse n sub k :
  k ∈ keys_reverse n sub → is_Some (sub !! k).
Proof.
  unfold keys_reverse. intros (i & Hi & _)%elem_of_take.
  apply elem_of_keys_ascending, elem_of_reverse.
  apply list_elem_of_lookup. eauto.
Qed.

(** In a list sorted greatest first without duplicates, the elements not
    below the last of the first [n] are exactly those first [n]. *)
Lemma descending_threshold (l : list string) n k :
  StronglySorted (flip String.le) l → NoDup l →
  last (take n l) = Some k →
  ∀ x, x ∈ l → (String.le k x ↔ x ∈ take n l).
Proof.
  intros Hs Hnd Hlast x Hx.
  rewrite <- (take_drop n l) in Hs, Hnd, Hx.
  apply last_Some in Hlast as [l' Hl']. rewrite Hl' in *.
  apply StronglySorted_app in Hs as (Hcross & Hs1 & _).
  apply NoDup_app in Hnd as (_ & Hdisj & _).
  split.
  - intros Hkx. apply elem_of_app in Hx as [?|Hx]; [done|].
    exfalso. apply (Hdisj k); [set_solver|].
    assert (x = k) as <-; [|done].
    apply (anti_symm String.le); [|done].
    apply (Hcross k x); [set_solver|done].
  - intros [Hx'| ->%list_elem_of_singleton]%elem_of_app; [|done].
    apply (StronglySorted_app_1_elem_of _ l' [k] x k Hs1); [done|].
    by apply list_elem_of_singleton.
Qed.

Lemma prune_contract_few n sub :
  (size sub < n)%nat → prune_contract n sub = sub.
Proof.
  intros Hlt. unfold prune_contract.
  rewrite bool_decide_eq_true_2; [done|]. rewrite length_keys_reverse. lia.
Qed.

Lemma prune_contract_lookup n sub k :
  (0 < n ≤ size sub)%nat →
  prune_contract n sub !! k
  = if decide (k ∈ keys_reverse n sub) then sub !! k else None.
Proof.
  intros [Hpos Hle]. unfold prune_contract.
  rewrite bool_decide_eq_false_2 by (rewrite length_keys_reverse; lia).
  destruct (last (keys_reverse n sub)) as [k0|] eqn:Hlast.
  2:{ apply last_None in Hlast. apply (f_equal length) in Hlast.
      rewrite length_keys_reverse in Hlast. simpl in Hlast. lia. }
  simpl. unfold keys_reverse in *.
  pose proof (descending_threshold _ n k0 (keys_descending_sorted sub)) as Hthr.
  specialize (Hthr (keys_descending_NoDup sub) Hlast k).
  destruct (sub !! k) as [v|] eqn:Hk.
  - assert (k ∈ reverse (keys_ascending sub)) as Hin
      by (apply elem_of_reverse, elem_of_keys_ascending; eauto).
    specialize (Hthr Hin). case_decide as Hd.
    + apply map_lookup_filter_Some. split; [done|]. simpl.
      unfold key_lt. intros Hn. apply Hn. by apply Hthr.
    + apply map_lookup_filter_None. right. intros v' Hv' Hn. simpl in Hn.
      apply Hd, Hthr. unfold key_lt in Hn.
      destruct (decide (String.le k0 k)); [done|]. by destruct Hn.
  - rewrite (proj2 (map_lookup_filter_None _ _ _)) by (left; done).
    by case_decide.
Qed.

Lemma prune_contract_dom n sub :
  (0 < n ≤ size sub)%nat →
  dom (prune_contract n sub) = list_to_set (keys_reverse n sub).
Proof.
  intros Hn. apply set_eq. intros k.
  rewrite elem_of_dom, elem_of_list_to_set, prune_contract_lookup by done.
  case_decide as Hd.
  - split; [done|]. intros _. by apply elem_of_keys_reverse in Hd.
  - split; [|done]. by intros []%is_Some_None.
Qed.

Lemma keys_reverse_NoDup n sub : NoDup (keys_reverse n sub).
Proof.
  unfold keys_reverse.
  eapply sublist_NoDup; [apply keys_descending_NoDup|apply sublist_take].
Qed.

Lemma prune_contract_size n sub :
  (0 < n ≤ size sub)%nat → size (prune_contract n sub) = n.
Proof.
  intros Hn. rewrite <- size_dom, prune_contract_dom by done.
  rewrite size_list_to_set by apply keys_reverse_NoDup.
  rewrite length_keys_reverse. lia.
Qed.

(** Every retained key is greater than every removed key. *)
Lemma keys_reverse_greatest n sub k k' :
  k ∈ keys_reverse n sub → is_Some (sub !! k') → k' ∉ keys_reverse n sub →
  key_lt k' k.
Proof.
  unfold keys_reverse. intros Hk Hk' Hnk'.
  assert (k' ∈ reverse (keys_ascending sub)) as Hin
    by by apply elem_of_reverse, elem_of_keys_ascending.
  pose proof (keys_descending_sorted sub) as Hs.
  pose proof (keys_descending_NoDup sub) as Hnd.
  rewrite <- (take_drop n (reverse (keys_ascending sub))) in Hs, Hnd, Hin.
  apply elem_of_app in Hin as [?|Hin]; [done|].
  apply StronglySorted_app in Hs as (Hcross & _ & _).
  apply NoDup_app in Hnd as (_ & Hdisj & _).
  unfold key_lt. intros Hle.
  apply (Hdisj k); [done|].
  assert (k = k') as ->; [|done].
  apply (anti_symm String.le); [done|]. by apply (Hcross k k').
Qed.

Lemma entriesStored_effective_pos arg : 1 ≤ entriesStored_effective arg.
Proof.
  destruct arg as [| |n]; unfold entriesStored_effective;
    repeat case_bool_decide; simpl; lia.
Qed.

Lemma elem_of_keys db c : c ∈ keys db ↔ sublevel db c ≠ ∅.
Proof.
  unfold keys, sublevel. rewrite elem_of_elements, elem_of_dom.
  split.
  - intros [sub' [Hsub Hne]%map_lookup_filter_Some]. rewrite Hsub. exact Hne.
  - intros Hne. destruct (db !! c) as [sub'|] eqn:Hc; [|done].
    exists sub'. by apply map_lookup_filter_Some.
Qed.

Lemma prune_step_sublevel n db c c' :
  sublevel (prune_step n db c) c'
  = if decide (c = c') then prune_contract n (sublevel db c) else sublevel db c'.
Proof.
  unfold prune_step, prune_contract. case_bool_decide.
  - by case_decide; subst.
  - unfold sublevel at 1. rewrite lookup_insert. by case_decide.
Qed.

Lemma foldl_prune_step_sublevel n l db c :
  NoDup l →
  sublevel (foldl (prune_step n) db l) c
  = if decide (c ∈ l) then prune_contract n (sublevel db c) else sublevel db c.
Proof.
  revert db. induction l as [|a l IH]; intros db Hnd.
  - destruct (decide (c ∈ [])) as [Hin|Hin]; [|done]. by apply elem_of_nil in Hin.
  - apply NoDup_cons in Hnd as [Ha Hnd]. cbn [foldl].
    rewrite IH, !prune_step_sublevel by done.
    destruct (decide (c ∈ l)) as [Hin|Hin], (decide (a = c)) as [Heq|Hne],
      (decide (c ∈ a :: l)) as [Hin'|Hin']; subst; try done.
    all: try (exfalso; apply Hin'; by (left || right)).
    apply elem_of_cons in Hin' as [->|?]; done.
Qed.

Lemma prune_sublevel arg db c :
  sublevel (prune arg db) c
  = prune_contract (Z.to_nat (entriesStored_effective arg)) (sublevel db c).
Proof.
  unfold prune. rewrite foldl_prune_step_sublevel by apply NoDup_elements.
  case_decide as Hin; [done|].
  assert (sublevel db c = ∅) as ->.
  { destruct (decide (sublevel db c = ∅)); [done|].
    by apply elem_of_keys in n. }
  rewrite prune_contract_few; [done|].
  rewrite map_size_empty. pose proof (entriesStored_effective_pos arg). lia.
Qed.

End cache_facts.

(** C10 (as amended by what the code does): for every call
    [prune(entriesStored)], an omitted or [undefined] argument takes the
    default 5; [null] and every number not greater than 0 are treated as 1;
    any other number is used as it is. For each contract whose number of
    stored entries is less than this count nothing is deleted; otherwise
    exactly the [entriesStored] entries with the greatest sort keys are
    retained, with their values, and all entries with smaller sort keys
    are removed. *)
Theorem prune_retains_most_recent {V} (arg : LevelDbCache.JsNumber)
    (db : gmap string (gmap string V)) (c : string) :
  LevelDbCache.entriesStored_effective arg
  = match arg with
    | LevelDbCache.Undefined => 5
    | LevelDbCache.Null => 1
    | LevelDbCache.Num n => if decide (n ≤ 0) then 1 else n
    end
  ∧ ((size (LevelDbCache.sublevel db c)
        < Z.to_nat (LevelDbCache.entriesStored_effective arg))%nat →
      LevelDbCache.sublevel (LevelDbCache.prune arg db) c = LevelDbCache.sublevel db c)
  ∧ ((Z.to_nat (LevelDbCache.entriesStored_effective arg)
        ≤ size (LevelDbCache.sublevel db c))%nat →
      let retained :=
        LevelDbCache.keys_reverse
          (Z.to_nat (LevelDbCache.entriesStored_effective arg))
          (LevelDbCache.sublevel db c) in
      (∀ k, LevelDbCache.sublevel (LevelDbCache.prune arg db) c !! k
            = if decide (k ∈ retained) then LevelDbCache.sublevel db c !! k else None)
      ∧ size (LevelDbCache.sublevel (LevelDbCache.prune arg db) c)
        = Z.to_nat (LevelDbCache.entriesStored_effective arg)
      ∧ (∀ k k', k ∈ retained → is_Some (LevelDbCache.sublevel db c !! k') →
           k' ∉ retained → LevelDbCache.key_lt k' k)).
Proof.
  pose proof (entriesStored_effective_pos arg) as Hpos.
  split; [|split].
  - destruct arg as [| |n]; unfold LevelDbCache.entriesStored_effective;
      repeat case_bool_decide; try case_decide; simpl; lia.
  - intros Hlt. rewrite prune_sublevel. by apply prune_contract_few.
  - intros Hle. simpl. rewrite prune_sublevel. split; [|split].
    + intros k. apply prune_contract_lookup. lia.
    + apply prune_contract_size. lia.
    + intros k k'. apply keys_reverse_greatest.
Qed.

(** ** The cacheability gate of [putInCache] *)

(** Unfolds the operations of the evaluator's monad. *)
Ltac unfold_M :=
  unfold mbind, mret, M_bind, M_ret, bind, ret, throw, effect, gets, try_catch in *.

Section cacheable_facts.
Context {State Input Result Ext : Type} `{!JsonEncoding (EvalStateResult.t State)}.
Implicit Types (w : gmap string (gmap string (EvalStateResult.t State)) * Ext).
Import CacheableStateEvaluator.

Lemma cacheable_dec (i : Tx.t) : Decision (cacheable i).
Proof. unfold cacheable. apply _. Qed.

Lemma putInCache_cacheable contractTxId (i : Tx.t) (st : EvalStateResult.t State) w :
  cacheable i →
  putInCache contractTxId i st w
  = (Returned tt, (LevelDbCache.put w.1 contractTxId (Tx.sortKey i) st, w.2)).
Proof.
  intros [Hdry Hstatus]. unfold putInCache, cache_put. rewrite Hdry.
  destruct st as [s v e]. simpl.
  destruct Hstatus as [-> | ->]; [done|].
  by rewrite bool_decide_eq_false_2 by (intros H; by apply H).
Qed.

Lemma putInCache_not_cacheable contractTxId (i : Tx.t) (st : EvalStateResult.t State) w :
  ¬ cacheable i → putInCache contractTxId i st w = (Returned tt, w).
Proof.
  intros Hn. unfold putInCache, cacheable in *.
  destruct (truthy (Tx.dry i)) eqn:Hdry; [done|].
  destruct (Tx.confirmationStatus i) as [status|] eqn:Hstatus.
  - case_bool_decide as Hc; [done|].
    exfalso. apply Hn. split; [done|]. right. f_equal.
    destruct (decide (status = "confirmed")); [done|]. by destruct Hc.
  - exfalso. apply Hn. auto.
Qed.

Lemma putAllInCache_keys (writes : list (string * Tx.t * EvalStateResult.t State)) w c k :
  is_Some (LevelDbCache.sublevel (putAllInCache writes w).2.1 c !! k) →
  is_Some (LevelDbCache.sublevel w.1 c !! k)
  ∨ ∃ i st, (c, i, st) ∈ writes ∧ Tx.sortKey i = k ∧ cacheable i.
Proof.
  revert w. induction writes as [|[[c' i] st] writes IH]; intros w; simpl.
  - auto.
  - unfold_M. destruct (cacheable_dec i) as [Hc|Hc].
    + rewrite putInCache_cacheable by done. intros Hk.
      apply IH in Hk as [Hk|(i' & st' & Hin & Hk & Hc')].
      * simpl in Hk. rewrite sublevel_put in Hk. case_decide as Hcc; [|by left].
        subst c'. destruct (decide (Tx.sortKey i = k)) as [<-|Hne].
        -- right. exists i, st. split; [by left|done].
        -- rewrite lookup_insert_ne in Hk by done. by left.
      * right. exists i', st'. split; [by right|done].
    + rewrite putInCache_not_cacheable by done. intros Hk.
      apply IH in Hk as [Hk|(i' & st' & Hin & Hk & Hc')]; [by left|].
      right. exists i', st'. split; [by right|done].
Qed.

End cacheable_facts.

(** C1: a cache write for interaction [i] of contract [C] through
    [putInCache(C, i, state)] stores the entry at [(C, i.sortKey)] exactly
    when [i.dry] is falsy and [i.confirmationStatus] is undefined or
    ['confirmed']; for any other interaction the cache is left unchanged.
    Hence after any sequence of such writes every key of the cache was
    either there before or is the sort key of a cacheable interaction
    written for that contract: no dry or unconfirmed interaction becomes a
    persisted cache key. *)
Theorem putInCache_cacheability_gate {State Ext : Type}
    `{!JsonEncoding (EvalStateResult.t State)}
    (C : string) (i : Tx.t) (st : EvalStateResult.t State)
    (w : gmap string (gmap string (EvalStateResult.t State)) * Ext) :
  (CacheableStateEvaluator.cacheable i →
     CacheableStateEvaluator.putInCache C i st w
     = (Returned tt, (LevelDbCache.put w.1 C (Tx.sortKey i) st, w.2))
     ∧ LevelDbCache.get (CacheableStateEvaluator.putInCache C i st w).2.1 C (Tx.sortKey i)
       = Some (SortKeyCacheResult.mk (Some (Tx.sortKey i)) (json st)))
  ∧ (¬ CacheableStateEvaluator.cacheable i →
     CacheableStateEvaluator.putInCache C i st w = (Returned tt, w))
  ∧ (∀ writes c k,
       is_Some (LevelDbCache.sublevel
                  (CacheableStateEvaluator.putAllInCache writes w).2.1 c !! k) →
       is_Some (LevelDbCache.sublevel w.1 c !! k)
       ∨ ∃ i' st', (c, i', st') ∈ writes ∧ Tx.sortKey i' = k
                   ∧ CacheableStateEvaluator.cacheable i').
Proof.
  split; [|split].
  - intros Hc. rewrite putInCache_cacheable by done. split; [done|].
    simpl. apply get_put_eq.
  - apply putInCache_not_cacheable.
  - intros writes c k. apply putAllInCache_keys.
Qed.

(** ** The guard against write-back loops *)

Section guard_facts.
Import CacheableStateEvaluator.
Implicit Types (missing : list Tx.t) (entry : CurrentTx.t).

Lemma findIndex_Some id missing index :
  findIndex id missing = Some index ↔
  ∃ tx, missing !! index = Some tx ∧ Tx.id tx = id
        ∧ ∀ j tx', missing !! j = Some tx' → (j < index)%nat → Tx.id tx' ≠ id.
Proof.
  unfold findIndex. split.
  - destruct (list_find _ missing) as [[j tx]|] eqn:Hfind; [|done].
    simpl. intros [= ->]. apply list_find_Some in Hfind. exists tx. naive_solver.
  - intros (tx & Hl & Hid & Hmin).
    assert (list_find (λ tx, Tx.id tx = id) missing = Some (index, tx)) as ->; [|done].
    apply list_find_Some. naive_solver.
Qed.

Lemma findIndex_None id missing :
  findIndex id missing = None ↔ ∀ tx, tx ∈ missing → Tx.id tx ≠ id.
Proof.
  unfold findIndex. rewrite fmap_None, list_find_None, Forall_forall. done.
Qed.

(** One pass of the loop on a prefix of the list leaves a shorter prefix,
    which ends before the first interaction with the entry's id. *)
Lemma inf_loop_fix_take contractTxId missing n entry :
  ∃ m, (m ≤ n)%nat
    ∧ inf_loop_fix contractTxId (take n missing) entry = take m missing
    ∧ (CurrentTx.contractTxId entry = contractTxId →
       ∀ index, findIndex (CurrentTx.interactionTxId entry) missing = Some index →
                (m ≤ index)%nat).
Proof.
  unfold inf_loop_fix. case_bool_decide as Hc.
  2:{ exists n. split; [lia|]. split; [done|]. intros; done. }
  destruct (findIndex _ (take n missing)) as [j|] eqn:Hfind.
  - apply findIndex_Some in Hfind as (tx & Hj & Hid & Hmin).
    apply lookup_take_Some in Hj as [Hj Hjn].
    exists j. split; [lia|]. split.
    { rewrite take_take. f_equal. lia. }
    intros _ index (tx' & Hi & Hid' & Hmin')%findIndex_Some.
    destruct (decide (j ≤ index)%nat); [done|].
    exfalso. apply (Hmin index tx'); [|lia|done].
    apply lookup_take_Some. split; [done|lia].
  - exists n. split; [lia|]. split; [done|].
    intros _ index (tx' & Hi & Hid' & Hmin')%findIndex_Some.
    destruct (decide (n ≤ index)%nat); [done|].
    exfalso. rewrite findIndex_None in Hfind. apply (Hfind tx'); [|done].
    apply list_elem_of_lookup. exists index.
    apply lookup_take_Some. split; [done|lia].
Qed.

Lemma foldl_inf_loop_fix_take contractTxId missing entries n :
  ∃ m, (m ≤ n)%nat
    ∧ foldl (inf_loop_fix contractTxId) (take n missing) entries = take m missing
    ∧ ∀ entry, entry ∈ entries → CurrentTx.contractTxId entry = contractTxId →
        ∀ index, findIndex (CurrentTx.interactionTxId entry) missing = Some index →
                 (m ≤ index)%nat.
Proof.
  revert n. induction entries as [|entry entries IH]; intros n; simpl.
  - exists n. split; [lia|]. split; [done|]. by intros entry ?%elem_of_nil.
  - destruct (inf_loop_fix_take contractTxId missing n entry) as (m & Hmn & -> & Hm).
    destruct (IH m) as (m' & Hm' & -> & Hrest).
    exists m'. split; [lia|]. split; [done|].
    intros e [->|Hin]%elem_of_cons Hc index Hfind.
    + specialize (Hm Hc index Hfind). lia.
    + by eapply Hrest.
Qed.

Lemma inf_loop_guard_take contractTxId currentTx missing :
  ∃ m, inf_loop_guard contractTxId currentTx missing = take m missing
    ∧ ∀ entry, entry ∈ default [] currentTx →
        CurrentTx.contractTxId entry = contractTxId →
        ∀ index, findIndex (CurrentTx.interactionTxId entry) missing = Some index →
                 (m ≤ index)%nat.
Proof.
  unfold inf_loop_guard.
  destruct (foldl_inf_loop_fix_take contractTxId missing (default [] currentTx)
              (length missing)) as (m & _ & Hm & Hrest).
  rewrite firstn_all in Hm. eauto.
Qed.

(** No interaction that the call chain is already processing for this
    contract is left in the list. *)
Lemma inf_loop_guard_fresh contractTxId currentTx missing entry tx :
  entry ∈ default [] currentTx →
  CurrentTx.contractTxId entry = contractTxId →
  tx ∈ inf_loop_guard contractTxId currentTx missing →
  Tx.id tx ≠ CurrentTx.interactionTxId entry.
Proof.
  intros Hentry Hc Hin Hid.
  destruct (inf_loop_guard_take contractTxId currentTx missing) as (m & Hm & Hle).
  rewrite Hm in Hin. apply elem_of_take in Hin as (j & Hj & Hjm).
  destruct (findIndex (CurrentTx.interactionTxId entry) missing) as [index|] eqn:Hfind.
  - pose proof (Hle entry Hentry Hc index Hfind).
    apply findIndex_Some in Hfind as (tx' & _ & _ & Hmin).
    apply (Hmin j tx); [done|lia|done].
  - rewrite findIndex_None in Hfind. apply (Hfind tx); [|done].
    apply list_elem_of_lookup. eauto.
Qed.

(** One pass of the loop cuts exactly at the first interaction with the
    entry's id, or not at all. *)
Lemma inf_loop_fix_cut contractTxId missing n entry :
  ∃ m, inf_loop_fix contractTxId (take n missing) entry = take m missing
    ∧ (m = n
       ∨ (m < n)%nat ∧ CurrentTx.contractTxId entry = contractTxId
         ∧ findIndex (CurrentTx.interactionTxId entry) missing = Some m).
Proof.
  unfold inf_loop_fix. case_bool_decide as Hc; [|by exists n; split; [|left]].
  destruct (findIndex _ (take n missing)) as [j|] eqn:Hfind;
    [|by exists n; split; [|left]].
  apply findIndex_Some in Hfind as (tx & Hj & Hid & Hmin).
  apply lookup_take_Some in Hj as [Hj Hjn].
  exists j. split; [rewrite take_take; f_equal; lia|].
  right. split; [done|]. split; [done|].
  apply findIndex_Some. exists tx. split; [done|]. split; [done|].
  intros j' tx' Hj' Hlt. apply (Hmin j' tx'); [|done].
  apply lookup_take_Some. split; [done|lia].
Qed.

Lemma foldl_inf_loop_fix_cut contractTxId missing entries n :
  ∃ m, foldl (inf_loop_fix contractTxId) (take n missing) entries = take m missing
    ∧ (m = n
       ∨ (m < n)%nat
         ∧ ∃ entry, entry ∈ entries ∧ CurrentTx.contractTxId entry = contractTxId
             ∧ findIndex (CurrentTx.interactionTxId entry) missing = Some m).
Proof.
  revert n. induction entries as [|entry entries IH]; intros n; simpl.
  - exists n. split; [done|by left].
  - destruct (inf_loop_fix_cut contractTxId missing n entry) as (m & -> & Hm).
    destruct (IH m) as (m' & -> & Hm').
    exists m'. split; [done|].
    destruct Hm' as [-> | (Hlt & e & He & Hc & Hfind)].
    + destruct Hm as [-> | (Hlt & Hc & Hfind)]; [by left|].
      right. split; [done|]. exists entry. split; [by left|done].
    + right. split; [destruct Hm as [-> | (? & _)]; lia|].
      exists e. split; [by right|done].
Qed.

(** The guard cuts the list exactly at the earliest first occurrence of an
    interaction that the call chain names for this contract, and leaves
    the list whole when there is none. *)
Lemma inf_loop_guard_cut contractTxId currentTx missing :
  ∃ m, inf_loop_guard contractTxId currentTx missing = take m missing
    ∧ (∀ entry, entry ∈ default [] currentTx →
         CurrentTx.contractTxId entry = contractTxId →
         ∀ index, findIndex (CurrentTx.interactionTxId entry) missing = Some index →
                  (m ≤ index)%nat)
    ∧ (m = length missing
       ∨ ∃ entry, entry ∈ default [] currentTx
           ∧ CurrentTx.contractTxId entry = contractTxId
           ∧ findIndex (CurrentTx.interactionTxId entry) missing = Some m).
Proof.
  destruct (inf_loop_guard_take contractTxId currentTx missing) as (m & Hm & Hle).
  unfold inf_loop_guard in *.
  destruct (foldl_inf_loop_fix_cut contractTxId missing (default [] currentTx)
              (length missing)) as (m' & Hm' & Hcut).
  rewrite firstn_all in Hm'.
  destruct Hcut as [-> | (Hlt & entry & Hentry & Hc & Hfind)].
  - exists (length missing). split; [done|].
    split; [|by left].
    intros entry Hentry Hc index Hindex.
    pose proof (Hle entry Hentry Hc index Hindex) as Hmi.
    assert (take m missing = take (length missing) missing) as Heq by congruence.
    apply (f_equal length) in Heq. rewrite !length_take in Heq. lia.
  - exists m'. split; [done|]. split; [|right; by exists entry].
    intros e He Hce index Hindex.
    pose proof (Hle e He Hce index Hindex) as Hmi.
    assert (take m missing = take m' missing) as Heq by congruence.
    apply (f_equal length) in Heq. rewrite !length_take in Heq. lia.
Qed.

End guard_facts.

(** ** [CacheableStateEvaluator.eval] *)

Section eval_facts.
Context {State Input Result Ext : Type} `{!JsonEncoding (EvalStateResult.t State)}.
Import DefaultStateEvaluator CacheableStateEvaluator.
Implicit Types
  (w : gmap string (gmap string (EvalStateResult.t State)) * Ext)
  (ctx : @ExecutionContext State Input Result
           (gmap string (gmap string (EvalStateResult.t State)) * Ext)).
Variable warp : @Collaborators State Input Result
                  (gmap string (gmap string (EvalStateResult.t State)) * Ext).

Lemma eval_exact_hit ctx currentTx cached w :
  cachedState ctx = Some cached →
  SortKeyCacheResult.sortKey cached = requestedSortKey ctx →
  eval warp ctx currentTx w
  = (Returned cached,
     initState (handler ctx)
       (EvalStateResult.state (SortKeyCacheResult.cachedValue cached)) w).
Proof.
  intros Hc Hk. unfold eval. rewrite Hc.
  rewrite bool_decide_eq_true_2 by done. reflexivity.
Qed.

Lemma eval_cached_no_missing ctx currentTx cached w :
  cachedState ctx = Some cached →
  ContractDefinition.txId (contractDefinition ctx) ≠ "" →
  inf_loop_guard (ContractDefinition.txId (contractDefinition ctx)) currentTx
    (sortedInteractions ctx) = [] →
  eval warp ctx currentTx w
  = (Returned cached,
     initState (handler ctx)
       (EvalStateResult.state (SortKeyCacheResult.cachedValue cached)) w).
Proof.
  intros Hc Hid Hg. unfold eval. rewrite Hc.
  case_bool_decide; [reflexivity|].
  rewrite bool_decide_eq_false_2 by done. rewrite Hg. reflexivity.
Qed.

Lemma eval_initial_no_missing ctx currentTx w :
  cachedState ctx = None →
  ContractDefinition.txId (contractDefinition ctx) ≠ "" →
  inf_loop_guard (ContractDefinition.txId (contractDefinition ctx)) currentTx
    (sortedInteractions ctx) = [] →
  let initState0 := ContractDefinition.initState (contractDefinition ctx) in
  let stateToCache := EvalStateResult.mk initState0 ∅ ∅ in
  let seeded := initState (handler ctx) initState0 w in
  eval warp ctx currentTx w
  = (Returned (SortKeyCacheResult.mk (Some genesisSortKey) stateToCache),
     (LevelDbCache.put seeded.1 (ContractDefinition.txId (contractDefinition ctx))
        genesisSortKey stateToCache, seeded.2)).
Proof.
  intros Hc Hid Hg. unfold eval. rewrite Hc.
  rewrite bool_decide_eq_false_2 by done. rewrite Hg. reflexivity.
Qed.

Lemma eval_folds_guarded ctx currentTx w :
  (∀ cached, cachedState ctx = Some cached →
             SortKeyCacheResult.sortKey cached ≠ requestedSortKey ctx) →
  ContractDefinition.txId (contractDefinition ctx) ≠ "" →
  inf_loop_guard (ContractDefinition.txId (contractDefinition ctx)) currentTx
    (sortedInteractions ctx) ≠ [] →
  eval warp ctx currentTx w
  = doReadState warp onStateEvaluated
      (inf_loop_guard (ContractDefinition.txId (contractDefinition ctx)) currentTx
         (sortedInteractions ctx))
      (base_of ctx) (guarded ctx currentTx) w.
Proof.
  intros Hmiss Hid Hg. unfold eval, base_of, guarded.
  destruct (cachedState ctx) as [cached|] eqn:Hc.
  - rewrite (bool_decide_eq_false_2 _ (Hmiss cached eq_refl)).
    rewrite bool_decide_eq_false_2 by done.
    rewrite bool_decide_eq_false_2; [done|].
    by intros ?%nil_length_inv.
  - rewrite bool_decide_eq_false_2 by done.
    rewrite bool_decide_eq_false_2; [done|].
    by intros ?%nil_length_inv.
Qed.

End eval_facts.

(** C7: when [CacheableStateEvaluator.eval] finds no missing interactions,
    a cached state is returned as it is (same sort key and cached value;
    the handler is seeded with its state and nothing is folded); without a
    cached state the contract's [initState] with empty [validity] and
    [errorMessages] is written to the cache at the genesis sort key and
    returned as the result. *)
Theorem eval_no_missing_interactions {State Input Result Ext : Type}
    `{!JsonEncoding (EvalStateResult.t State)}
    (warp : @DefaultStateEvaluator.Collaborators State Input Result
              (gmap string (gmap string (EvalStateResult.t State)) * Ext))
    (ctx : @DefaultStateEvaluator.ExecutionContext State Input Result
             (gmap string (gmap string (EvalStateResult.t State)) * Ext))
    (currentTx : option (list CurrentTx.t))
    (w : gmap string (gmap string (EvalStateResult.t State)) * Ext) :
  ContractDefinition.txId (DefaultStateEvaluator.contractDefinition ctx) ≠ "" →
  CacheableStateEvaluator.inf_loop_guard
    (ContractDefinition.txId (DefaultStateEvaluator.contractDefinition ctx)) currentTx
    (DefaultStateEvaluator.sortedInteractions ctx) = [] →
  (∀ cached, DefaultStateEvaluator.cachedState ctx = Some cached →
     CacheableStateEvaluator.eval warp ctx currentTx w
     = (Returned cached,
        DefaultStateEvaluator.initState (DefaultStateEvaluator.handler ctx)
          (EvalStateResult.state (SortKeyCacheResult.cachedValue cached)) w))
  ∧ (DefaultStateEvaluator.cachedState ctx = None →
     let initState0 :=
       ContractDefinition.initState (DefaultStateEvaluator.contractDefinition ctx) in
     let stateToCache := EvalStateResult.mk initState0 ∅ ∅ in
     let seeded :=
       DefaultStateEvaluator.initState (DefaultStateEvaluator.handler ctx) initState0 w in
     CacheableStateEvaluator.eval warp ctx currentTx w
     = (Returned (SortKeyCacheResult.mk (Some genesisSortKey) stateToCache),
        (LevelDbCache.put seeded.1
           (ContractDefinition.txId (DefaultStateEvaluator.contractDefinition ctx))
           genesisSortKey stateToCache, seeded.2))
     ∧ LevelDbCache.get (CacheableStateEvaluator.eval warp ctx currentTx w).2.1
         (ContractDefinition.txId (DefaultStateEvaluator.contractDefinition ctx))
         genesisSortKey
       = Some (SortKeyCacheResult.mk (Some genesisSortKey) (json stateToCache))).
Proof.
  intros Hid Hg. split.
  - intros cached Hc. by apply eval_cached_no_missing.
  - intros Hc. simpl. rewrite eval_initial_no_missing by done. simpl.
    split; [done|]. apply get_put_eq.
Qed.

(** ** Re-entrant evaluation under the guard *)

Section reentry_facts.
Import CacheableStateEvaluator Reentry.
Variable net : Network.

Lemma elem_of_pairs contract txs tx :
  interactionsOf net !! contract = Some txs → tx ∈ txs →
  CurrentTx.mk contract (Tx.id tx) ∈ pairs net.
Proof.
  intros Hc Htx. unfold pairs. apply list_elem_of_bind.
  exists (contract, txs). split.
  - apply list_elem_of_fmap. eauto.
  - by apply elem_of_map_to_list.
Qed.

Lemma inf_loop_guard_subseteq contractTxId currentTx missing tx :
  tx ∈ inf_loop_guard contractTxId currentTx missing → tx ∈ missing.
Proof.
  destruct (inf_loop_guard_take contractTxId currentTx missing) as (m & -> & _).
  intros (j & Hj & _)%elem_of_take. apply list_elem_of_lookup. eauto.
Qed.

(** When every re-entry is made by a handler's hook, which passes the
    chain on, the chain never holds a pair twice: its length is bounded
    by the number of pairs, and the fuel need not exceed it. *)
Lemma readState_enough_fuel fuel contract requestedSortKey currentTx :
  (∀ c tx, writer net c tx = None) →
  NoDup (default [] currentTx) →
  (∀ entry, entry ∈ default [] currentTx → entry ∈ pairs net) →
  (length (pairs net) < fuel + length (default [] currentTx))%nat →
  is_Some (readState inf_loop_guard net fuel contract requestedSortKey currentTx).
Proof.
  intros Hhooks. revert contract requestedSortKey currentTx.
  induction fuel as [|fuel IH]; intros contract requestedSortKey currentTx Hnd Hsub Hfuel.
  - pose proof (submseteq_length _ _ (NoDup_submseteq _ _ Hnd Hsub)). simpl in Hfuel. lia.
  - cbn [readState].
    set (sorted := filter _ _).
    set (missing := inf_loop_guard contract currentTx sorted).
    match goal with
    | |- is_Some (mbind _ (mapM ?f missing)) =>
        assert (is_Some (mapM f missing)) as [counts ->]; [|by eexists]
    end.
    apply mapM_is_Some_2, Forall_forall. intros tx Htx. simpl.
    rewrite Hhooks.
    match goal with
    | |- is_Some (mbind _ (mapM ?f ?l)) =>
        assert (is_Some (mapM f l)) as [nested ->]; [|by eexists]
    end.
    apply mapM_is_Some_2, Forall_forall. intros other _. simpl.
    assert (tx ∈ sorted) as Hsorted by by eapply inf_loop_guard_subseteq.
    apply list_elem_of_filter in Hsorted as [_ Hin].
    destruct (interactionsOf net !! contract) as [txs|] eqn:Hc;
      [|by apply elem_of_nil in Hin].
    simpl in Hin. unfold Handler.chain. apply IH; simpl.
    + apply NoDup_app. split; [done|]. split; [|apply NoDup_singleton].
      intros entry Hentry ->%list_elem_of_singleton.
      by apply (inf_loop_guard_fresh contract currentTx sorted _ tx Hentry).
    + intros entry [?| ->%list_elem_of_singleton]%elem_of_app; [by apply Hsub|].
      by eapply elem_of_pairs.
    + rewrite length_app. simpl. lia.
Qed.

End reentry_facts.

(** ** The branches of the loop of [doReadState] *)

Section branch_facts.
Context {State Input Result World : Type}.
Import DefaultStateEvaluator.
Variable warp : @Collaborators State Input Result World.
Implicit Types (l : @Loop State Input Result World) (w : World) (mi : Tx.t).

(** The value of [writingContractState] and [newState] after the [try]
    of the internal write returned normally. *)
Lemma internalWrite_returned contract_txId0 saveState mi l w W w2 :
  writingContract_readState warp (getContractTag warp mi) mi
    (addInteractionData warp None mi w) = (Returned W, w2) →
  ∃ l' w',
    internalWrite warp contract_txId0 saveState mi l w = (Returned (Next l'), w')
    ∧ match interactionState_get warp contract_txId0 (Tx.sortKey mi) w2, W with
      | Some N, Some Wv =>
          if truthy (rget (EvalStateResult.validity (SortKeyCacheResult.cachedValue Wv))
                       (Tx.id mi))
          then currentState l' = EvalStateResult.state N
               ∧ validity l'
                 = rset (validity l) (Tx.id mi) (rget (EvalStateResult.validity N) (Tx.id mi))
          else currentState l' = currentState l
               ∧ validity l' = rset (validity l) (Tx.id mi) (Some false)
               ∧ errorMessages l'
                 = rset (errorMessages l) (Tx.id mi)
                     (rget (EvalStateResult.errorMessages
                              (SortKeyCacheResult.cachedValue Wv)) (Tx.id mi))
      | _, _ =>
          currentState l' = currentState l
          ∧ validity l' = rset (validity l) (Tx.id mi) (Some false)
          ∧ errorMessages l' = errorMessages l
      end.
Proof.
  intros Hread. unfold internalWrite. unfold_M. rewrite Hread. simpl.
  destruct (interactionState_get warp contract_txId0 (Tx.sortKey mi) w2) as [N|];
    destruct W as [Wv|]; simpl.
  2-4: by eexists _, _.
  destruct (truthy _); simpl; by eexists _, _.
Qed.

(** A skipped error of the writing contract leaves both variables [null]. *)
Lemma internalWrite_skipped contract_txId0 saveState mi l w e w2 :
  writingContract_readState warp (getContractTag warp mi) mi
    (addInteractionData warp None mi w) = (Thrown e, w2) →
  skipped_in_internal_write e = true →
  ∃ l' w',
    internalWrite warp contract_txId0 saveState mi l w = (Returned (Next l'), w')
    ∧ currentState l' = currentState l
    ∧ validity l' = rset (validity l) (Tx.id mi) (Some false)
    ∧ errorMessages l' = rset (errorMessages l) (Tx.id mi) (Some (ErrObject e)).
Proof.
  intros Hread Hskip. unfold internalWrite. unfold_M. rewrite Hread, Hskip. simpl.
  by eexists _, _.
Qed.

Lemma internalWrite_rethrown contract_txId0 saveState mi l w e w2 :
  writingContract_readState warp (getContractTag warp mi) mi
    (addInteractionData warp None mi w) = (Thrown e, w2) →
  skipped_in_internal_write e = false →
  internalWrite warp contract_txId0 saveState mi l w = (Thrown e, w2).
Proof.
  intros Hread Hskip. unfold internalWrite. unfold_M. by rewrite Hread, Hskip.
Qed.

Lemma directInteraction_no_input ignoreExceptions0 saveState mi l w :
  getInputTag warp mi (ContractDefinition.txId (contractDefinition (executionContext l)))
    = None
  ∨ (∃ inputTag,
       getInputTag warp mi
         (ContractDefinition.txId (contractDefinition (executionContext l)))
         = Some inputTag
       ∧ (parseInput warp inputTag = None
          ∨ ∃ input, parseInput warp inputTag = Some input
                     ∧ input_truthy warp input = false)) →
  directInteraction warp ignoreExceptions0 saveState mi l w = (Returned (Continue l), w).
Proof.
  unfold directInteraction.
  intros [-> | (inputTag & -> & [-> | (input & -> & ->)])]; reflexivity.
Qed.

(** The direct branch once the handler has returned [result]. *)
Lemma directInteraction_handled ignoreExceptions0 saveState mi l w inputTag input result w1 :
  getInputTag warp mi (ContractDefinition.txId (contractDefinition (executionContext l)))
    = Some inputTag →
  parseInput warp inputTag = Some input →
  input_truthy warp input = true →
  handle (handler (executionContext l))
    (EvalStateResult.mk (currentState l) (validity l) (errorMessages l)) input mi
    (addInteractionData warp (Some input) mi w) = (Returned result, w1) →
  ∃ flow w2,
    directInteraction warp ignoreExceptions0 saveState mi l w = (Returned flow, w2)
    ∧ if bool_decide (InteractionResult.type result = type_exception)
         && negb ignoreExceptions0
      then ∃ e l', flow = Reject e l'
           ∧ validity l' = validity l
           ∧ errorMessages l'
             = rset (errorMessages l) (Tx.id mi)
                 (ErrString <$> InteractionResult.errorMessage result)
      else ∃ l', flow = Next l'
           ∧ currentState l' = InteractionResult.state result
           ∧ validity l'
             = rset (validity l) (Tx.id mi)
                 (Some (bool_decide (InteractionResult.type result = type_ok)))
           ∧ errorMessages l'
             = if bool_decide (InteractionResult.type result = type_ok)
               then errorMessages l
               else rset (errorMessages l) (Tx.id mi)
                      (ErrString <$> InteractionResult.errorMessage result).
Proof.
  intros Htag Hparse Htruthy Hhandle. unfold directInteraction.
  rewrite Htag, Hparse, Htruthy. unfold_M. simpl. rewrite Hhandle. simpl.
  destruct (bool_decide (InteractionResult.type result = type_exception)
            && negb ignoreExceptions0) eqn:Hfatal.
  - apply andb_true_iff in Hfatal as [Hex%bool_decide_eq_true _].
    eexists _, _. split; [reflexivity|]. eexists _, _. split; [reflexivity|].
    simpl. split; [done|].
    rewrite bool_decide_eq_true_2; [done|]. by rewrite Hex.
  - destruct (InteractionResult.event result); simpl;
      (eexists _, _; split; [reflexivity|]; eexists; split; [reflexivity|]; simpl;
       split; [done|]; split; [done|]);
      destruct (decide (InteractionResult.type result = type_ok)) as [Hok|Hok].
    all: try (rewrite (bool_decide_eq_true_2 _ Hok);
              rewrite bool_decide_eq_false_2; [done|]; by intros []).
    all: rewrite (bool_decide_eq_false_2 _ Hok);
         by rewrite bool_decide_eq_true_2.
Qed.

(** A [Reject] of the branch rejects the iteration and the whole loop. *)
Lemma iteration_flow ctx0 i n mi l w w0 flow w1 :
  verify warp ctx0 mi (at_interaction mi l) w = (Returned true, w0) →
  applyInteraction warp ctx0 mi (at_interaction mi l) w0 = (Returned flow, w1) →
  iteration warp ctx0 i n mi l w
  = match flow with
    | Continue l' => (Returned l', w1)
    | Reject e _ => (Thrown e, w1)
    | Next l' =>
        afterInteraction warp (contract_txId ctx0) (contract_isRoot ctx0) i n mi l' w1
    end.
Proof.
  intros Hverify Happly. unfold iteration. unfold_M.
  rewrite Hverify. simpl. rewrite Happly. by destruct flow.
Qed.

Lemma loop_cons ctx0 i n mi rest l w :
  shouldBreakAfterEvolve l = false →
  signal_aborted warp w = false →
  loop warp ctx0 i n (mi :: rest) l w
  = match iteration warp ctx0 i n mi l w with
    | (Returned l', w') => loop warp ctx0 (S i) n rest l' w'
    | (Thrown e, w') => (Thrown e, w')
    end.
Proof.
  intros Hbreak Hsignal. cbn [loop]. rewrite Hbreak. unfold_M. by rewrite Hsignal.
Qed.

End branch_facts.




(** C6 (as amended by what the code does): a direct interaction whose
    Input tag is missing, or whose Input tag value does not parse as JSON
    or parses to a falsy value, is skipped: the branch ends with
    [continue], leaving the current state, [validity] (no entry is written
    for the interaction) and [errorMessages] as they were, and the fold
    goes on with the next interaction. *)
Theorem missing_input_is_skipped {State Input Result World : Type}
    (warp : @DefaultStateEvaluator.Collaborators State Input Result World)
    (ctx0 : @DefaultStateEvaluator.ExecutionContext State Input Result World)
    (n k : nat) (i : Tx.t) (rest : list Tx.t)
    (l : @DefaultStateEvaluator.Loop State Input Result World)
    (w w0 : World) :
  DefaultStateEvaluator.shouldBreakAfterEvolve l = false →
  DefaultStateEvaluator.signal_aborted warp w = false →
  DefaultStateEvaluator.verify warp ctx0 i (DefaultStateEvaluator.at_interaction i l) w
    = (Returned true, w0) →
  DefaultStateEvaluator.isInteractWrite warp i
      (ContractDefinition.txId (DefaultStateEvaluator.contractDefinition ctx0))
    && DefaultStateEvaluator.internalWrites (DefaultStateEvaluator.evaluationOptions ctx0)
    = false →
  DefaultStateEvaluator.getInputTag warp i
      (ContractDefinition.txId
         (DefaultStateEvaluator.contractDefinition
            (DefaultStateEvaluator.executionContext l))) = None
  ∨ (∃ inputTag,
       DefaultStateEvaluator.getInputTag warp i
         (ContractDefinition.txId
            (DefaultStateEvaluator.contractDefinition
               (DefaultStateEvaluator.executionContext l))) = Some inputTag
       ∧ (DefaultStateEvaluator.parseInput warp inputTag = None
          ∨ ∃ input, DefaultStateEvaluator.parseInput warp inputTag = Some input
                     ∧ DefaultStateEvaluator.input_truthy warp input = false)) →
  DefaultStateEvaluator.applyInteraction warp ctx0 i
    (DefaultStateEvaluator.at_interaction i l) w0
  = (Returned (DefaultStateEvaluator.Continue (DefaultStateEvaluator.at_interaction i l)),
     w0)
  ∧ DefaultStateEvaluator.currentState (DefaultStateEvaluator.at_interaction i l)
    = DefaultStateEvaluator.currentState l
  ∧ DefaultStateEvaluator.validity (DefaultStateEvaluator.at_interaction i l)
    = DefaultStateEvaluator.validity l
  ∧ DefaultStateEvaluator.errorMessages (DefaultStateEvaluator.at_interaction i l)
    = DefaultStateEvaluator.errorMessages l
  ∧ DefaultStateEvaluator.loop warp ctx0 k n (i :: rest) l w
    = DefaultStateEvaluator.loop warp ctx0 (S k) n rest
        (DefaultStateEvaluator.at_interaction i l) w0.
Proof.
  intros Hbreak Hsignal Hverify Hdirect Hinput.
  assert (DefaultStateEvaluator.applyInteraction warp ctx0 i
            (DefaultStateEvaluator.at_interaction i l) w0
          = (Returned (DefaultStateEvaluator.Continue
                         (DefaultStateEvaluator.at_interaction i l)), w0)) as Happly.
  { unfold DefaultStateEvaluator.applyInteraction. rewrite Hdirect.
    by apply directInteraction_no_input. }
  split; [done|]. do 3 (split; [done|]).
  rewrite (loop_cons warp) by done.
  by rewrite (iteration_flow warp ctx0 k n i l w w0 _ w0 Hverify Happly).
Qed.

(** ** The JavaScript handler *)


(** ** The interaction loaders *)

Section gateway_facts.
Import WarpGatewayInteractionsLoader.
Variable fetch : Query → FetchResult.
Variable baseUrl : string.
Variable confirmationStatus : option ConfirmationStatus.
Variable source : option string.

(** Every failure of a request is thrown as a plain [Error]. *)
Lemma request_error_name q e :
  request fetch q = Thrown e → JsError.name e = "Error".
Proof.
  unfold request. destruct (fetch q) as [[] ? []|?]; intros [= <-]; done.
Qed.

(** A failed request ends the loop with its error, whatever was gathered. *)
Lemma load_loop_failure fuel contractId fromSortKey toSortKey page gathered e :
  request fetch (query baseUrl confirmationStatus source contractId fromSortKey toSortKey
                   (page + 1))
    = Thrown e →
  load_loop fetch baseUrl confirmationStatus source (S fuel) contractId fromSortKey toSortKey
    page gathered = Some (Thrown e).
Proof. intros Hreq. cbn [load_loop]. by rewrite Hreq. Qed.

(** When every page answers with [totalPages] pages, the loop returns the
    interactions of the pages after [page] in order, appended to those
    gathered before. *)
Lemma load_loop_pages (pages : list GatewayResponse) totalPages fuel
    contractId fromSortKey toSortKey page gathered :
  pages ≠ [] →
  (∀ j response, pages !! j = Some response →
     request fetch (query baseUrl confirmationStatus source contractId fromSortKey toSortKey
                      (page + 1 + Z.of_nat j)) = Returned response
     ∧ paging_pages response = totalPages) →
  page + Z.of_nat (length pages) = Z.max (page + 1) totalPages →
  (length pages ≤ fuel)%nat →
  load_loop fetch baseUrl confirmationStatus source fuel contractId fromSortKey toSortKey
    page gathered
  = Some (Returned (gathered ++ (pages ≫= λ response, with_status <$> interactions response))).
Proof.
  revert fuel page gathered.
  induction pages as [|response pages IH]; intros fuel page gathered Hne Hpages Hlen Hfuel;
    [done|].
  destruct fuel as [|fuel]; [simpl in Hfuel; lia|]. cbn [load_loop].
  destruct (Hpages 0%nat response eq_refl) as [Hreq Htotal].
  rewrite Z.add_0_r in Hreq. rewrite Hreq, Htotal.
  destruct pages as [|response' pages].
  - simpl in Hlen. rewrite bool_decide_eq_false_2 by lia.
    simpl. by rewrite app_nil_r.
  - rewrite bool_decide_eq_true_2 by (simpl length in Hlen; lia).
    rewrite (IH fuel (page + 1)); [|done| | |].
    + simpl. by rewrite <- !app_assoc.
    + intros j r Hj. destruct (Hpages (S j) r Hj) as [Hr Ht].
      split; [|done]. rewrite <- Hr. do 2 f_equal. lia.
    + simpl length in *. lia.
    + simpl in *. lia.
Qed.

End gateway_facts.

(** C9: once a [CacheableInteractionsLoader.load] for a contract has put
    the delegate's list in the memo (as the first call does), any later
    [load] whose [toSortKey] does not compare greater than the last
    memoized sort key (that is, [lastCachedKey.localeCompare(toSortKey) < 0]
    is false) returns the whole memoized list and leaves the loader as it
    is, whatever [fromSortKey] and [toSortKey] are: the delegate is not
    called and the bounds of the requested range are not applied to the
    list. *)
Theorem cached_interactions_returned_whole {Delegate : Type}
    (delegate_load :
       string → option string → option string → Delegate
       → Completion JsError.t (list Tx.t) * Delegate)
    (localeCompare : string → string → Z)
    (contractTxId : string) (fromSortKey toSortKey : option string)
    (this : @CacheableInteractionsLoader.t Delegate)
    (cachedInteractions : list Tx.t) :
  CacheableInteractionsLoader.interactionsCache this !! contractTxId
    = Some cachedInteractions →
  ¬ (localeCompare (CacheableInteractionsLoader.lastCachedKey cachedInteractions)
       (CacheableInteractionsLoader.ToString toSortKey) < 0) →
  CacheableInteractionsLoader.load delegate_load localeCompare
    contractTxId fromSortKey toSortKey this = (Returned cachedInteractions, this)
  ∧ (∀ tx, last cachedInteractions = Some tx →
       CacheableInteractionsLoader.lastCachedKey cachedInteractions = Tx.sortKey tx)
  ∧ (∀ this0 from0 to0 d,
       CacheableInteractionsLoader.interactionsCache this0 !! contractTxId = None →
       delegate_load contractTxId from0 to0 (CacheableInteractionsLoader.delegate this0)
         = (Returned cachedInteractions, d) →
       CacheableInteractionsLoader.load delegate_load localeCompare
         contractTxId from0 to0 this0
       = (Returned cachedInteractions,
          CacheableInteractionsLoader.mk
            (<[contractTxId := cachedInteractions]>
               (CacheableInteractionsLoader.interactionsCache this0)) d)).
Proof.
  intros Hmemo Hcmp. split; [|split].
  - unfold CacheableInteractionsLoader.load. rewrite Hmemo.
    by rewrite bool_decide_eq_false_2.
  - intros tx Hlast. unfold CacheableInteractionsLoader.lastCachedKey. by rewrite Hlast.
  - intros this0 from0 to0 d Hfresh Hdelegate.
    unfold CacheableInteractionsLoader.load. by rewrite Hfresh, Hdelegate.
Qed.

(** ** The properties on the concrete contracts *)

Section examples.
Import Example.

Lemma putInCache_cacheability_gate_witness :
  CacheableStateEvaluator.cacheable tx_add
  ∧ ¬ CacheableStateEvaluator.cacheable tx_dry
  ∧ ¬ CacheableStateEvaluator.cacheable tx_unconfirmed
  ∧ LevelDbCache.get
      (CacheableStateEvaluator.putInCache contractA tx_add (EvalStateResult.mk 2 ∅ ∅)
         emptyWorld).2.1 contractA sortKey1
    = Some (SortKeyCacheResult.mk (Some sortKey1) (EvalStateResult.mk 2 ∅ ∅))
  ∧ CacheableStateEvaluator.putInCache contractA tx_dry (EvalStateResult.mk 2 ∅ ∅)
      emptyWorld = (Returned tt, emptyWorld)
  ∧ CacheableStateEvaluator.putInCache contractA tx_unconfirmed (EvalStateResult.mk 2 ∅ ∅)
      emptyWorld = (Returned tt, emptyWorld).
Proof.
  assert (CacheableStateEvaluator.cacheable tx_add) as Hadd
    by (split; [reflexivity|right; reflexivity]).
  assert (¬ CacheableStateEvaluator.cacheable tx_dry) as Hdry
    by (intros [Hd _]; discriminate Hd).
  assert (¬ CacheableStateEvaluator.cacheable tx_unconfirmed) as Hunc
    by (intros [_ [Hs|Hs]]; discriminate Hs).
  split; [exact Hadd|]. split; [exact Hdry|]. split; [exact Hunc|].
  split; [|split].
  - exact (proj2 (proj1 (putInCache_cacheability_gate contractA tx_add
                           (EvalStateResult.mk 2 ∅ ∅) emptyWorld) Hadd)).
  - exact (proj1 (proj2 (putInCache_cacheability_gate contractA tx_dry
                           (EvalStateResult.mk 2 ∅ ∅) emptyWorld)) Hdry).
  - exact (proj1 (proj2 (putInCache_cacheability_gate contractA tx_unconfirmed
                           (EvalStateResult.mk 2 ∅ ∅) emptyWorld)) Hunc).
Defined.



(** The write-back cycle of [tx_write] between A and B, re-entered as the
    sources do: the fuel runs out, whether A is read from the root or
    from the handler of B, and when B is read by the evaluator of A. *)
Lemma write_back_cycle_unbounded fuel :
  Reentry.readState CacheableStateEvaluator.inf_loop_guard writeBack fuel
    contractA sortKey6 None = None
  ∧ Reentry.readState CacheableStateEvaluator.inf_loop_guard writeBack fuel
      contractA sortKey6 (Some (Handler.chain None contractB (Tx.id tx_write))) = None
  ∧ Reentry.readState CacheableStateEvaluator.inf_loop_guard writeBack fuel
      contractB sortKey6 None = None.
Proof.
  induction fuel as [|fuel (IHroot & IHback & IHwriter)]; [done|].
  assert (filter (λ tx, String.le (Tx.sortKey tx) sortKey6)
            (default [] (Reentry.interactionsOf writeBack !! contractA)) = [tx_write])
    as HA by (vm_compute; reflexivity).
  assert (filter (λ tx, String.le (Tx.sortKey tx) sortKey6)
            (default [] (Reentry.interactionsOf writeBack !! contractB)) = [tx_write])
    as HB by (vm_compute; reflexivity).
  assert (Reentry.writer writeBack contractA tx_write = Some contractB)
    as HwA by reflexivity.
  assert (Reentry.writer writeBack contractB tx_write = None) as HwB by reflexivity.
  assert (Reentry.hooks writeBack contractB tx_write = [contractA]) as HhB by reflexivity.
  assert (CacheableStateEvaluator.inf_loop_guard contractA None [tx_write] = [tx_write])
    as Hroot by reflexivity.
  assert (CacheableStateEvaluator.inf_loop_guard contractA
            (Some (Handler.chain None contractB (Tx.id tx_write))) [tx_write]
          = [tx_write]) as Hback by (vm_compute; reflexivity).
  assert (CacheableStateEvaluator.inf_loop_guard contractB None [tx_write] = [tx_write])
    as Hwriter by reflexivity.
  split; [|split]; cbn [Reentry.readState].
  - rewrite HA, Hroot. cbn [mapM]. rewrite HwA.
    change (Tx.sortKey tx_write) with sortKey6. by rewrite IHwriter.
  - rewrite HA, Hback. cbn [mapM]. rewrite HwA.
    change (Tx.sortKey tx_write) with sortKey6. by rewrite IHwriter.
  - rewrite HB, Hwriter. cbn [mapM]. rewrite HwB, HhB. cbn [mapM].
    change (Tx.sortKey tx_write) with sortKey6. by rewrite IHback.
Qed.





(** An interaction without Input tag, and one whose Input tag is not
    JSON, get no entry in [validity]: the fold of the two followed by
    [tx_add] returns a [validity] that only knows [tx_add]. *)
Lemma missing_input_counterexample :
  match DefaultStateEvaluator.doReadState warp CacheableStateEvaluator.onStateEvaluated
          [tx_no_input; tx_bad_input; tx_add] (EvalStateResult.mk 1 ∅ ∅)
          (context [tx_no_input; tx_bad_input; tx_add] None true false) emptyWorld with
  | (Returned r, _) =>
      let validity := EvalStateResult.validity (SortKeyCacheResult.cachedValue r) in
      validity !! Tx.id tx_add = Some (Some true)
      ∧ rget validity (Tx.id tx_no_input) ≠ Some false
      ∧ rget validity (Tx.id tx_bad_input) ≠ Some false
      ∧ validity !! Tx.id tx_no_input = None
      ∧ validity !! Tx.id tx_bad_input = None
  | (Thrown _, _) => False
  end.
Proof.
  vm_compute. split; [reflexivity|].
  split; [discriminate|]. split; [discriminate|]. split; reflexivity.
Qed.

Lemma missing_input_is_skipped_witness :
  DefaultStateEvaluator.getInputTag warp tx_no_input contractA = None
  ∧ DefaultStateEvaluator.parseInput warp (("{" +:+ dq) +:+ "function") = None
  ∧ DefaultStateEvaluator.loop warp (context [tx_no_input; tx_add] None true false)
      0 2 [tx_no_input; tx_add] (start (context [tx_no_input; tx_add] None true false))
      emptyWorld
    = DefaultStateEvaluator.loop warp (context [tx_no_input; tx_add] None true false)
        1 2 [tx_add]
        (DefaultStateEvaluator.at_interaction tx_no_input
           (start (context [tx_no_input; tx_add] None true false)))
        emptyWorld
  ∧ DefaultStateEvaluator.loop warp (context [tx_bad_input; tx_add] None true false)
      0 2 [tx_bad_input; tx_add] (start (context [tx_bad_input; tx_add] None true false))
      emptyWorld
    = DefaultStateEvaluator.loop warp (context [tx_bad_input; tx_add] None true false)
        1 2 [tx_add]
        (DefaultStateEvaluator.at_interaction tx_bad_input
           (start (context [tx_bad_input; tx_add] None true false)))
        emptyWorld.
Proof.
  split; [reflexivity|]. split; [reflexivity|]. split.
  - exact (proj2 (proj2 (proj2 (proj2
      (missing_input_is_skipped warp (context [tx_no_input; tx_add] None true false)
         2 0 tx_no_input [tx_add] (start (context [tx_no_input; tx_add] None true false))
         emptyWorld emptyWorld eq_refl eq_refl eq_refl eq_refl (or_introl eq_refl)))))).
  - exact (proj2 (proj2 (proj2 (proj2
      (missing_input_is_skipped warp (context [tx_bad_input; tx_add] None true false)
         2 0 tx_bad_input [tx_add] (start (context [tx_bad_input; tx_add] None true false))
         emptyWorld emptyWorld eq_refl eq_refl eq_refl eq_refl
         (or_intror (ex_intro _ (("{" +:+ dq) +:+ "function")
                       (conj eq_refl (or_introl eq_refl))))))))).
Defined.

(** Without interactions and without cached state the initial counter is
    cached at the genesis sort key; the next call, which finds it, returns
    it as it is. *)
Lemma eval_no_missing_interactions_witness :
  (CacheableStateEvaluator.eval warp (context [] None true false) None emptyWorld).1
  = Returned (SortKeyCacheResult.mk (Some genesisSortKey) (EvalStateResult.mk 1 ∅ ∅))
  ∧ LevelDbCache.get
      (CacheableStateEvaluator.eval warp (context [] None true false) None emptyWorld).2.1
      contractA genesisSortKey
    = Some (SortKeyCacheResult.mk (Some genesisSortKey) (EvalStateResult.mk 1 ∅ ∅))
  ∧ CacheableStateEvaluator.eval warp
      (context [] (Some (SortKeyCacheResult.mk (Some genesisSortKey)
                           (EvalStateResult.mk 1 ∅ ∅))) true false)
      None emptyWorld
    = (Returned (SortKeyCacheResult.mk (Some genesisSortKey) (EvalStateResult.mk 1 ∅ ∅)),
       emptyWorld).
Proof.
  assert (contractA ≠ "") as Hid by discriminate.
  destruct (eval_no_missing_interactions warp (context [] None true false) None emptyWorld
              Hid eq_refl) as [_ Hinitial].
  destruct (eval_no_missing_interactions warp
              (context [] (Some (SortKeyCacheResult.mk (Some genesisSortKey)
                                   (EvalStateResult.mk 1 ∅ ∅))) true false)
              None emptyWorld Hid eq_refl) as [Hcached _].
  destruct (Hinitial eq_refl) as [Hresult Hget].
  split; [exact (f_equal fst Hresult)|]. split; [exact Hget|].
  exact (Hcached _ eq_refl).
Defined.


(** Asked again up to the first sort key, the loader still returns both
    memoized interactions, the second of which lies beyond it. *)
Lemma cached_interactions_returned_whole_witness :
  let this1 := CacheableInteractionsLoader.mk {[ contractA := [tx_add; tx_fail] ]} 1%nat in
  CacheableInteractionsLoader.load delegateLoad localeCompare contractA None (Some sortKey2)
    (CacheableInteractionsLoader.mk ∅ 0%nat) = (Returned [tx_add; tx_fail], this1)
  ∧ CacheableInteractionsLoader.load delegateLoad localeCompare contractA
      (Some sortKey1) (Some sortKey1) this1 = (Returned [tx_add; tx_fail], this1).
Proof.
  assert (¬ (localeCompare (CacheableInteractionsLoader.lastCachedKey [tx_add; tx_fail])
               (CacheableInteractionsLoader.ToString (Some sortKey1)) < 0)) as Hcmp
    by (vm_compute; discriminate).
  destruct (cached_interactions_returned_whole delegateLoad localeCompare contractA
              (Some sortKey1) (Some sortKey1)
              (CacheableInteractionsLoader.mk {[ contractA := [tx_add; tx_fail] ]} 1%nat)
              [tx_add; tx_fail] (lookup_singleton_eq _ _) Hcmp)
    as (Hsecond & _ & Hfirst).
  split; [|exact Hsecond].
  exact (Hfirst (CacheableInteractionsLoader.mk ∅ 0%nat) None (Some sortKey2) 1%nat
           (lookup_empty _) eq_refl).
Defined.

(** [prune()] keeps five entries of six where treating the [undefined]
    argument as 1 would keep one. *)
Lemma prune_undefined_counterexample :
  LevelDbCache.entriesStored_effective LevelDbCache.Undefined ≠ 1
  ∧ LevelDbCache.keys_reverse 6
      (LevelDbCache.sublevel (LevelDbCache.prune LevelDbCache.Undefined sixEntries) contractA)
    = [sortKey6; sortKey5; sortKey4; sortKey3; sortKey2]
  ∧ LevelDbCache.keys_reverse 6
      (LevelDbCache.sublevel (LevelDbCache.prune (LevelDbCache.Num 1) sixEntries) contractA)
    = [sortKey6].
Proof.
  split; [vm_compute; discriminate|]. split; vm_compute; reflexivity.
Qed.

Lemma prune_retains_most_recent_witness :
  size (LevelDbCache.sublevel (LevelDbCache.prune (LevelDbCache.Num 2) sixEntries) contractA)
  = 2%nat
  ∧ LevelDbCache.sublevel (LevelDbCache.prune (LevelDbCache.Num 2) sixEntries) contractA
      !! sortKey5 = Some (EvalStateResult.mk 5 ∅ ∅)
  ∧ LevelDbCache.sublevel (LevelDbCache.prune (LevelDbCache.Num 2) sixEntries) contractA
      !! sortKey4 = None
  ∧ LevelDbCache.sublevel (LevelDbCache.prune (LevelDbCache.Num 7) sixEntries) contractA
    = LevelDbCache.sublevel sixEntries contractA
  ∧ LevelDbCache.entriesStored_effective LevelDbCache.Null = 1
  ∧ LevelDbCache.entriesStored_effective (LevelDbCache.Num (-3)) = 1.
Proof.
  destruct (prune_retains_most_recent (LevelDbCache.Num 2) sixEntries contractA)
    as (_ & _ & Hkept).
  destruct Hkept as (Hlookup & Hsize & _); [vm_compute; lia|].
  destruct (prune_retains_most_recent (LevelDbCache.Num 7) sixEntries contractA)
    as (_ & Hfew & _).
  split; [exact Hsize|]. split; [|split; [|split; [|split]]].
  - rewrite Hlookup. vm_compute. reflexivity.
  - rewrite Hlookup. vm_compute. reflexivity.
  - apply Hfew. vm_compute. lia.
  - exact (proj1 (prune_retains_most_recent LevelDbCache.Null sixEntries contractA)).
  - exact (proj1 (prune_retains_most_recent (LevelDbCache.Num (-3)) sixEntries contractA)).
Defined.

End examples.

(** * Further properties of the code *)

(** ** The sort-key cache: look-ups, deletion and pruning *)

Section cache_more_facts.
Context {V : Type}.
Implicit Types (sub : gmap string V) (db : gmap string (gmap string V)).
Import LevelDbCache.

Lemma flip_le_anti_symm : AntiSymm (=) (flip String.le).
Proof. intros x y Hxy Hyx. unfold flip in *. by apply (anti_symm String.le). Qed.

Lemma keys_ascending_empty sub : keys_ascending sub = [] ↔ sub = ∅.
Proof.
  split.
  - intros Hnil. apply map_size_empty_inv.
    by rewrite <- length_keys_ascending, Hnil.
  - intros ->. apply nil_length_inv. by rewrite length_keys_ascending, map_size_empty.
Qed.

(** The head of the keys in descending order is the greatest key. *)
Lemma descending_head (l : list string) k rest :
  StronglySorted (flip String.le) l → l = k :: rest →
  ∀ k', k' ∈ l → String.le k' k.
Proof.
  intros Hs -> k' [->|Hin]%elem_of_cons; [done|].
  apply StronglySorted_inv in Hs as [_ Hall].
  rewrite Forall_forall in Hall. by apply Hall.
Qed.

Lemma get_Some db c k r :
  get db c k = Some r ↔
  SortKeyCacheResult.sortKey r = Some k
  ∧ sublevel db c !! k = Some (SortKeyCacheResult.cachedValue r).
Proof.
  unfold get. destruct (sublevel db c !! k) as [v|]; split.
  - by intros [= <-].
  - destruct r as [sk cv]. simpl. by intros [-> [= ->]].
  - done.
  - by intros [_ ?].
Qed.

Lemma getLast_None db c : getLast db c = None ↔ sublevel db c = ∅.
Proof.
  unfold getLast, keys_reverse. rewrite <- keys_ascending_empty.
  destruct (reverse (keys_ascending (sublevel db c))) as [|k rest] eqn:Hrev.
  - apply (f_equal reverse) in Hrev. rewrite reverse_involutive in Hrev.
    rewrite Hrev. done.
  - simpl. assert (is_Some (sublevel db c !! k)) as [v Hv].
    { apply elem_of_keys_ascending, elem_of_reverse. rewrite Hrev. by left. }
    unfold get. rewrite Hv. split; [done|].
    intros Hnil. by rewrite Hnil in Hrev.
Qed.

Lemma getLast_Some db c r :
  getLast db c = Some r →
  ∃ k, SortKeyCacheResult.sortKey r = Some k
    ∧ sublevel db c !! k = Some (SortKeyCacheResult.cachedValue r)
    ∧ ∀ k', is_Some (sublevel db c !! k') → String.le k' k.
Proof.
  unfold getLast, keys_reverse.
  destruct (reverse (keys_ascending (sublevel db c))) as [|k rest] eqn:Hrev; [done|].
  simpl. intros [Hk Hv]%get_Some. exists k. split; [done|]. split; [done|].
  intros k' Hk'.
  apply (descending_head _ k rest (keys_descending_sorted (sublevel db c)) Hrev).
  by apply elem_of_reverse, elem_of_keys_ascending.
Qed.

Lemma StronglySorted_sublist {A} (R : relation A) (l1 l2 : list A) :
  l1 `sublist_of` l2 → StronglySorted R l2 → StronglySorted R l1.
Proof.
  induction 1 as [|x l1 l2 Hsub IH|x l1 l2 Hsub IH]; intros Hs.
  - constructor.
  - apply StronglySorted_inv in Hs as [Hs Hall]. constructor; [by apply IH|].
    rewrite Forall_forall in *. intros y Hy. apply Hall.
    by eapply elem_of_sublist.
  - apply StronglySorted_inv in Hs as [Hs _]. by apply IH.
Qed.

Lemma elem_of_keys_lte sub lte k :
  k ∈ reverse (filter (λ k, String.le k lte) (keys_ascending sub))
  ↔ is_Some (sub !! k) ∧ String.le k lte.
Proof.
  rewrite elem_of_reverse, list_elem_of_filter, elem_of_keys_ascending. tauto.
Qed.

Lemma keys_lte_sorted sub lte :
  StronglySorted (flip String.le)
    (reverse (filter (λ k, String.le k lte) (keys_ascending sub))).
Proof.
  rewrite <- filter_reverse.
  eapply StronglySorted_sublist; [apply sublist_filter|apply keys_descending_sorted].
Qed.

Lemma getLessOrEqual_None db c lte :
  getLessOrEqual db c lte = None
  ↔ ∀ k, is_Some (sublevel db c !! k) → ¬ String.le k lte.
Proof.
  unfold getLessOrEqual, keys_reverse_lte.
  destruct (reverse (filter _ (keys_ascending (sublevel db c)))) as [|k rest] eqn:Hrev.
  - split; [|done]. intros _ k Hk Hle.
    assert (k ∈ @nil string) as Hin; [|by apply elem_of_nil in Hin].
    rewrite <- Hrev. by apply elem_of_keys_lte.
  - simpl. assert (k ∈ k :: rest) as Hin by by left.
    rewrite <- Hrev in Hin. apply elem_of_keys_lte in Hin as [[v Hv] Hle].
    unfold get. rewrite Hv. split; [done|].
    intros Hnone. exfalso. by apply (Hnone k).
Qed.

Lemma getLessOrEqual_Some db c lte r :
  getLessOrEqual db c lte = Some r →
  ∃ k, SortKeyCacheResult.sortKey r = Some k
    ∧ sublevel db c !! k = Some (SortKeyCacheResult.cachedValue r)
    ∧ String.le k lte
    ∧ ∀ k', is_Some (sublevel db c !! k') → String.le k' lte → String.le k' k.
Proof.
  unfold getLessOrEqual, keys_reverse_lte.
  destruct (reverse (filter _ (keys_ascending (sublevel db c)))) as [|k rest] eqn:Hrev;
    [done|].
  simpl. intros [Hk Hv]%get_Some. exists k. split; [done|]. split; [done|].
  assert (k ∈ k :: rest) as Hin by by left.
  rewrite <- Hrev in Hin. apply elem_of_keys_lte in Hin as [_ Hle].
  split; [done|]. intros k' Hk' Hle'.
  apply (descending_head _ k rest (keys_lte_sorted (sublevel db c) lte) Hrev).
  by apply elem_of_keys_lte.
Qed.

Lemma sublevel_delete db c c' :
  sublevel (delete db c) c' = if decide (c = c') then ∅ else sublevel db c'.
Proof.
  unfold delete, sublevel at 1. rewrite lookup_insert. by case_decide.
Qed.

(** The keys that pruning to [n] leaves, greatest first, are the first
    [n] of the keys before. *)
Lemma keys_prune_contract n sub :
  (0 < n ≤ size sub)%nat →
  reverse (keys_ascending (prune_contract n sub)) = keys_reverse n sub.
Proof.
  intros Hn. apply (@StronglySorted_unique _ (flip String.le) flip_le_anti_symm).
  - apply keys_descending_sorted.
  - unfold keys_reverse. eapply StronglySorted_sublist;
      [apply sublist_take|apply keys_descending_sorted].
  - apply NoDup_Permutation.
    + apply keys_descending_NoDup.
    + apply keys_reverse_NoDup.
    + intros k. rewrite elem_of_reverse, elem_of_keys_ascending.
      rewrite <- elem_of_dom, prune_contract_dom by done.
      by rewrite elem_of_list_to_set.
Qed.

Lemma keys_reverse_prune_contract m n sub :
  (0 < n)%nat → (m ≤ n)%nat →
  keys_reverse m (prune_contract n sub) = keys_reverse m sub.
Proof.
  intros Hpos Hmn. destruct (decide (size sub < n)%nat) as [Hlt|Hge].
  - by rewrite prune_contract_few.
  - unfold keys_reverse at 1. rewrite keys_prune_contract by lia.
    unfold keys_reverse. rewrite take_take. f_equal. lia.
Qed.

Lemma prune_contract_compose m n sub :
  (0 < m)%nat → (0 < n)%nat →
  prune_contract m (prune_contract n sub) = prune_contract (m `min` n) sub.
Proof.
  intros Hm Hn. destruct (decide (size sub < n)%nat) as [Hlt|Hge].
  { rewrite (prune_contract_few n) by done.
    destruct (decide (size sub < m)%nat).
    - rewrite !prune_contract_few by lia. done.
    - by replace (m `min` n)%nat with m by lia. }
  assert (size (prune_contract n sub) = n) as Hsize by (apply prune_contract_size; lia).
  destruct (decide (n < m)%nat) as [Hnm|Hmn].
  { rewrite (prune_contract_few m) by lia.
    by replace (m `min` n)%nat with n by lia. }
  replace (m `min` n)%nat with m by lia.
  apply map_eq. intros k.
  rewrite !prune_contract_lookup by lia.
  rewrite keys_reverse_prune_contract by lia.
  case_decide as Hin; [|done].
  case_decide as Hin'; [done|]. exfalso. apply Hin'.
  unfold keys_reverse in *. apply elem_of_take in Hin as (i & Hi & Hlt).
  apply elem_of_take. exists i. split; [done|lia].
Qed.

End cache_more_facts.

(** X1: in [LevelDbCache], [get] after [put] returns, under the sort key
    of the put, the value as the JSON encoding of the sub-level reads it
    back ([json value], which need not be [value]), and a [put] changes
    what [get] returns for no other contract and no other sort key. *)
Theorem get_after_put {V} `{!JsonEncoding V} (db : gmap string (gmap string V))
    (key sortKey key' sortKey' : string) (value : V) :
  LevelDbCache.get (LevelDbCache.put db key sortKey value) key' sortKey'
  = if decide (key = key' ∧ sortKey = sortKey')
    then Some (SortKeyCacheResult.mk (Some sortKey) (json value))
    else LevelDbCache.get db key' sortKey'.
Proof.
  unfold LevelDbCache.get. rewrite sublevel_put.
  destruct (decide (key = key')) as [<-|Hk].
  - destruct (decide (sortKey = sortKey')) as [<-|Hs].
    + rewrite lookup_insert_eq. by rewrite decide_True.
    + rewrite lookup_insert_ne by done. rewrite decide_False; [done|]. by intros [_ ?].
  - rewrite decide_False; [done|]. by intros [? _].
Qed.

(** X2: [LevelDbCache.getLast] returns [null] exactly when the contract
    has no entry; otherwise it returns an entry of the contract, with its
    stored value, whose sort key is the greatest of the contract's sort
    keys. *)
Theorem getLast_greatest {V} (db : gmap string (gmap string V)) (key : string) :
  (LevelDbCache.getLast db key = None ↔ LevelDbCache.sublevel db key = ∅)
  ∧ ∀ r, LevelDbCache.getLast db key = Some r →
      ∃ k, SortKeyCacheResult.sortKey r = Some k
        ∧ LevelDbCache.sublevel db key !! k = Some (SortKeyCacheResult.cachedValue r)
        ∧ ∀ k', is_Some (LevelDbCache.sublevel db key !! k') → String.le k' k.
Proof. split; [apply getLast_None|apply getLast_Some]. Qed.

(** X3: [LevelDbCache.getLessOrEqual(key, sortKey)] returns [null]
    exactly when the contract has no entry at or below [sortKey];
    otherwise it returns an entry of the contract, with its stored value,
    whose sort key is not above [sortKey] and is the greatest such sort
    key: no state from a later sort key is ever returned. *)
Theorem getLessOrEqual_greatest_below {V} (db : gmap string (gmap string V))
    (key sortKey : string) :
  (LevelDbCache.getLessOrEqual db key sortKey = None
   ↔ ∀ k, is_Some (LevelDbCache.sublevel db key !! k) → ¬ String.le k sortKey)
  ∧ ∀ r, LevelDbCache.getLessOrEqual db key sortKey = Some r →
      ∃ k, SortKeyCacheResult.sortKey r = Some k
        ∧ LevelDbCache.sublevel db key !! k = Some (SortKeyCacheResult.cachedValue r)
        ∧ String.le k sortKey
        ∧ ∀ k', is_Some (LevelDbCache.sublevel db key !! k') → String.le k' sortKey →
                String.le k' k.
Proof. split; [apply getLessOrEqual_None|apply getLessOrEqual_Some]. Qed.

(** X4: [LevelDbCache.delete(key)] removes every entry of the contract:
    afterwards [get], [getLast] and [getLessOrEqual] return [null] for it
    and [keys()] does not list it, while the entries of every other
    contract and its membership in [keys()] are as before. *)
Theorem delete_clears_contract {V} (db : gmap string (gmap string V)) (key : string) :
  (∀ sortKey, LevelDbCache.get (LevelDbCache.delete db key) key sortKey = None)
  ∧ LevelDbCache.getLast (LevelDbCache.delete db key) key = None
  ∧ (∀ sortKey, LevelDbCache.getLessOrEqual (LevelDbCache.delete db key) key sortKey = None)
  ∧ (key ∉ LevelDbCache.keys (LevelDbCache.delete db key))
  ∧ (∀ other, other ≠ key →
       LevelDbCache.sublevel (LevelDbCache.delete db key) other
       = LevelDbCache.sublevel db other
       ∧ (other ∈ LevelDbCache.keys (LevelDbCache.delete db key)
          ↔ other ∈ LevelDbCache.keys db)).
Proof.
  assert (LevelDbCache.sublevel (LevelDbCache.delete db key) key = ∅) as Hempty.
  { rewrite sublevel_delete. by rewrite decide_True. }
  split; [|split; [|split; [|split]]].
  - intros sortKey. unfold LevelDbCache.get. by rewrite Hempty, lookup_empty.
  - by apply getLast_None.
  - intros sortKey. apply getLessOrEqual_None. intros k. rewrite Hempty, lookup_empty.
    by intros []%is_Some_None.
  - rewrite elem_of_keys. by intros [].
  - intros other Hne.
    assert (LevelDbCache.sublevel (LevelDbCache.delete db key) other
            = LevelDbCache.sublevel db other) as Hother.
    { rewrite sublevel_delete. by rewrite decide_False. }
    split; [done|]. by rewrite !elem_of_keys, Hother.
Qed.

(** X5: pruning twice is pruning once with the smaller count: for every
    contract, what [prune(a)] leaves of what [prune(b)] left is what
    [prune] with the smaller of the two effective counts leaves. In
    particular [prune] is idempotent, and a later [prune] with a count
    that is not smaller removes nothing more. *)
Theorem prune_twice {V} (a b : LevelDbCache.JsNumber)
    (db : gmap string (gmap string V)) (key : string) :
  LevelDbCache.sublevel (LevelDbCache.prune a (LevelDbCache.prune b db)) key
  = LevelDbCache.sublevel
      (LevelDbCache.prune
         (LevelDbCache.Num (Z.min (LevelDbCache.entriesStored_effective a)
                                  (LevelDbCache.entriesStored_effective b))) db) key
  ∧ LevelDbCache.sublevel (LevelDbCache.prune a (LevelDbCache.prune a db)) key
    = LevelDbCache.sublevel (LevelDbCache.prune a db) key.
Proof.
  pose proof (entriesStored_effective_pos a) as Ha.
  pose proof (entriesStored_effective_pos b) as Hb.
  rewrite !prune_sublevel.
  rewrite !prune_contract_compose by lia. split.
  - f_equal.
    assert (LevelDbCache.entriesStored_effective
              (LevelDbCache.Num (Z.min (LevelDbCache.entriesStored_effective a)
                                       (LevelDbCache.entriesStored_effective b)))
            = Z.min (LevelDbCache.entriesStored_effective a)
                    (LevelDbCache.entriesStored_effective b)) as ->.
    { unfold LevelDbCache.entriesStored_effective at 1.
      repeat case_bool_decide; simpl; lia. }
    lia.
  - f_equal. lia.
Qed.

(** X6: [LevelDbCache.prune] never removes the most recent entry of a
    contract: for every argument and every contract, [getLast] returns
    after pruning what it returned before. *)
Theorem prune_keeps_last {V} (arg : LevelDbCache.JsNumber)
    (db : gmap string (gmap string V)) (key : string) :
  LevelDbCache.getLast (LevelDbCache.prune arg db) key = LevelDbCache.getLast db key.
Proof.
  pose proof (entriesStored_effective_pos arg) as Hpos.
  unfold LevelDbCache.getLast, LevelDbCache.get. rewrite prune_sublevel.
  set (n := Z.to_nat (LevelDbCache.entriesStored_effective arg)).
  rewrite keys_reverse_prune_contract by lia.
  destruct (LevelDbCache.keys_reverse 1 (LevelDbCache.sublevel db key)) as [|k rest] eqn:Hk;
    [done|].
  destruct (decide (size (LevelDbCache.sublevel db key) < n)%nat) as [Hlt|Hge].
  { by rewrite prune_contract_few. }
  rewrite prune_contract_lookup by lia.
  rewrite decide_True; [done|].
  assert (k ∈ LevelDbCache.keys_reverse 1 (LevelDbCache.sublevel db key)) as Hin
    by (rewrite Hk; by left).
  unfold LevelDbCache.keys_reverse in *.
  apply elem_of_take in Hin as (i & Hi & Hlt). apply elem_of_take.
  exists i. split; [done|lia].
Qed.

(** ** The evaluator's view of the cache *)

Section evaluator_cache_facts.
Context {State Input Result Ext : Type} `{!JsonEncoding (EvalStateResult.t State)}.
Implicit Types (w : gmap string (gmap string (EvalStateResult.t State)) * Ext).
Import DefaultStateEvaluator CacheableStateEvaluator.

(** An entry stored at the requested sort key is the one returned. *)
Lemma getLessOrEqual_exact {V} (db : gmap string (gmap string V)) c k v :
  LevelDbCache.sublevel db c !! k = Some v →
  LevelDbCache.getLessOrEqual db c k = Some (SortKeyCacheResult.mk (Some k) v).
Proof.
  intros Hk.
  destruct (LevelDbCache.getLessOrEqual db c k) as [r|] eqn:Hget.
  - apply getLessOrEqual_Some in Hget as (k0 & Hsk & Hv & Hle & Hmax).
    assert (k0 = k) as ->.
    { apply (anti_symm String.le); [done|]. apply Hmax; [by eexists|done]. }
    destruct r as [sk cv]. simpl in *. rewrite Hk in Hv. by simplify_eq.
  - exfalso. rewrite getLessOrEqual_None in Hget. by apply (Hget k); [eexists|].
Qed.

Lemma indexOf_first (transaction : Tx.t) (before after : list Tx.t) :
  transaction ∉ before →
  indexOf transaction (before ++ transaction :: after) = Some (length before).
Proof.
  intros Hnotin. unfold indexOf.
  assert (list_find (λ tx, tx = transaction) (before ++ transaction :: after)
          = Some (length before, transaction)) as ->; [|done].
  apply list_find_Some. split; [|split; [done|]].
  - by rewrite lookup_app_r, Nat.sub_diag by lia.
  - intros j y Hj Hlt ->. apply Hnotin.
    rewrite lookup_app_l in Hj by done. apply list_elem_of_lookup. eauto.
Qed.

Lemma indexOf_absent (transaction : Tx.t) (l : list Tx.t) :
  transaction ∉ l → indexOf transaction l = None.
Proof.
  intros Hnotin. unfold indexOf. rewrite fmap_None, list_find_None, Forall_forall.
  by intros tx Hin ->.
Qed.

End evaluator_cache_facts.

(** X7: a state written through [CacheableStateEvaluator.putInCache] for
    a cacheable interaction is what [latestAvailableState] returns when
    asked for that interaction's sort key, as the JSON encoding of the
    cache reads it back: [json] of the result that was put, under that
    sort key. For an interaction that is not cacheable the look-up returns
    what it returned before the write. *)
Theorem cached_state_is_latest {State Ext : Type}
    `{!JsonEncoding (EvalStateResult.t State)}
    (C : string) (i : Tx.t) (st : EvalStateResult.t State)
    (w : gmap string (gmap string (EvalStateResult.t State)) * Ext) :
  Tx.sortKey i ≠ "" →
  (CacheableStateEvaluator.cacheable i →
     (CacheableStateEvaluator.putInCache C i st ;;
      CacheableStateEvaluator.latestAvailableState C (Some (Tx.sortKey i))) w
     = (Returned (Some (SortKeyCacheResult.mk (Some (Tx.sortKey i)) (json st))),
        (LevelDbCache.put w.1 C (Tx.sortKey i) st, w.2)))
  ∧ (¬ CacheableStateEvaluator.cacheable i →
     (CacheableStateEvaluator.putInCache C i st ;;
      CacheableStateEvaluator.latestAvailableState C (Some (Tx.sortKey i))) w
     = CacheableStateEvaluator.latestAvailableState C (Some (Tx.sortKey i)) w).
Proof.
  intros Hkey. split; intros Hc; unfold_M.
  - rewrite putInCache_cacheable by done.
    unfold CacheableStateEvaluator.latestAvailableState.
    rewrite bool_decide_eq_false_2 by done. unfold_M. simpl.
    rewrite (getLessOrEqual_exact _ _ _ (json st)); [done|].
    rewrite sublevel_put, decide_True by done. by rewrite lookup_insert_eq.
  - by rewrite putInCache_not_cacheable.
Qed.

(** X8: [CacheableStateEvaluator.syncState] stores the given state and
    validity under the given sort key for any sort key, with empty error
    messages: afterwards [latestAvailableState] at that sort key returns
    this entry, as the JSON encoding of the cache reads it back, and
    [hasContractCached] is true. *)
Theorem syncState_then_read {State Ext : Type}
    `{!JsonEncoding (EvalStateResult.t State)}
    (C sortKey : string) (state : State) (validity : gmap string (option bool))
    (w : gmap string (gmap string (EvalStateResult.t State)) * Ext) :
  sortKey ≠ "" →
  (CacheableStateEvaluator.syncState C sortKey state validity ;;
   latest ← CacheableStateEvaluator.latestAvailableState C (Some sortKey);
   cached ← CacheableStateEvaluator.hasContractCached C;
   mret (latest, cached)) w
  = (Returned
       (Some (SortKeyCacheResult.mk (Some sortKey)
                (json (EvalStateResult.mk state validity ∅))),
        true),
     (LevelDbCache.put w.1 C sortKey (EvalStateResult.mk state validity ∅), w.2)).
Proof.
  intros Hkey.
  unfold CacheableStateEvaluator.syncState, CacheableStateEvaluator.cache_put,
    CacheableStateEvaluator.latestAvailableState,
    CacheableStateEvaluator.hasContractCached.
  rewrite bool_decide_eq_false_2 by done. unfold_M. simpl.
  rewrite (getLessOrEqual_exact _ _ _ (json (EvalStateResult.mk state validity ∅))).
  2:{ rewrite sublevel_put, decide_True by done. by rewrite lookup_insert_eq. }
  rewrite bool_decide_eq_true_2; [done|].
  destruct (LevelDbCache.getLast _ C) eqn:Hlast; [by eexists|].
  apply getLast_None in Hlast. rewrite sublevel_put, decide_True in Hlast by done.
  by apply insert_non_empty in Hlast.
Qed.

(** X9: [CacheableStateEvaluator.onContractCall] caches the given state
    for the interaction that precedes [transaction] in the sorted
    interactions, through the cacheability gate of [putInCache]; when
    [transaction] is the first interaction, or is not in the list (an
    empty list included), the cache is left as it is. *)
Theorem onContractCall_caches_predecessor {State Input Result Ext : Type}
    `{!JsonEncoding (EvalStateResult.t State)}
    (transaction : Tx.t)
    (ctx : @DefaultStateEvaluator.ExecutionContext State Input Result
             (gmap string (gmap string (EvalStateResult.t State)) * Ext))
    (state : EvalStateResult.t State)
    (w : gmap string (gmap string (EvalStateResult.t State)) * Ext) :
  (∀ before previous after,
     DefaultStateEvaluator.sortedInteractions ctx
       = before ++ previous :: transaction :: after →
     transaction ∉ before → transaction ≠ previous →
     CacheableStateEvaluator.onContractCall transaction ctx state w
     = CacheableStateEvaluator.putInCache
         (ContractDefinition.txId (DefaultStateEvaluator.contractDefinition ctx))
         previous state w)
  ∧ (∀ after,
       DefaultStateEvaluator.sortedInteractions ctx = transaction :: after →
       CacheableStateEvaluator.onContractCall transaction ctx state w = (Returned tt, w))
  ∧ (transaction ∉ DefaultStateEvaluator.sortedInteractions ctx →
     CacheableStateEvaluator.onContractCall transaction ctx state w = (Returned tt, w)).
Proof.
  unfold CacheableStateEvaluator.onContractCall. split; [|split].
  - intros before previous after Hlist Hbefore Hprevious. rewrite Hlist.
    rewrite bool_decide_eq_false_2 by (rewrite length_app; simpl; lia).
    replace (before ++ previous :: transaction :: after)
      with ((before ++ [previous]) ++ transaction :: after)
      by by rewrite <- app_assoc.
    rewrite indexOf_first.
    2:{ intros [?| ->%list_elem_of_singleton]%elem_of_app; done. }
    rewrite length_app. simpl.
    rewrite bool_decide_eq_false_2 by lia.
    replace (length before + 1 - 1)%nat with (length before) by lia.
    rewrite <- app_assoc. simpl.
    by rewrite lookup_app_r, Nat.sub_diag by lia.
  - intros after ->.
    pose proof (indexOf_first transaction [] after (not_elem_of_nil _)) as Hidx.
    cbn [app length] in Hidx. rewrite Hidx.
    by rewrite bool_decide_eq_false_2 by (cbn [length]; lia).
  - intros Hnotin. case_bool_decide; [done|]. by rewrite indexOf_absent.
Qed.

(** ** Invariants of the loop of [doReadState] *)

(** Splits a computation of the evaluator's monad along the outcomes of
    the calls it makes. *)
Ltac no_match x :=
  lazymatch x with
  | context [match _ with _ => _ end] => fail
  | _ => idtac
  end.

Ltac split_M :=
  repeat (simpl;
    match goal with
    | |- context [match ?x with _ => _ end] => no_match x; destruct x eqn:?
    end).

Ltac frame_goal :=
  simpl; repeat match goal with |- _ ∧ _ => split end;
  try done;
  try (intros ? ?; split; unfold rset; rewrite ?lookup_insert_ne by done; done);
  try (intros ? ?; unfold rset; rewrite ?lookup_insert_ne by done; done);
  try (by left);
  try (right; split; [done|by eexists]).

Section loop_facts.
Context {State Input Result World : Type}.
Import DefaultStateEvaluator.
Variable warp : @Collaborators State Input Result World.
Implicit Types (l : @Loop State Input Result World) (w : World) (mi : Tx.t).

Lemma internalWrite_changes contract_txId0 saveState mi l w :
  match internalWrite warp contract_txId0 saveState mi l w with
  | (Returned flow, _) =>
      currentSortKey (variables flow) = currentSortKey l
      ∧ shouldBreakAfterEvolve (variables flow) = shouldBreakAfterEvolve l
      ∧ (∀ id, id ≠ Tx.id mi →
           validity (variables flow) !! id = validity l !! id
           ∧ errorMessages (variables flow) !! id = errorMessages l !! id)
      ∧ (lastConfirmedTxState (variables flow) = lastConfirmedTxState l
         ∨ (canBeCached mi = true
            ∧ ∃ st, lastConfirmedTxState (variables flow) = Some (mi, st)))
  | (Thrown _, _) => True
  end.
Proof.
  unfold internalWrite. unfold_M.
  split_M.
  all: frame_goal.
Qed.

Lemma directInteraction_changes ignoreExceptions0 saveState mi l w :
  match directInteraction warp ignoreExceptions0 saveState mi l w with
  | (Returned flow, _) =>
      currentSortKey (variables flow) = currentSortKey l
      ∧ shouldBreakAfterEvolve (variables flow) = shouldBreakAfterEvolve l
      ∧ (∀ id, id ≠ Tx.id mi →
           validity (variables flow) !! id = validity l !! id
           ∧ errorMessages (variables flow) !! id = errorMessages l !! id)
      ∧ (lastConfirmedTxState (variables flow) = lastConfirmedTxState l
         ∨ (canBeCached mi = true
            ∧ ∃ st, lastConfirmedTxState (variables flow) = Some (mi, st)))
  | (Thrown _, _) => True
  end.
Proof.
  unfold directInteraction. unfold_M.
  split_M.
  all: frame_goal.
Qed.

Lemma afterInteraction_changes contract_txId0 contract_isRoot0 i n mi l w :
  match afterInteraction warp contract_txId0 contract_isRoot0 i n mi l w with
  | (Returned l', _) =>
      currentSortKey l' = currentSortKey l
      ∧ (∀ id, id ≠ Tx.id mi →
           validity l' !! id = validity l !! id
           ∧ errorMessages l' !! id = errorMessages l !! id)
      ∧ lastConfirmedTxState l' = lastConfirmedTxState l
  | (Thrown _, _) => True
  end.
Proof.
  unfold afterInteraction. unfold_M.
  split_M.
  all: frame_goal.
Qed.

Lemma iteration_changes ctx0 i n mi l w :
  match iteration warp ctx0 i n mi l w with
  | (Returned l', _) =>
      currentSortKey l' = Some (Tx.sortKey mi)
      ∧ (∀ id, id ≠ Tx.id mi →
           validity l' !! id = validity l !! id
           ∧ errorMessages l' !! id = errorMessages l !! id)
      ∧ (lastConfirmedTxState l' = lastConfirmedTxState l
         ∨ (canBeCached mi = true ∧ ∃ st, lastConfirmedTxState l' = Some (mi, st)))
  | (Thrown _, _) => True
  end.
Proof.
  unfold iteration, applyInteraction. unfold_M.
  destruct (verify warp ctx0 mi (at_interaction mi l) w) as [[[]|e] w0]; simpl;
    [|by auto|done].
  assert (∀ m : M World Flow,
    match m w0 with
    | (Returned flow, _) =>
        currentSortKey (variables flow) = currentSortKey (at_interaction mi l)
        ∧ shouldBreakAfterEvolve (variables flow)
          = shouldBreakAfterEvolve (at_interaction mi l)
        ∧ (∀ id, id ≠ Tx.id mi →
             validity (variables flow) !! id = validity (at_interaction mi l) !! id
             ∧ errorMessages (variables flow) !! id
               = errorMessages (at_interaction mi l) !! id)
        ∧ (lastConfirmedTxState (variables flow)
           = lastConfirmedTxState (at_interaction mi l)
           ∨ (canBeCached mi = true
              ∧ ∃ st, lastConfirmedTxState (variables flow) = Some (mi, st)))
    | (Thrown _, _) => True
    end →
    match
      (let (c, w') := m w0 in
       match c with
       | Returned a =>
           match a with
           | Continue l0 => λ w1, (Returned l0, w1)
           | Next l0 =>
               afterInteraction warp (contract_txId ctx0) (contract_isRoot ctx0) i n mi l0
           | Reject e _ => λ w1, (Thrown e, w1)
           end w'
       | Thrown e => (Thrown e, w')
       end)
    with
    | (Returned l', _) =>
        currentSortKey l' = Some (Tx.sortKey mi)
        ∧ (∀ id, id ≠ Tx.id mi →
             validity l' !! id = validity l !! id
             ∧ errorMessages l' !! id = errorMessages l !! id)
        ∧ (lastConfirmedTxState l' = lastConfirmedTxState l
           ∨ (canBeCached mi = true ∧ ∃ st, lastConfirmedTxState l' = Some (mi, st)))
    | (Thrown _, _) => True
    end) as Hflow.
  { intros m. destruct (m w0) as [[[l0|l0|e l0]|e] w1]; simpl; try done.
    - intros (Hk & _ & Hframe & Hlast). done.
    - intros (Hk & _ & Hframe & Hlast).
      pose proof (afterInteraction_changes (contract_txId ctx0) (contract_isRoot ctx0)
                    i n mi l0 w1) as Hafter.
      destruct (afterInteraction warp _ _ i n mi l0 w1) as [[l'|e] w2]; [|done].
      destruct Hafter as (Hk' & Hframe' & Hlast').
      split; [by rewrite Hk', Hk|]. split.
      + intros id Hid. destruct (Hframe id Hid) as [Hv He].
        destruct (Hframe' id Hid) as [Hv' He']. by rewrite Hv', He', Hv, He.
      + by rewrite Hlast'. }
  destruct (isInteractWrite warp mi _ && internalWrites _).
  - apply Hflow. apply internalWrite_changes.
  - apply Hflow. apply directInteraction_changes.
Qed.

(** Once [shouldBreakAfterEvolve] is set nothing more is evaluated. *)
Lemma loop_break ctx0 i n remaining l w :
  shouldBreakAfterEvolve l = true → loop warp ctx0 i n remaining l w = (Returned l, w).
Proof. intros Hb. destruct remaining; cbn [loop]; [done|]. by rewrite Hb. Qed.

Lemma loop_changes ctx0 remaining : ∀ i n l w,
  match loop warp ctx0 i n remaining l w with
  | (Returned l', _) =>
      (∀ id, id ∉ Tx.id <$> remaining →
         validity l' !! id = validity l !! id
         ∧ errorMessages l' !! id = errorMessages l !! id)
      ∧ (lastConfirmedTxState l' = lastConfirmedTxState l
         ∨ ∃ tx st, tx ∈ remaining ∧ canBeCached tx = true
                    ∧ lastConfirmedTxState l' = Some (tx, st))
      ∧ (((remaining = [] ∨ shouldBreakAfterEvolve l = true) ∧ l' = l)
         ∨ ∃ tx, tx ∈ remaining ∧ currentSortKey l' = Some (Tx.sortKey tx))
  | (Thrown _, _) => True
  end.
Proof.
  induction remaining as [|mi rest IH]; intros i n l w.
  - simpl. split; [done|]. split; [by left|]. left. split; [by left|done].
  - cbn [loop]. destruct (shouldBreakAfterEvolve l) eqn:Hbreak.
    { simpl. split; [done|]. split; [by left|]. left. split; [by right|done]. }
    unfold_M. destruct (signal_aborted warp w); [done|].
    pose proof (iteration_changes ctx0 i n mi l w) as Hiter.
    destruct (iteration warp ctx0 i n mi l w) as [[l1|e] w1]; [|done].
    destruct Hiter as (Hk & Hframe & Hlast).
    specialize (IH (S i) n l1 w1).
    destruct (loop warp ctx0 (S i) n rest l1 w1) as [[l'|e] w']; [|done].
    destruct IH as (Hframe' & Hlast' & Hk'). split; [|split].
    + intros id Hid. rewrite fmap_cons, not_elem_of_cons in Hid.
      destruct Hid as [Hne Hid].
      destruct (Hframe' id Hid) as [Hv' He']. destruct (Hframe id Hne) as [Hv He].
      by rewrite Hv', He', Hv, He.
    + destruct Hlast' as [Hsame|(tx & st & Hin & Hc & Hl')].
      * rewrite Hsame. destruct Hlast as [?|[Hc [st Hst]]]; [by left|].
        right. exists mi, st. split; [by left|done].
      * right. exists tx, st. split; [by right|done].
    + right. destruct Hk' as [[_ ->]|(tx & Hin & Hl')].
      * exists mi. split; [by left|done].
      * exists tx. split; [by right|done].
Qed.

Lemma loop_app ctx0 before after : ∀ i n l w,
  loop warp ctx0 i n (before ++ after) l w
  = match loop warp ctx0 i n before l w with
    | (Returned l', w') => loop warp ctx0 (i + length before) n after l' w'
    | (Thrown e, w') => (Thrown e, w')
    end.
Proof.
  induction before as [|mi before IH]; intros i n l w.
  - simpl. by rewrite Nat.add_0_r.
  - cbn [app loop]. destruct (shouldBreakAfterEvolve l) eqn:Hbreak.
    { simpl. by rewrite loop_break. }
    unfold_M. destruct (signal_aborted warp w); [done|].
    destruct (iteration warp ctx0 i n mi l w) as [[l1|e] w1]; [|done].
    rewrite IH. cbn [length]. by replace (S i + length before)%nat
      with (i + S (length before))%nat by lia.
Qed.

End loop_facts.

(** X10: [doReadState] changes the [validity] and [errorMessages] entries
    of the missing interactions only: for every transaction id that is
    not the id of one of the interactions it was given, the result holds
    the entry of the base state, or no entry when the base state has none.
    Entries cached by earlier evaluations are never removed or rewritten
    by a later one. *)
Theorem doReadState_keeps_other_entries {State Input Result World : Type}
    (warp : @DefaultStateEvaluator.Collaborators State Input Result World)
    (onStateEvaluated :
       Tx.t → @DefaultStateEvaluator.ExecutionContext State Input Result World
       → EvalStateResult.t State → M World unit)
    (missingInteractions : list Tx.t) (baseState : EvalStateResult.t State)
    (ctx : @DefaultStateEvaluator.ExecutionContext State Input Result World)
    (w w' : World) (r : SortKeyCacheResult.t (EvalStateResult.t State)) (id : string) :
  DefaultStateEvaluator.doReadState warp onStateEvaluated missingInteractions baseState
    ctx w = (Returned r, w') →
  id ∉ Tx.id <$> missingInteractions →
  EvalStateResult.validity (SortKeyCacheResult.cachedValue r) !! id
  = EvalStateResult.validity baseState !! id
  ∧ EvalStateResult.errorMessages (SortKeyCacheResult.cachedValue r) !! id
    = EvalStateResult.errorMessages baseState !! id.
Proof.
  unfold DefaultStateEvaluator.doReadState. unfold_M. simpl.
  match goal with
  | |- context [DefaultStateEvaluator.loop warp ctx 0 ?n missingInteractions ?l ?w0] =>
      pose proof (loop_changes warp ctx missingInteractions 0 n l w0) as Hloop;
      destruct (DefaultStateEvaluator.loop warp ctx 0 n missingInteractions l w0)
        as [[l'|e] w1]; [|done]
  end.
  destruct Hloop as (Hframe & _ & _). simpl in Hframe.
  destruct (DefaultStateEvaluator.lastConfirmedTxState l') as [[tx st]|].
  - destruct (onStateEvaluated tx _ _ w1) as [[[]|e] w2]; [|done].
    intros [= <- <-] Hid. simpl. by apply Hframe.
  - intros [= <- <-] Hid. simpl. by apply Hframe.
Qed.

(** X11: interactions whose confirmation status is defined and not
    ['confirmed'] are evaluated but never persisted: when no missing
    interaction can be cached, [doReadState] never calls
    [onStateEvaluated], so that it returns the same result and leaves the
    same world whatever [onStateEvaluated] does. In general the
    transaction handed to [onStateEvaluated] is one of the missing
    interactions that can be cached. *)
Theorem unconfirmed_never_persisted {State Input Result World : Type}
    (warp : @DefaultStateEvaluator.Collaborators State Input Result World)
    (onStateEvaluated onStateEvaluated' :
       Tx.t → @DefaultStateEvaluator.ExecutionContext State Input Result World
       → EvalStateResult.t State → M World unit)
    (missingInteractions : list Tx.t) (baseState : EvalStateResult.t State)
    (ctx : @DefaultStateEvaluator.ExecutionContext State Input Result World)
    (w : World) :
  (∀ tx, tx ∈ missingInteractions → canBeCached tx = true →
     ∀ ctx' st, onStateEvaluated tx ctx' st = onStateEvaluated' tx ctx' st) →
  DefaultStateEvaluator.doReadState warp onStateEvaluated missingInteractions baseState
    ctx w
  = DefaultStateEvaluator.doReadState warp onStateEvaluated' missingInteractions baseState
      ctx w.
Proof.
  intros Hsame. unfold DefaultStateEvaluator.doReadState. unfold_M. simpl.
  match goal with
  | |- context [DefaultStateEvaluator.loop warp ctx 0 ?n missingInteractions ?l ?w0] =>
      pose proof (loop_changes warp ctx missingInteractions 0 n l w0) as Hloop;
      destruct (DefaultStateEvaluator.loop warp ctx 0 n missingInteractions l w0)
        as [[l'|e] w1]; [|done]
  end.
  destruct Hloop as (_ & Hlast & _). simpl in Hlast.
  destruct Hlast as [->|(tx & st & Hin & Hc & ->)]; [done|].
  by rewrite (Hsame tx Hin Hc).
Qed.

(** X12: the sort key of the result of [doReadState]: without missing
    interactions it is [null] and the cached value is the base state;
    with missing interactions it is the sort key of one of them, so never
    [null]. *)
Theorem doReadState_sort_key {State Input Result World : Type}
    (warp : @DefaultStateEvaluator.Collaborators State Input Result World)
    (onStateEvaluated :
       Tx.t → @DefaultStateEvaluator.ExecutionContext State Input Result World
       → EvalStateResult.t State → M World unit)
    (missingInteractions : list Tx.t) (baseState : EvalStateResult.t State)
    (ctx : @DefaultStateEvaluator.ExecutionContext State Input Result World)
    (w w' : World) (r : SortKeyCacheResult.t (EvalStateResult.t State)) :
  DefaultStateEvaluator.doReadState warp onStateEvaluated missingInteractions baseState
    ctx w = (Returned r, w') →
  (missingInteractions = [] →
     SortKeyCacheResult.sortKey r = None
     ∧ EvalStateResult.state (SortKeyCacheResult.cachedValue r)
       = EvalStateResult.state baseState
     ∧ EvalStateResult.validity (SortKeyCacheResult.cachedValue r)
       = EvalStateResult.validity baseState
     ∧ EvalStateResult.errorMessages (SortKeyCacheResult.cachedValue r)
       = EvalStateResult.errorMessages baseState)
  ∧ (missingInteractions ≠ [] →
     ∃ tx, tx ∈ missingInteractions
           ∧ SortKeyCacheResult.sortKey r = Some (Tx.sortKey tx)).
Proof.
  unfold DefaultStateEvaluator.doReadState. unfold_M. simpl.
  match goal with
  | |- context [DefaultStateEvaluator.loop warp ctx 0 ?n missingInteractions ?l ?w0] =>
      pose proof (loop_changes warp ctx missingInteractions 0 n l w0) as Hloop;
      destruct (DefaultStateEvaluator.loop warp ctx 0 n missingInteractions l w0)
        as [[l'|e] w1]; [|done]
  end.
  destruct Hloop as (_ & _ & Hk). simpl in Hk. intros Hrun.
  assert (SortKeyCacheResult.mk (DefaultStateEvaluator.currentSortKey l')
            (EvalStateResult.mk (DefaultStateEvaluator.currentState l')
               (DefaultStateEvaluator.validity l')
               (DefaultStateEvaluator.errorMessages l')) = r) as <-.
  { destruct (DefaultStateEvaluator.lastConfirmedTxState l') as [[tx st]|].
    - match type of Hrun with
      | context [onStateEvaluated tx ?c ?s w1] =>
          destruct (onStateEvaluated tx c s w1) as [[[]|e] w2]; [|done]
      end.
      by injection Hrun.
    - by injection Hrun. }
  simpl. split.
  - intros ->. destruct Hk as [[_ ->]|(tx & Hin & _)]; [done|].
    by apply elem_of_nil in Hin.
  - intros Hne. destruct Hk as [[[->|?] _]|?]; done.
Qed.

(** X13: the abort signal is tested before every interaction: when it is
    set once the interactions [before] have been evaluated, and
    interactions remain, [doReadState] rejects with an [AbortError] in the
    world the evaluation of [before] left; [onStateEvaluated] is not
    called, so nothing evaluated so far is persisted by it. *)
Theorem abort_between_interactions {State Input Result World : Type}
    (warp : @DefaultStateEvaluator.Collaborators State Input Result World)
    (onStateEvaluated :
       Tx.t → @DefaultStateEvaluator.ExecutionContext State Input Result World
       → EvalStateResult.t State → M World unit)
    (before : list Tx.t) (next : Tx.t) (after : list Tx.t)
    (baseState : EvalStateResult.t State)
    (ctx : @DefaultStateEvaluator.ExecutionContext State Input Result World)
    (w w1 : World) (l1 : @DefaultStateEvaluator.Loop State Input Result World) :
  DefaultStateEvaluator.loop warp ctx 0 (length (before ++ next :: after)) before
    {| DefaultStateEvaluator.executionContext := ctx;
       DefaultStateEvaluator.currentState := EvalStateResult.state baseState;
       DefaultStateEvaluator.currentSortKey := None;
       DefaultStateEvaluator.validity := EvalStateResult.validity baseState;
       DefaultStateEvaluator.errorMessages := EvalStateResult.errorMessages baseState;
       DefaultStateEvaluator.errorMessage := None;
       DefaultStateEvaluator.lastConfirmedTxState := None;
       DefaultStateEvaluator.shouldBreakAfterEvolve := false |}
    (DefaultStateEvaluator.initState (DefaultStateEvaluator.handler ctx)
       (EvalStateResult.state baseState) w)
  = (Returned l1, w1) →
  DefaultStateEvaluator.shouldBreakAfterEvolve l1 = false →
  DefaultStateEvaluator.signal_aborted warp w1 = true →
  DefaultStateEvaluator.doReadState warp onStateEvaluated (before ++ next :: after)
    baseState ctx w
  = (Thrown (JsError.mk "AbortError" "Abort signal in DefaultStateEvaluator" None None),
     w1).
Proof.
  intros Hbefore Hbreak Habort.
  unfold DefaultStateEvaluator.doReadState. unfold_M. simpl.
  rewrite (loop_app warp), Hbefore. cbn [DefaultStateEvaluator.loop].
  rewrite Hbreak. unfold_M. by rewrite Habort.
Qed.

(** X14: an error thrown by an execution context modifier after an
    interaction was applied. When it is a [ContractError] of subtype
    ['unsafeClientSkip'] or a [NonWhitelistedSourceError], the interaction
    is marked invalid with the error's message, the current state is
    kept, and the loop stops: no later interaction is evaluated. Any other
    error of a modifier rejects the evaluation. *)
Theorem modifier_error_stops_evaluation {State Input Result World : Type}
    (warp : @DefaultStateEvaluator.Collaborators State Input Result World)
    (ctx0 ctx' : @DefaultStateEvaluator.ExecutionContext State Input Result World)
    (i n : nat) (mi : Tx.t)
    (l : @DefaultStateEvaluator.Loop State Input Result World)
    (w w2 : World) (e : JsError.t) :
  DefaultStateEvaluator.applyModifiers
    (DefaultStateEvaluator.executionContextModifiers warp)
    (DefaultStateEvaluator.currentState l) (DefaultStateEvaluator.executionContext l)
    (match DefaultStateEvaluator.progressPlugin warp with
     | Some process => process n i w
     | None => w
     end) = ((ctx', Some e), w2) →
  (DefaultStateEvaluator.stops_after_evolve e = false →
     DefaultStateEvaluator.afterInteraction warp
       (DefaultStateEvaluator.contract_txId ctx0)
       (DefaultStateEvaluator.contract_isRoot ctx0) i n mi l w = (Thrown e, w2))
  ∧ (DefaultStateEvaluator.stops_after_evolve e = true →
     ∀ l' w',
       DefaultStateEvaluator.afterInteraction warp
         (DefaultStateEvaluator.contract_txId ctx0)
         (DefaultStateEvaluator.contract_isRoot ctx0) i n mi l w = (Returned l', w') →
       DefaultStateEvaluator.shouldBreakAfterEvolve l' = true
       ∧ DefaultStateEvaluator.validity l' !! Tx.id mi = Some (Some false)
       ∧ DefaultStateEvaluator.errorMessages l' !! Tx.id mi
         = Some (Some (ErrString (JsError.message e)))
       ∧ DefaultStateEvaluator.currentState l' = DefaultStateEvaluator.currentState l
       ∧ ∀ k rest w'',
           DefaultStateEvaluator.loop warp ctx0 k n rest l' w'' = (Returned l', w'')).
Proof.
  intros Hmod. unfold DefaultStateEvaluator.afterInteraction. unfold_M.
  split; intros Hstops.
  - destruct (DefaultStateEvaluator.progressPlugin warp); simpl;
      rewrite Hmod; simpl; by rewrite Hstops.
  - intros l' w'.
    destruct (DefaultStateEvaluator.progressPlugin warp); simpl;
      rewrite Hmod; simpl; rewrite Hstops; simpl.
    all: split_M; intros [= <- <-]; simpl.
    all: unfold rset; rewrite !lookup_insert_eq.
    all: do 4 (split; [done|]); intros k rest w''; by apply loop_break.
Qed.

(** ** The JavaScript handler: failures *)

(** X15: whenever [JsHandlerApi.handle] returns a result whose type is
    not ['ok'], the result carries the incoming state, [result] is [null]
    and an error message is set; a result of type ['ok'] has no error
    message and its state is the incoming state or a truthy state returned
    by the contract. In every case, thrown or returned, the global object
    is left with the interaction as its active transaction and the
    interaction's caller. *)
Theorem handle_failure_keeps_state {State Input Result KV : Type}
    (kv_open kv_commit kv_rollback kv_close : KV → option JsHandlerApi.JsThrown * KV)
    (contractFunction :
       State → JsHandlerApi.ContractInteraction Input → KV
       → JsHandlerApi.RaceOutcome State Result * KV)
    (state_truthy : State → bool)
    (stringify : option (JsHandlerApi.HandlerResult State Result) → string)
    (engine_stack : string → option string)
    (error_toString : JsError.t → string)
    (currentResult : EvalStateResult.t State)
    (interaction : JsHandlerApi.ContractInteraction Input) (interactionTx : Tx.t)
    (swGlobal : @JsHandlerApi.SmartWeaveGlobal KV) :
  let outcome :=
    JsHandlerApi.handle kv_open kv_commit kv_rollback kv_close contractFunction
      state_truthy stringify engine_stack error_toString
      currentResult interaction interactionTx swGlobal in
  JsHandlerApi._activeTx outcome.2 = Some interactionTx
  ∧ JsHandlerApi.swCaller outcome.2 = Some (JsHandlerApi.caller interaction)
  ∧ ∀ r, outcome.1 = Returned r →
      (InteractionResult.type r ≠ type_ok →
         InteractionResult.state r = EvalStateResult.state currentResult
         ∧ InteractionResult.result r = ResultNull
         ∧ is_Some (InteractionResult.errorMessage r))
      ∧ (InteractionResult.type r = type_ok →
         InteractionResult.errorMessage r = None
         ∧ (InteractionResult.state r = EvalStateResult.state currentResult
            ∨ state_truthy (InteractionResult.state r) = true)).
Proof.
  unfold JsHandlerApi.handle, JsHandlerApi.try_block, JsHandlerApi.classify.
  split_M.
  all: split; [done|]; split; [done|]; intros ? [= <-]; simpl.
  all: split; [intros Htype|intros Htype]; try done.
  all: try (split; [done|]; split; [done|]; by eexists).
  all: split; [done|]; auto.
Qed.

(** X16: [JsHandlerApi.handle] turns every failure of the contract
    function and of opening or committing the key-value storage into a
    returned result: provided the rollback and the close of the storage
    complete and nothing throws [null] or [undefined], [handle] returns
    and does not throw. *)
Theorem handle_returns {State Input Result KV : Type}
    (kv_open kv_commit kv_rollback kv_close : KV → option JsHandlerApi.JsThrown * KV)
    (contractFunction :
       State → JsHandlerApi.ContractInteraction Input → KV
       → JsHandlerApi.RaceOutcome State Result * KV)
    (state_truthy : State → bool)
    (stringify : option (JsHandlerApi.HandlerResult State Result) → string)
    (engine_stack : string → option string)
    (error_toString : JsError.t → string)
    (currentResult : EvalStateResult.t State)
    (interaction : JsHandlerApi.ContractInteraction Input) (interactionTx : Tx.t)
    (swGlobal : @JsHandlerApi.SmartWeaveGlobal KV) :
  (∀ store, (kv_rollback store).1 = None) →
  (∀ store, (kv_close store).1 = None) →
  (∀ store, (kv_open store).1 ≠ Some JsHandlerApi.ThrownNullish) →
  (∀ store, (kv_commit store).1 ≠ Some JsHandlerApi.ThrownNullish) →
  (∀ st store,
     (contractFunction st interaction store).1
     ≠ JsHandlerApi.Rejects JsHandlerApi.ThrownNullish) →
  ∃ r,
    (JsHandlerApi.handle kv_open kv_commit kv_rollback kv_close contractFunction
       state_truthy stringify engine_stack error_toString
       currentResult interaction interactionTx swGlobal).1 = Returned r.
Proof.
  intros Hrollback Hclose Hopen Hcommit Hcontract.
  unfold JsHandlerApi.handle, JsHandlerApi.try_block, JsHandlerApi.classify.
  split_M; try (by eexists);
    repeat match goal with
       | H : kv_rollback ?s = (Some _, _) |- _ =>
           pose proof (Hrollback s) as Hr; rewrite H in Hr; done
       | H : kv_close ?s = (Some _, _) |- _ =>
           pose proof (Hclose s) as Hc; rewrite H in Hc; done
       | H : kv_open ?s = (Some JsHandlerApi.ThrownNullish, _) |- _ =>
           pose proof (Hopen s) as Ho; rewrite H in Ho; done
       | H : kv_commit ?s = (Some JsHandlerApi.ThrownNullish, _) |- _ =>
           pose proof (Hcommit s) as Hc; rewrite H in Hc; done
       | H : contractFunction ?st _ ?s = (JsHandlerApi.Rejects JsHandlerApi.ThrownNullish, _)
         |- _ =>
           pose proof (Hcontract st s) as Hc; rewrite H in Hc; done
       end.
Qed.

(** X17: the [finally] block of [JsHandlerApi.handle] decides: when
    closing the key-value storage throws, [handle] throws that error,
    whatever the contract function did and whatever result the [try] or
    the [catch] block had produced. *)
Theorem handle_close_failure {State Input Result KV : Type}
    (kv_open kv_commit kv_rollback kv_close : KV → option JsHandlerApi.JsThrown * KV)
    (contractFunction :
       State → JsHandlerApi.ContractInteraction Input → KV
       → JsHandlerApi.RaceOutcome State Result * KV)
    (state_truthy : State → bool)
    (stringify : option (JsHandlerApi.HandlerResult State Result) → string)
    (engine_stack : string → option string)
    (error_toString : JsError.t → string)
    (currentResult : EvalStateResult.t State)
    (interaction : JsHandlerApi.ContractInteraction Input) (interactionTx : Tx.t)
    (swGlobal : @JsHandlerApi.SmartWeaveGlobal KV) (err : JsHandlerApi.JsThrown) :
  (∀ store, (kv_close store).1 = Some err) →
  (JsHandlerApi.handle kv_open kv_commit kv_rollback kv_close contractFunction
     state_truthy stringify engine_stack error_toString
     currentResult interaction interactionTx swGlobal).1 = Thrown err.
Proof.
  intros Hclose.
  unfold JsHandlerApi.handle, JsHandlerApi.try_block, JsHandlerApi.classify.
  split_M;
    repeat match goal with
       | H : kv_close ?s = (_, _) |- _ =>
           pose proof (Hclose s) as Hc; rewrite H in Hc; simpl in Hc;
           clear H; simplify_eq
       end; done.
Qed.

(** ** The interaction loaders: success and memoization *)

Section loader_more_facts.
Import WarpGatewayInteractionsLoader.

Lemma rev_app_app (s1 s2 acc : string) :
  String.rev_app (s1 +:+ s2) acc = String.rev_app s2 (String.rev_app s1 acc).
Proof. revert acc. induction s1 as [|a s1 IH]; intros acc; simpl; [done|apply IH]. Qed.

Lemma rev_app_rev_app (s1 s2 s3 : string) :
  String.rev_app (String.rev_app s1 s2) s3 = String.rev_app s2 (s1 +:+ s3).
Proof.
  revert s2 s3. induction s1 as [|a s1 IH]; intros s2 s3; simpl; [done|].
  by rewrite IH.
Qed.

Lemma append_empty_r (s : string) : s +:+ "" = s.
Proof.
  induction s as [|a s' IH]; [done|].
  change (String a (s' +:+ "") = String a s'). by rewrite IH.
Qed.

Lemma rev_involutive (s : string) : String.rev (String.rev s) = s.
Proof. unfold String.rev. rewrite rev_app_rev_app. simpl. apply append_empty_r. Qed.

Lemma stripTrailingSlash_slash (s : string) : stripTrailingSlash (s +:+ "/") = s.
Proof.
  unfold stripTrailingSlash, String.rev. rewrite rev_app_app. simpl.
  apply rev_involutive.
Qed.

Lemma load_loop_ext fetch baseUrl baseUrl' confirmationStatus source fuel
    contractId fromSortKey toSortKey page gathered :
  stripTrailingSlash baseUrl = stripTrailingSlash baseUrl' →
  load_loop fetch baseUrl confirmationStatus source fuel contractId fromSortKey toSortKey
    page gathered
  = load_loop fetch baseUrl' confirmationStatus source fuel contractId fromSortKey toSortKey
      page gathered.
Proof.
  intros Hurl. revert page gathered.
  induction fuel as [|fuel IH]; intros page gathered; [done|].
  cbn [load_loop]. unfold query. rewrite Hurl.
  destruct (request fetch _) as [response|e]; [|done].
  case_bool_decide; [apply IH|done].
Qed.

End loader_more_facts.

(** X18: when the gateway answers every page request and reports the
    same number [totalPages] of pages each time, [load] requests the
    pages 1 to [totalPages] (one page when [totalPages] is 0 or 1, the
    loop being a [do ... while]) and returns the interactions of these
    pages in page order, each with the confirmation status the gateway
    gave for it. *)
Theorem load_returns_all_pages
    (fetch : WarpGatewayInteractionsLoader.Query → WarpGatewayInteractionsLoader.FetchResult)
    (baseUrl : string)
    (confirmationStatus : option WarpGatewayInteractionsLoader.ConfirmationStatus)
    (source : option string) (fuel : nat) (contractId : string)
    (fromSortKey toSortKey : option string)
    (pages : list WarpGatewayInteractionsLoader.GatewayResponse) (totalPages : Z) :
  (∀ j response, pages !! j = Some response →
     WarpGatewayInteractionsLoader.request fetch
       (WarpGatewayInteractionsLoader.query baseUrl confirmationStatus source
          contractId fromSortKey toSortKey (1 + Z.of_nat j)) = Returned response
     ∧ WarpGatewayInteractionsLoader.paging_pages response = totalPages) →
  Z.of_nat (length pages) = Z.max 1 totalPages →
  (length pages ≤ fuel)%nat →
  WarpGatewayInteractionsLoader.load fetch baseUrl confirmationStatus source fuel
    contractId fromSortKey toSortKey
  = Some (Returned
            (pages ≫= λ response,
               WarpGatewayInteractionsLoader.with_status
                 <$> WarpGatewayInteractionsLoader.interactions response))
  ∧ ∀ tx, tx ∈ (pages ≫= λ response,
                  WarpGatewayInteractionsLoader.with_status
                    <$> WarpGatewayInteractionsLoader.interactions response) →
      ∃ response gi, response ∈ pages
        ∧ gi ∈ WarpGatewayInteractionsLoader.interactions response
        ∧ Tx.id tx = Tx.id (WarpGatewayInteractionsLoader.interaction gi)
        ∧ Tx.sortKey tx = Tx.sortKey (WarpGatewayInteractionsLoader.interaction gi)
        ∧ Tx.confirmationStatus tx = WarpGatewayInteractionsLoader.status gi.
Proof.
  intros Hpages Hlen Hfuel. split.
  - unfold WarpGatewayInteractionsLoader.load.
    rewrite (load_loop_pages fetch baseUrl confirmationStatus source pages totalPages);
      [done| | |lia|done].
    + intros ->. simpl in Hlen. lia.
    + intros j response Hj. destruct (Hpages j response Hj) as [Hreq Htotal].
      split; [|done]. rewrite <- Hreq. do 2 f_equal.
  - intros tx (response & Hin & Hresp)%list_elem_of_bind.
    apply list_elem_of_fmap in Hin as (gi & -> & Hgi).
    exists response, gi. done.
Qed.

(** X19: a trailing slash of the gateway address makes no difference:
    [stripTrailingSlash] removes one slash at the end, so a loader built
    with the address followed by a slash sends the requests, and returns
    what, the loader built with the address itself does. *)
Theorem trailing_slash_is_ignored
    (fetch : WarpGatewayInteractionsLoader.Query → WarpGatewayInteractionsLoader.FetchResult)
    (baseUrl : string)
    (confirmationStatus : option WarpGatewayInteractionsLoader.ConfirmationStatus)
    (source : option string) (fuel : nat) (contractId : string)
    (fromSortKey toSortKey : option string) :
  WarpGatewayInteractionsLoader.stripTrailingSlash (baseUrl +:+ "/") = baseUrl
  ∧ (WarpGatewayInteractionsLoader.stripTrailingSlash baseUrl = baseUrl →
     (∀ page,
        WarpGatewayInteractionsLoader.query (baseUrl +:+ "/") confirmationStatus source
          contractId fromSortKey toSortKey page
        = WarpGatewayInteractionsLoader.query baseUrl confirmationStatus source
            contractId fromSortKey toSortKey page)
     ∧ WarpGatewayInteractionsLoader.load fetch (baseUrl +:+ "/") confirmationStatus
         source fuel contractId fromSortKey toSortKey
       = WarpGatewayInteractionsLoader.load fetch baseUrl confirmationStatus
           source fuel contractId fromSortKey toSortKey).
Proof.
  split; [apply stripTrailingSlash_slash|].
  intros Hplain. split.
  - intros page. unfold WarpGatewayInteractionsLoader.query.
    by rewrite stripTrailingSlash_slash, Hplain.
  - apply load_loop_ext. by rewrite stripTrailingSlash_slash, Hplain.
Qed.

(** X20: the memo of [CacheableInteractionsLoader] only grows by
    appending: after any [load], the list memoized for any contract
    starts with the list that was memoized before. A list that [load]
    returns is the list then memoized for the contract; when the delegate
    throws, [load] throws that error and the memo is left as it was, so
    that a failure is not cached. After [clearCache] a [load] asks the
    delegate for the requested range again. *)
Theorem memo_grows_by_appending {Delegate : Type}
    (delegate_load :
       string → option string → option string → Delegate
       → Completion JsError.t (list Tx.t) * Delegate)
    (localeCompare : string → string → Z)
    (contractTxId : string) (fromSortKey toSortKey : option string)
    (this : @CacheableInteractionsLoader.t Delegate) :
  let outcome :=
    CacheableInteractionsLoader.load delegate_load localeCompare
      contractTxId fromSortKey toSortKey this in
  (∀ c cached,
     CacheableInteractionsLoader.interactionsCache this !! c = Some cached →
     ∃ more, CacheableInteractionsLoader.interactionsCache outcome.2 !! c
             = Some (cached ++ more))
  ∧ (∀ interactions, outcome.1 = Returned interactions →
       CacheableInteractionsLoader.interactionsCache outcome.2 !! contractTxId
       = Some interactions)
  ∧ (∀ e, outcome.1 = Thrown e →
       CacheableInteractionsLoader.interactionsCache outcome.2
       = CacheableInteractionsLoader.interactionsCache this)
  ∧ CacheableInteractionsLoader.load delegate_load localeCompare
      contractTxId fromSortKey toSortKey (CacheableInteractionsLoader.clearCache this)
    = match delegate_load contractTxId fromSortKey toSortKey
              (CacheableInteractionsLoader.delegate this) with
      | (Returned interactions, d) =>
          (Returned interactions,
           CacheableInteractionsLoader.mk {[ contractTxId := interactions ]} d)
      | (Thrown e, d) => (Thrown e, CacheableInteractionsLoader.mk ∅ d)
      end.
Proof.
  unfold CacheableInteractionsLoader.load. simpl.
  split; [|split; [|split]].
  - intros c cached Hc.
    destruct (CacheableInteractionsLoader.interactionsCache this !! contractTxId)
      as [cachedInteractions|] eqn:Hmemo.
    + case_bool_decide.
      * destruct (delegate_load _ _ _ _) as [[missing|e] d]; simpl.
        -- destruct (decide (c = contractTxId)) as [->|Hne].
           ++ rewrite lookup_insert_eq. exists missing. by simplify_eq.
           ++ rewrite lookup_insert_ne by done. exists []. by rewrite app_nil_r.
        -- exists []. by rewrite app_nil_r.
      * exists []. by rewrite app_nil_r.
    + destruct (delegate_load _ _ _ _) as [[interactions|e] d]; simpl.
      * rewrite lookup_insert_ne by (intros ->; congruence).
        exists []. by rewrite app_nil_r.
      * exists []. by rewrite app_nil_r.
  - intros interactions.
    destruct (CacheableInteractionsLoader.interactionsCache this !! contractTxId)
      as [cachedInteractions|] eqn:Hmemo.
    + case_bool_decide.
      * destruct (delegate_load _ _ _ _) as [[missing|e] d]; simpl; [|done].
        intros [= <-]. by rewrite lookup_insert_eq.
      * simpl. by intros [= <-].
    + destruct (delegate_load _ _ _ _) as [[interactions'|e] d]; simpl; [|done].
      intros [= <-]. by rewrite lookup_insert_eq.
  - intros e.
    destruct (CacheableInteractionsLoader.interactionsCache this !! contractTxId)
      as [cachedInteractions|] eqn:Hmemo.
    + case_bool_decide; [|done].
      by destruct (delegate_load _ _ _ _) as [[missing|e'] d].
    + by destruct (delegate_load _ _ _ _) as [[interactions'|e'] d].
  - rewrite lookup_empty.
    destruct (delegate_load _ _ _ _) as [[interactions|e] d]; by rewrite ?insert_empty.
Qed.

(** ** The handler executor factory *)

Section factory_facts.
Import HandlerExecutorFactory.

Lemma stops_after_evolve_skipped (e : JsError.t) :
  DefaultStateEvaluator.stops_after_evolve e = true →
  DefaultStateEvaluator.skipped_in_internal_write e = true.
Proof.
  unfold DefaultStateEvaluator.stops_after_evolve,
    DefaultStateEvaluator.skipped_in_internal_write.
  repeat case_bool_decide; simpl; done.
Qed.

(** The ways [create] can end. *)
Lemma create_cases {Handler : Type}
    (hasPlugin : string → bool)
    (blacklistPlugin_process : string → Completion JsError.t bool)
    (normalizeContractSource : option string → bool → string)
    (build : Engine → option string → Completion JsError.t Handler)
    (cd : ContractDefinition) (opts : EvaluationOptions) :
  let blacklisted :=
    hasPlugin "contract-blacklist" = true
    ∧ blacklistPlugin_process (txId cd) = Returned true in
  let notWhitelisted :=
    whitelistSources opts ≠ [] ∧ srcTxId cd ∉ whitelistSources opts in
  let unsafeSkipped :=
    contractType cd ≠ "wasm"
    ∧ includes (normalizeContractSource (src cd) (hasPlugin "vm2")) "unsafeClient" = true
    ∧ unsafeClient opts = "skip" in
  let outcome :=
    create hasPlugin blacklistPlugin_process normalizeContractSource (Returned tt) build
      cd opts in
  (blacklisted ∧ ∃ msg, outcome = Thrown (ContractError msg (Some "blacklistedSkip")))
  ∨ (¬ blacklisted ∧ notWhitelisted
     ∧ ∃ msg, outcome = Thrown (NonWhitelistedSourceError msg))
  ∨ (¬ blacklisted ∧ ¬ notWhitelisted ∧ unsafeSkipped
     ∧ ∃ msg, outcome = Thrown (ContractError msg (Some "unsafeClientSkip")))
  ∨ (¬ blacklisted ∧ ¬ notWhitelisted ∧ ¬ unsafeSkipped
     ∧ ((∃ msg, outcome = Thrown (Error msg))
        ∨ ∃ engine source, outcome = build engine source)).
Proof.
  intros blacklisted notWhitelisted unsafeSkipped outcome.
  subst outcome. unfold create.
  unfold mbind, Completion_bind, and_then.
  assert (blacklisted ∨ ¬ blacklisted) as [Hbl|Hbl].
  { subst blacklisted. destruct (hasPlugin "contract-blacklist");
      [|right; by intros [? _]].
    destruct (blacklistPlugin_process (txId cd)) as [[]|e];
      [by left|right; intros [_ ?]; congruence..]. }
  { left. split; [done|]. destruct Hbl as [Hplugin Hprocess].
    rewrite Hplugin. unfold blacklistContracts. rewrite Hprocess. by eexists. }
  right.
  assert ((if hasPlugin "contract-blacklist" then blacklistContracts
             blacklistPlugin_process cd else Returned tt) = Returned tt) as ->.
  { destruct (hasPlugin "contract-blacklist") eqn:Hplugin; [|done].
    unfold blacklistContracts.
    destruct (blacklistPlugin_process (txId cd)) as [[]|e] eqn:Hprocess; try done.
    exfalso. by apply Hbl. }
  unfold checkWhiteListContractSources.
  destruct (decide notWhitelisted) as [Hwl|Hwl].
  { left. split; [done|]. split; [done|]. destruct Hwl as [Hne Hnotin].
    rewrite bool_decide_eq_true_2 by (destruct (whitelistSources opts); [done|simpl; lia]).
    rewrite bool_decide_eq_false_2 by done. by eexists. }
  right.
  assert (bool_decide (0 < length (whitelistSources opts))%nat
          && negb (bool_decide (srcTxId cd ∈ whitelistSources opts)) = false) as ->.
  { apply andb_false_iff. destruct (decide (srcTxId cd ∈ whitelistSources opts)) as [Hin|Hin].
    - right. by rewrite bool_decide_eq_true_2.
    - left. apply bool_decide_eq_false_2. intros Hlen. apply Hwl. split; [|done].
      intros Hnil. rewrite Hnil in Hlen. simpl in Hlen. lia. }
  case_bool_decide as Hwasm.
  { right. split; [done|]. split; [done|]. split; [by intros [? _]|].
    case_bool_decide; [right|left]; by eexists _, _ || eexists. }
  unfold unsafeClientCheck.
  destruct (includes _ "unsafeClient") eqn:Hunsafe.
  2:{ right. split; [done|]. split; [done|].
      split; [intros (_ & ? & _); congruence|].
      destruct (negb (allowBigInt opts) && includes _ "BigInt"); [left; by eexists|].
      right. repeat case_match; by eexists _, _. }
  case_bool_decide as Hallow.
  { right. split; [done|]. split; [done|].
    split; [intros (_ & _ & ?); congruence|].
    destruct (negb (allowBigInt opts) && includes _ "BigInt"); [left; by eexists|].
    right. repeat case_match; by eexists _, _. }
  case_bool_decide as Hthrow.
  { right. split; [done|]. split; [done|].
    split; [intros (_ & _ & ?); congruence|]. left. by eexists. }
  case_bool_decide as Hskip.
  - left. split; [done|]. split; [done|]. split; [done|]. by eexists.
  - right. split; [done|]. split; [done|]. split; [by intros (_ & _ & ?)|].
    left. by eexists.
Qed.

End factory_facts.

(** X21: the errors of [HandlerExecutorFactory.create] that the evaluator
    recovers from. Provided the preparation of the global object
    completes and the engine does not itself throw such an error,
    [create] rejects with an error that the internal-write branch of
    [doReadState] skips exactly when the contract is blacklisted, or its
    source is not on a non-empty whitelist, or it is a JavaScript contract
    whose source mentions [unsafeClient] while the [unsafeClient] option
    is ['skip']. Of these, the error for a blacklisted contract is not
    among the errors of a modifier after which the loop stops (it rejects
    the evaluation there); the other two are. *)
Theorem create_skippable_errors {Handler : Type}
    (hasPlugin : string → bool)
    (blacklistPlugin_process : string → Completion JsError.t bool)
    (normalizeContractSource : option string → bool → string)
    (prepare : Completion JsError.t unit)
    (build : HandlerExecutorFactory.Engine → option string → Completion JsError.t Handler)
    (contractDefinition : HandlerExecutorFactory.ContractDefinition)
    (evaluationOptions : HandlerExecutorFactory.EvaluationOptions) :
  prepare = Returned tt →
  (∀ engine source e,
     build engine source = Thrown e →
     DefaultStateEvaluator.skipped_in_internal_write e = false) →
  let blacklisted :=
    hasPlugin "contract-blacklist" = true
    ∧ blacklistPlugin_process (HandlerExecutorFactory.txId contractDefinition)
      = Returned true in
  let notWhitelisted :=
    HandlerExecutorFactory.whitelistSources evaluationOptions ≠ []
    ∧ HandlerExecutorFactory.srcTxId contractDefinition
      ∉ HandlerExecutorFactory.whitelistSources evaluationOptions in
  let unsafeSkipped :=
    HandlerExecutorFactory.contractType contractDefinition ≠ "wasm"
    ∧ HandlerExecutorFactory.includes
        (normalizeContractSource (HandlerExecutorFactory.src contractDefinition)
           (hasPlugin "vm2")) "unsafeClient" = true
    ∧ HandlerExecutorFactory.unsafeClient evaluationOptions = "skip" in
  let outcome :=
    HandlerExecutorFactory.create hasPlugin blacklistPlugin_process
      normalizeContractSource prepare build contractDefinition evaluationOptions in
  ((∃ e, outcome = Thrown e ∧ DefaultStateEvaluator.skipped_in_internal_write e = true)
   ↔ blacklisted ∨ notWhitelisted ∨ unsafeSkipped)
  ∧ ((∃ e, outcome = Thrown e ∧ DefaultStateEvaluator.stops_after_evolve e = true)
     ↔ ¬ blacklisted ∧ (notWhitelisted ∨ unsafeSkipped)).
Proof.
  intros -> Hbuild blacklisted notWhitelisted unsafeSkipped outcome.
  assert (∀ engine source e,
            build engine source = Thrown e →
            DefaultStateEvaluator.stops_after_evolve e = false) as Hbuild'.
  { intros engine source e He. specialize (Hbuild engine source e He).
    destruct (DefaultStateEvaluator.stops_after_evolve e) eqn:Hs; [|done].
    apply stops_after_evolve_skipped in Hs. congruence. }
  pose proof (create_cases hasPlugin blacklistPlugin_process normalizeContractSource
                build contractDefinition evaluationOptions) as Hcases.
  simpl in Hcases. fold blacklisted notWhitelisted unsafeSkipped outcome in Hcases.
  destruct Hcases as [(Hbl & msg & Hout)|[(Hbl & Hwl & msg & Hout)
    |[(Hbl & Hwl & Hskip & msg & Hout)|(Hbl & Hwl & Hskip & Hout)]]].
  - rewrite Hout. split; split.
    + by left.
    + intros _. by eexists.
    + intros (e & [= <-] & He). done.
    + by intros [? _].
  - rewrite Hout. split; split.
    + intros _. right. by left.
    + intros _. by eexists.
    + intros _. split; [done|by left].
    + intros _. by eexists.
  - rewrite Hout. split; split.
    + intros _. right. by right.
    + intros _. by eexists.
    + intros _. split; [done|by right].
    + intros _. by eexists.
  - assert (∀ e, outcome = Thrown e →
              DefaultStateEvaluator.skipped_in_internal_write e = false
              ∧ DefaultStateEvaluator.stops_after_evolve e = false) as Hnot.
    { intros e He. destruct Hout as [[msg Hout]|(engine & source & Hout)].
      - rewrite Hout in He. by injection He as <-.
      - rewrite Hout in He. split; [by eapply Hbuild|by eapply Hbuild']. }
    split; split.
    + intros (e & He & Hs). destruct (Hnot e He). congruence.
    + intros [?|[?|?]]; done.
    + intros (e & He & Hs). destruct (Hnot e He). congruence.
    + intros [_ [?|?]]; done.
Qed.

(** X22: a failure of the blacklist plugin lets the contract through:
    when the plugin's [process] throws, or answers anything but [true],
    [HandlerExecutorFactory.create] does what it does without a blacklist
    plugin. When it answers [true], [create] rejects with a
    [ContractError] of subtype ['blacklistedSkip'] before any other check
    is made, whatever the options and the source are. *)
Theorem blacklist_plugin_failure_is_ignored {Handler : Type}
    (hasPlugin : string → bool)
    (blacklistPlugin_process : string → Completion JsError.t bool)
    (normalizeContractSource : option string → bool → string)
    (prepare : Completion JsError.t unit)
    (build : HandlerExecutorFactory.Engine → option string → Completion JsError.t Handler)
    (contractDefinition : HandlerExecutorFactory.ContractDefinition)
    (evaluationOptions : HandlerExecutorFactory.EvaluationOptions) :
  (blacklistPlugin_process (HandlerExecutorFactory.txId contractDefinition)
     ≠ Returned true →
   HandlerExecutorFactory.create hasPlugin blacklistPlugin_process
     normalizeContractSource prepare build contractDefinition evaluationOptions
   = HandlerExecutorFactory.create
       (λ plugin, if bool_decide (plugin = "contract-blacklist") then false
                  else hasPlugin plugin)
       blacklistPlugin_process normalizeContractSource prepare build
       contractDefinition evaluationOptions)
  ∧ (hasPlugin "contract-blacklist" = true →
     blacklistPlugin_process (HandlerExecutorFactory.txId contractDefinition)
       = Returned true →
     HandlerExecutorFactory.create hasPlugin blacklistPlugin_process
       normalizeContractSource prepare build contractDefinition evaluationOptions
     = Thrown (HandlerExecutorFactory.ContractError
                 ("[SkipUnsafeError] Skipping evaluation of the blacklisted contract "
                    +:+ HandlerExecutorFactory.txId contractDefinition +:+ ".")
                 (Some "blacklistedSkip"))).
Proof.
  unfold HandlerExecutorFactory.create, HandlerExecutorFactory.blacklistContracts.
  split.
  - intros Hnot.
    rewrite (bool_decide_eq_true_2 ("contract-blacklist" = "contract-blacklist")) by done.
    rewrite !(bool_decide_eq_false_2 (_ = "contract-blacklist")) by done.
    destruct (hasPlugin "contract-blacklist"); [|done].
    by destruct (blacklistPlugin_process _) as [[]|e].
  - intros -> ->. done.
Qed.

(** ** The evaluator of inner writes *)

Section inner_writes_facts.
Import InnerWritesEvaluator.

(** Induction on a recorded interaction: the property holds of it when
    it holds of every interaction recorded under one of its foreign
    calls. *)
Lemma InteractionCall_nested_ind (P : InteractionCall → Prop) :
  (∀ dryWrite calls,
     Forall (λ call : string * ContractCallRecord,
               Forall (λ entry : string * InteractionCall, P entry.2)
                 (interactions call.2)) calls →
     P (mkInteractionCall dryWrite calls)) →
  ∀ interaction, P interaction.
Proof.
  intros Hstep.
  refine (fix IH (interaction : InteractionCall) : P interaction :=
            match interaction with
            | mkInteractionCall dryWrite calls =>
                Hstep dryWrite calls
                  ((fix forEachCall (calls : list (string * ContractCallRecord))
                      : Forall (λ call : string * ContractCallRecord,
                                  Forall (λ entry : string * InteractionCall, P entry.2)
                                    (interactions call.2)) calls :=
                      match calls with
                      | [] => Forall_nil_2 _
                      | (key, mkContractCallRecord cid type inters) :: calls' =>
                          Forall_cons_2 _ (key, mkContractCallRecord cid type inters) calls'
                            ((fix forEachInteraction
                                (inters : list (string * InteractionCall))
                                : Forall (λ entry : string * InteractionCall, P entry.2)
                                    inters :=
                                match inters with
                                | [] => Forall_nil_2 _
                                | (key', foreignInteraction) :: inters' =>
                                    Forall_cons_2 _ (key', foreignInteraction) inters'
                                      (IH foreignInteraction)
                                      (forEachInteraction inters')
                                end) inters)
                            (forEachCall calls')
                      end) calls)
            end).
Qed.

(** What [evalForeignCalls] keeps true of [result]: it only appends
    contract ids that are not in it and differ from the root's. *)
Lemma evalForeignCalls_invariant (root : string) (interaction : InteractionCall) :
  ∀ (result : list string) (onlyDryWrites : bool),
    NoDup result ∧ root ∉ result →
    NoDup (evalForeignCalls root interaction result onlyDryWrites)
    ∧ root ∉ evalForeignCalls root interaction result onlyDryWrites.
Proof.
  induction interaction as [dryWrite calls Hcalls] using InteractionCall_nested_ind.
  intros result onlyDryWrites Hinv. simpl.
  revert result Hinv.
  induction Hcalls as [|[key [cid type inters]] calls Hinters _ IHcalls];
    intros result Hinv; [done|].
  apply IHcalls. case_bool_decide; [|done].
  clear IHcalls. simpl in Hinters. revert result Hinv.
  induction Hinters as [|[key' foreignInteraction] inters Hthis _ IHinters];
    intros result Hinv; [done|].
  apply IHinters. apply Hthis. destruct Hinv as [Hnd Hroot].
  destruct (_ && _) eqn:Hcond; [|done].
  apply andb_true_iff in Hcond as [Hcond Hneq%negb_true_iff%bool_decide_eq_false].
  apply andb_true_iff in Hcond as [_ Hnotin%negb_true_iff%bool_decide_eq_false].
  split.
  - apply NoDup_app. split; [done|]. split; [|apply NoDup_singleton].
    by intros x Hx ->%list_elem_of_singleton.
  - intros [?| ->%list_elem_of_singleton]%elem_of_app; done.
Qed.

End inner_writes_facts.

(** X23: the list of contracts that [InnerWritesEvaluator.eval] returns
    for a call record has no contract twice and never contains the
    contract of the call record itself, whatever the recorded calls are
    (a write back to the root contract is not reported). *)
Theorem inner_writes_distinct_and_foreign
    (callStack : InnerWritesEvaluator.ContractCallRecord) :
  NoDup (InnerWritesEvaluator.eval callStack)
  ∧ InnerWritesEvaluator.contractTxId callStack ∉ InnerWritesEvaluator.eval callStack.
Proof.
  unfold InnerWritesEvaluator.eval.
  assert (∀ entries result,
    NoDup result ∧ InnerWritesEvaluator.contractTxId callStack ∉ result →
    NoDup (foldl (λ result (entry : string * InnerWritesEvaluator.InteractionCall),
                    InnerWritesEvaluator.evalForeignCalls
                      (InnerWritesEvaluator.contractTxId callStack) entry.2 result true)
             result entries)
    ∧ InnerWritesEvaluator.contractTxId callStack
      ∉ foldl (λ result (entry : string * InnerWritesEvaluator.InteractionCall),
                 InnerWritesEvaluator.evalForeignCalls
                   (InnerWritesEvaluator.contractTxId callStack) entry.2 result true)
          result entries) as Hfold.
  { induction entries as [|entry entries IH]; intros result Hinv; [done|].
    simpl. apply IH. by apply evalForeignCalls_invariant. }
  apply Hfold. split; [apply NoDup_nil_2|apply not_elem_of_nil].
Qed.

(** ** The contract definition loader *)

(** X24: every definition that [ContractDefinitionLoader.doLoad] returns
    fits the environment and has a supported source: its [testnet] field
    is set exactly when the loader's environment is ['testnet']; its
    source transaction id is the forced one when one is given, else the
    contract's source tag; and it is a ['js'] contract with a source text
    and no binary, or a ['wasm'] contract with a binary, no source text
    and its language set. When the contract's testnet tag and the
    environment disagree, [doLoad] rejects with an [Error] once the
    contract transaction and its owner are known, before anything else is
    loaded. *)
Theorem loaded_definition_is_consistent {Json Buffer WasmSrc : Type}
    (env : string)
    (getTag : ContractDefinitionLoader.Transaction
              → ContractDefinitionLoader.SmartWeaveTags → option string)
    (arweaveWrapper_tx : option string
                         → Completion JsError.t ContractDefinitionLoader.Transaction)
    (ownerToAddress : string → Completion JsError.t string)
    (arweaveWrapper_txDataString : option string → Completion JsError.t string)
    (arweaveWrapper_txData : option string → Completion JsError.t Buffer)
    (JSON_parse : option string → Completion JsError.t Json)
    (WasmSrc_new : Buffer → Completion JsError.t WasmSrc)
    (wasmBinary : WasmSrc → Completion JsError.t Buffer)
    (contractTxId : string) (forcedSrcTxId : option string) :
  let outcome :=
    ContractDefinitionLoader.doLoad env getTag arweaveWrapper_tx ownerToAddress
      arweaveWrapper_txDataString arweaveWrapper_txData JSON_parse WasmSrc_new wasmBinary
      contractTxId forcedSrcTxId in
  (∀ definition, outcome = Returned definition →
     ContractDefinitionLoader.txId definition = contractTxId
     ∧ arweaveWrapper_tx (Some contractTxId)
       = Returned (ContractDefinitionLoader.contractTx definition)
     ∧ (ContractDefinitionLoader.truthy_string
          (ContractDefinitionLoader.testnet definition) = true ↔ env = "testnet")
     ∧ ContractDefinitionLoader.srcTxId definition
       = (if ContractDefinitionLoader.truthy_string forcedSrcTxId then forcedSrcTxId
          else getTag (ContractDefinitionLoader.contractTx definition)
                 ContractDefinitionLoader.CONTRACT_SRC_TX_ID)
     ∧ ((ContractDefinitionLoader.contractType definition = "js"
         ∧ getTag (ContractDefinitionLoader.srcTx definition)
             ContractDefinitionLoader.CONTENT_TYPE = Some "application/javascript"
         ∧ is_Some (ContractDefinitionLoader.src definition)
         ∧ ContractDefinitionLoader.srcBinary definition = None)
        ∨ (ContractDefinitionLoader.contractType definition = "wasm"
           ∧ getTag (ContractDefinitionLoader.srcTx definition)
               ContractDefinitionLoader.CONTENT_TYPE = Some "application/wasm"
           ∧ ContractDefinitionLoader.src definition = None
           ∧ is_Some (ContractDefinitionLoader.srcBinary definition)
           ∧ ContractDefinitionLoader.truthy_string
               (ContractDefinitionLoader.srcWasmLang definition) = true)))
  ∧ (∀ contractTx owner,
       arweaveWrapper_tx (Some contractTxId) = Returned contractTx →
       ownerToAddress (ContractDefinitionLoader.tx_owner contractTx) = Returned owner →
       ¬ (ContractDefinitionLoader.truthy_string
            (getTag contractTx ContractDefinitionLoader.WARP_TESTNET) = true
          ↔ env = "testnet") →
       ∃ message, outcome = Thrown (Error message)).
Proof.
  intros outcome. subst outcome.
  unfold ContractDefinitionLoader.doLoad, ContractDefinitionLoader.loadContractSource,
    ContractDefinitionLoader.evalInitialState.
  unfold mbind, mret, Completion_bind, Completion_ret, and_then.
  split.
  - intros definition.
    destruct (arweaveWrapper_tx (Some contractTxId)) as [contractTx|e]; [|done].
    destruct (ownerToAddress _) as [owner|e]; [|done].
    split_M; intros [= <-]; simpl;
      (split; [done|]); (split; [done|]); (split; [|split; [done|]]).
    (* the environment *)
    all: try match goal with
         | |- _ ↔ _ =>
             repeat match goal with
             | H : ContractDefinitionLoader.truthy_string _ = _ |- _ =>
                 rewrite ?H in *; clear H
             end;
             destruct (decide (env = "testnet"));
             rewrite ?bool_decide_eq_true_2, ?bool_decide_eq_false_2 in * by done;
             simpl in *; (done || (split; done))
         end.
    (* the source *)
    all: repeat match goal with
         | H : negb _ = false |- _ => apply negb_false_iff in H
         | H : bool_decide _ = true |- _ => apply bool_decide_eq_true in H
         | H : bool_decide _ = false |- _ => apply bool_decide_eq_false in H
         end.
    all: try (left; split; [done|]; split; [congruence|]; split; [by eexists|done]).
    all: right; split; [done|]; split; [|split; [done|]; split; [by eexists|done]].
    all: match goal with
         | H : _ ∈ ContractDefinitionLoader.supportedSrcContentTypes |- _ =>
             unfold ContractDefinitionLoader.supportedSrcContentTypes in H;
             apply elem_of_cons in H as [->|H]; [done|];
             apply list_elem_of_singleton in H as ->
         end.
    all: done.
  - intros contractTx owner -> -> Hmismatch.
    destruct (ContractDefinitionLoader.truthy_string
                (getTag contractTx ContractDefinitionLoader.WARP_TESTNET)) eqn:Htag;
      simpl; rewrite ?Htag; simpl.
    + rewrite bool_decide_eq_false_2; [by eexists|].
      intros Henv. by apply Hmismatch.
    + rewrite bool_decide_eq_true_2; [by eexists|].
      destruct (decide (env = "testnet")) as [|Hne]; [done|].
      exfalso. apply Hmismatch. split; [done|]. by intros.
Qed.

(** ** Utilities *)

Section utils_facts.
Import Utils.

(** Every byte is written as two hexadecimal digits, which read back as
    the byte. *)
Lemma evenDigits_value (i : Byte.byte) :
  ∀ rest value,
    hexDigits (evenDigits i +:+ rest) value
    = hexDigits rest (256 * value + Z.of_N (Byte.to_N i)).
Proof.
  assert (match evenDigits i with
          | String c1 (String c2 EmptyString) =>
              match hexValue c1, hexValue c2 with
              | Some d1, Some d2 => 16 * d1 + d2 = Z.of_N (Byte.to_N i)
              | _, _ => False
              end
          | _ => False
          end) as Hdigits.
  { destruct i; vm_compute; reflexivity. }
  destruct (evenDigits i) as [|c1 [|c2 [|c3 more]]]; try done.
  intros rest value.
  change (String c1 (String c2 "") +:+ rest) with (String c1 (String c2 rest)).
  cbn [hexDigits].
  destruct (hexValue c1) as [d1|]; [|done]. destruct (hexValue c2) as [d2|]; [|done].
  f_equal. lia.
Qed.

Lemma hexDigits_join (buf : list Byte.byte) :
  ∀ value,
    hexDigits (join (evenDigits <$> buf)) value
    = Some (foldl (λ value i, 256 * value + Z.of_N (Byte.to_N i)) value buf).
Proof.
  induction buf as [|i buf IH]; intros value; [done|].
  cbn [fmap list_fmap join foldr foldl].
  change (foldr String.append EmptyString (evenDigits <$> buf))
    with (join (evenDigits <$> buf)).
  by rewrite evenDigits_value, IH.
Qed.

Lemma evenDigits_not_empty (i : Byte.byte) (rest : string) :
  evenDigits i +:+ rest ≠ "".
Proof. destruct i; vm_compute; discriminate. Qed.

End utils_facts.

(** X25: [bufToBn] reads a buffer as a number, most significant byte
    first: every byte contributes two hexadecimal digits (a ['0'] is put
    before a single digit), so that for a non-empty buffer the result is
    the big-endian value of its bytes, leading zero bytes included; for an
    empty buffer the literal has no digits and [BigInt] throws a
    SyntaxError. *)
Theorem bufToBn_big_endian (buf : list Byte.byte) :
  (buf = [] →
   Utils.bufToBn buf
   = Thrown (JsError.mk "SyntaxError" "Cannot convert 0x to a BigInt" None None))
  ∧ (buf ≠ [] → Utils.bufToBn buf = Returned (Utils.big_endian buf))
  ∧ (∀ i, Utils.big_endian (buf ++ [i])
          = 256 * Utils.big_endian buf + Z.of_N (Byte.to_N i)).
Proof.
  split; [by intros ->|]. split.
  - intros Hne. unfold Utils.bufToBn, Utils.BigInt_of_hex, Utils.big_endian.
    rewrite hexDigits_join.
    destruct buf as [|i buf]; [done|].
    cbn [fmap list_fmap Utils.join foldr].
    pose proof (evenDigits_not_empty i (foldr String.append "" (Utils.evenDigits <$> buf)))
      as Hdigits.
    by destruct (Utils.evenDigits i +:+ _).
  - intros i. unfold Utils.big_endian. by rewrite foldl_app.
Qed.

(** ** The call chain and the guard *)

Section chain_facts.
Import CacheableStateEvaluator.

(** The guard leaves a list alone that holds no interaction of the chain
    for this contract. *)
Lemma foldl_inf_loop_fix_fresh contractTxId (entries : list CurrentTx.t)
    (missing : list Tx.t) :
  (∀ entry tx, entry ∈ entries → CurrentTx.contractTxId entry = contractTxId →
               tx ∈ missing → Tx.id tx ≠ CurrentTx.interactionTxId entry) →
  foldl (inf_loop_fix contractTxId) missing entries = missing.
Proof.
  induction entries as [|entry entries IH]; intros Hfresh; [done|].
  cbn [foldl].
  assert (inf_loop_fix contractTxId missing entry = missing) as ->.
  { unfold inf_loop_fix. case_bool_decide as Hc; [|done].
    destruct (findIndex _ missing) as [index|] eqn:Hfind; [|done].
    apply findIndex_Some in Hfind as (tx & Hl & Hid & _).
    exfalso. apply (Hfresh entry tx); [by left|done| |done].
    apply list_elem_of_lookup. eauto. }
  apply IH. intros e tx He. apply Hfresh. by right.
Qed.

End chain_facts.

(** X26: the call chain that [readContractState] hands to the contract
    it reads is the caller's chain followed by the reading contract and
    its current interaction. Should the evaluation come back to the
    reading contract with this chain, the guard of
    [CacheableStateEvaluator.eval] cuts the interactions that the
    caller's chain left once more, at the current interaction: that
    interaction is not evaluated again, and nothing is evaluated that the
    caller's chain had cut. A height of [0] or [undefined] stands for the
    current block height. *)
Theorem read_chain_guards_current_interaction {State World : Type}
    (childContract_readState :
       string → Z → list CurrentTx.t → M World (EvalStateResult.t State))
    (onContractCall : Tx.t → EvalStateResult.t State → M World unit)
    (this_txId : string) (currentTx : option (list CurrentTx.t))
    (currentResult : EvalStateResult.t State) (interactionTx : Tx.t)
    (block_height : Z) (transaction_id contractTxId : string)
    (returnValidity : option bool) (missing : list Tx.t) (w : World) :
  let chain := Handler.chain currentTx this_txId transaction_id in
  CacheableStateEvaluator.inf_loop_guard this_txId (Some chain) missing
    = CacheableStateEvaluator.inf_loop_fix this_txId
        (CacheableStateEvaluator.inf_loop_guard this_txId currentTx missing)
        (CurrentTx.mk this_txId transaction_id)
  ∧ (∀ tx, tx ∈ CacheableStateEvaluator.inf_loop_guard this_txId (Some chain) missing →
       Tx.id tx ≠ transaction_id
       ∧ tx ∈ CacheableStateEvaluator.inf_loop_guard this_txId currentTx missing)
  ∧ (∀ height,
       Handler.readContractState childContract_readState onContractCall this_txId
         currentTx currentResult interactionTx block_height transaction_id
         contractTxId height returnValidity w
       = (onContractCall interactionTx currentResult ;;
          stateWithValidity ←
            childContract_readState contractTxId
              (if bool_decide (height = None ∨ height = Some 0) then block_height
               else default 0 height)
              chain;
          ret (if truthy returnValidity then inl stateWithValidity
               else inr (EvalStateResult.state stateWithValidity))) w).
Proof.
  intros chain.
  assert (CacheableStateEvaluator.inf_loop_guard this_txId (Some chain) missing
          = CacheableStateEvaluator.inf_loop_fix this_txId
              (CacheableStateEvaluator.inf_loop_guard this_txId currentTx missing)
              (CurrentTx.mk this_txId transaction_id)) as Hguard.
  { unfold CacheableStateEvaluator.inf_loop_guard, chain, Handler.chain. simpl.
    by rewrite foldl_app. }
  split; [exact Hguard|]. split.
  - intros tx Hin. split.
    + apply (inf_loop_guard_fresh this_txId (Some chain) missing
               (CurrentTx.mk this_txId transaction_id) tx); [|done|done].
      unfold chain, Handler.chain. simpl. apply elem_of_app. right. by left.
    + rewrite Hguard in Hin. unfold CacheableStateEvaluator.inf_loop_fix in Hin.
      rewrite bool_decide_eq_true_2 in Hin by done. simpl in Hin.
      destruct (CacheableStateEvaluator.findIndex transaction_id _) as [index|];
        [|done].
      apply elem_of_take in Hin as (j & Hj & _). apply list_elem_of_lookup. eauto.
  - intros height. unfold Handler.readContractState.
    destruct height as [h|].
    + destruct (decide (h = 0)) as [->|Hne].
      * rewrite bool_decide_eq_true_2 by done.
        by rewrite bool_decide_eq_true_2 by (by right).
      * rewrite bool_decide_eq_false_2 by done.
        rewrite bool_decide_eq_false_2; [done|]. intros [?|[= ?]]; done.
    + by rewrite bool_decide_eq_true_2 by (by left).
Qed.

(** X27: the guard of [CacheableStateEvaluator.eval] is idempotent, and
    does nothing without a call chain: applied to a list it has already
    cut, with the same contract and chain, it returns that list. *)
Theorem inf_loop_guard_idempotent (contractTxId : string)
    (currentTx : option (list CurrentTx.t)) (missing : list Tx.t) :
  CacheableStateEvaluator.inf_loop_guard contractTxId currentTx
    (CacheableStateEvaluator.inf_loop_guard contractTxId currentTx missing)
  = CacheableStateEvaluator.inf_loop_guard contractTxId currentTx missing
  ∧ CacheableStateEvaluator.inf_loop_guard contractTxId None missing = missing
  ∧ CacheableStateEvaluator.inf_loop_guard contractTxId (Some []) missing = missing.
Proof.
  split; [|done].
  unfold CacheableStateEvaluator.inf_loop_guard at 1.
  apply foldl_inf_loop_fix_fresh. intros entry tx Hentry Hc Htx.
  by apply (inf_loop_guard_fresh contractTxId currentTx missing).
Qed.

(** ** The plugin registry *)

(** X28: the plugin registry of [Warp]. After [use(plugin)] of a plugin
    of a known type, [hasPlugin] of its type is true and [loadPlugin]
    returns that plugin, a plugin registered before under the same type
    being replaced; for every other type [hasPlugin] and [loadPlugin]
    answer as before. [use] of a plugin of an unknown type throws and
    registers nothing, and [loadPlugin] of a type that is not registered
    throws. *)
Theorem plugin_registry_round_trip {Plugin : Type}
    (type : Plugin → string) (isPluginType : string → bool)
    (plugin : Plugin) (plugins : gmap string Plugin) :
  (isPluginType (type plugin) = true →
     ∃ plugins',
       Warp.use type isPluginType plugin plugins = Returned plugins'
       ∧ Warp.hasPlugin plugins' (type plugin) = true
       ∧ Warp.loadPlugin plugins' (type plugin) = Returned (Some plugin)
       ∧ ∀ other, other ≠ type plugin →
           Warp.hasPlugin plugins' other = Warp.hasPlugin plugins other
           ∧ Warp.loadPlugin plugins' other = Warp.loadPlugin plugins other)
  ∧ (isPluginType (type plugin) = false →
     Warp.use type isPluginType plugin plugins
     = Thrown (Error ("Unknown plugin type " +:+ type plugin +:+ ".")))
  ∧ (∀ missing, Warp.hasPlugin plugins missing = false →
       Warp.loadPlugin plugins missing
       = Thrown (Error ("Plugin " +:+ missing +:+ " not registered.")))
  ∧ (∀ registered, Warp.hasPlugin plugins registered = true →
       ∃ found, Warp.loadPlugin plugins registered = Returned (Some found)).
Proof.
  unfold Warp.use, Warp.loadPlugin, Warp.hasPlugin.
  split; [|split; [|split]].
  - intros ->. simpl. eexists. split; [reflexivity|].
    rewrite lookup_insert_eq.
    rewrite bool_decide_eq_true_2 by by eexists. simpl.
    split; [done|]. split; [done|]. intros other Hother.
    by rewrite lookup_insert_ne.
  - by intros ->.
  - by intros missing ->.
  - intros registered Hreg. rewrite Hreg. simpl.
    apply bool_decide_eq_true in Hreg as [found ->]. by eexists.
Qed.

(** ** The further properties on the concrete contracts *)

Section more_examples.
Import Example.

(** The counter 2 cached for [tx_add], with the error object of a skipped
    internal write among its error messages and a validity entry holding
    [undefined], is found again at its sort key as it is read back: the
    error without its stack, the validity without that entry. *)
Lemma cached_state_is_latest_witness :
  (CacheableStateEvaluator.putInCache contractA tx_add
     (EvalStateResult.mk 2 {[ Tx.id tx_fail := None ]}
        {[ Tx.id tx_write :=
             Some (ErrObject (JsError.mk "ContractError" "unsafe client"
                                (Some "unsafeClientSkip") (Some "at doReadState"))) ]}) ;;
   CacheableStateEvaluator.latestAvailableState contractA (Some sortKey1)) emptyWorld
  = (Returned
       (Some (SortKeyCacheResult.mk (Some sortKey1)
                (EvalStateResult.mk 2 ∅
                   {[ Tx.id tx_write :=
                        Some (ErrObject (JsError.mk "ContractError" "unsafe client"
                                           (Some "unsafeClientSkip") None)) ]}))),
     (LevelDbCache.put ∅ contractA sortKey1
        (EvalStateResult.mk 2 {[ Tx.id tx_fail := None ]}
           {[ Tx.id tx_write :=
                Some (ErrObject (JsError.mk "ContractError" "unsafe client"
                                   (Some "unsafeClientSkip") (Some "at doReadState"))) ]}),
      ∅)).
Proof.
  refine (proj1 (cached_state_is_latest contractA tx_add
                   (EvalStateResult.mk 2 {[ Tx.id tx_fail := None ]}
                      {[ Tx.id tx_write :=
                           Some (ErrObject (JsError.mk "ContractError" "unsafe client"
                                              (Some "unsafeClientSkip")
                                              (Some "at doReadState"))) ]})
                   emptyWorld _) _).
  - discriminate.
  - split; [reflexivity|right; reflexivity].
Defined.

Lemma syncState_then_read_witness :
  (CacheableStateEvaluator.syncState contractA sortKey3 3 ∅ ;;
   latest ← CacheableStateEvaluator.latestAvailableState contractA (Some sortKey3);
   cached ← CacheableStateEvaluator.hasContractCached contractA;
   mret (latest, cached)) emptyWorld
  = (Returned
       (Some (SortKeyCacheResult.mk (Some sortKey3) (EvalStateResult.mk 3 ∅ ∅)), true),
     (LevelDbCache.put ∅ contractA sortKey3 (EvalStateResult.mk 3 ∅ ∅), ∅)).
Proof.
  refine (syncState_then_read contractA sortKey3 3 ∅ emptyWorld _). discriminate.
Defined.

(** Folding [tx_add] on a base state that knows [tx_fail] as invalid
    leaves the entry of [tx_fail] as it is. *)
Lemma doReadState_keeps_other_entries_witness :
  match DefaultStateEvaluator.doReadState warp CacheableStateEvaluator.onStateEvaluated
          [tx_add] (EvalStateResult.mk 1 {[ Tx.id tx_fail := Some false ]} ∅)
          (context [tx_add] None true false) emptyWorld with
  | (Returned r, _) =>
      EvalStateResult.validity (SortKeyCacheResult.cachedValue r) !! Tx.id tx_fail
      = ({[ Tx.id tx_fail := Some false ]} : gmap string (option bool)) !! Tx.id tx_fail
      ∧ EvalStateResult.errorMessages (SortKeyCacheResult.cachedValue r) !! Tx.id tx_fail
        = (∅ : gmap string (option ErrVal)) !! Tx.id tx_fail
  | (Thrown _, _) => False
  end.
Proof.
  destruct (DefaultStateEvaluator.doReadState warp CacheableStateEvaluator.onStateEvaluated
              [tx_add] (EvalStateResult.mk 1 {[ Tx.id tx_fail := Some false ]} ∅)
              (context [tx_add] None true false) emptyWorld) as [[r|e] w'] eqn:Hrun.
  - refine (doReadState_keeps_other_entries warp CacheableStateEvaluator.onStateEvaluated
              [tx_add] (EvalStateResult.mk 1 {[ Tx.id tx_fail := Some false ]} ∅)
              (context [tx_add] None true false) emptyWorld w' r (Tx.id tx_fail) Hrun _).
    intros Hin. apply list_elem_of_singleton in Hin. discriminate Hin.
  - assert (match (DefaultStateEvaluator.doReadState warp
                     CacheableStateEvaluator.onStateEvaluated
                     [tx_add] (EvalStateResult.mk 1 {[ Tx.id tx_fail := Some false ]} ∅)
                     (context [tx_add] None true false) emptyWorld).1 with
            | Returned _ => true
            | Thrown _ => false
            end = true) as Hreturned by (vm_compute; reflexivity).
    rewrite Hrun in Hreturned. discriminate Hreturned.
Defined.

(** The fold of the unconfirmed [tx_unconfirmed] does not reach the
    cache: it is the fold with an [onStateEvaluated] that does nothing. *)
Lemma unconfirmed_never_persisted_witness :
  DefaultStateEvaluator.doReadState warp CacheableStateEvaluator.onStateEvaluated
    [tx_unconfirmed] (EvalStateResult.mk 1 ∅ ∅) (context [tx_unconfirmed] None true false)
    emptyWorld
  = DefaultStateEvaluator.doReadState warp (λ _ _ _, ret tt)
      [tx_unconfirmed] (EvalStateResult.mk 1 ∅ ∅) (context [tx_unconfirmed] None true false)
      emptyWorld.
Proof.
  refine (unconfirmed_never_persisted warp CacheableStateEvaluator.onStateEvaluated
            (λ _ _ _, ret tt) [tx_unconfirmed] (EvalStateResult.mk 1 ∅ ∅)
            (context [tx_unconfirmed] None true false) emptyWorld _).
  intros tx Hin Hc. apply list_elem_of_singleton in Hin. subst tx.
  vm_compute in Hc. discriminate Hc.
Defined.

(** The fold of [tx_add; tx_fail] ends at the sort key of one of the
    two. *)
Lemma doReadState_sort_key_witness :
  match DefaultStateEvaluator.doReadState warp CacheableStateEvaluator.onStateEvaluated
          [tx_add; tx_fail] (EvalStateResult.mk 1 ∅ ∅)
          (context [tx_add; tx_fail] None true false) emptyWorld with
  | (Returned r, _) =>
      ∃ tx, tx ∈ [tx_add; tx_fail] ∧ SortKeyCacheResult.sortKey r = Some (Tx.sortKey tx)
  | (Thrown _, _) => False
  end.
Proof.
  destruct (DefaultStateEvaluator.doReadState warp CacheableStateEvaluator.onStateEvaluated
              [tx_add; tx_fail] (EvalStateResult.mk 1 ∅ ∅)
              (context [tx_add; tx_fail] None true false) emptyWorld) as [[r|e] w'] eqn:Hrun.
  - refine (proj2 (doReadState_sort_key warp CacheableStateEvaluator.onStateEvaluated
                     [tx_add; tx_fail] (EvalStateResult.mk 1 ∅ ∅)
                     (context [tx_add; tx_fail] None true false) emptyWorld w' r Hrun) _).
    discriminate.
  - assert (match (DefaultStateEvaluator.doReadState warp
                     CacheableStateEvaluator.onStateEvaluated
                     [tx_add; tx_fail] (EvalStateResult.mk 1 ∅ ∅)
                     (context [tx_add; tx_fail] None true false) emptyWorld).1 with
            | Returned _ => true
            | Thrown _ => false
            end = true) as Hreturned by (vm_compute; reflexivity).
    rewrite Hrun in Hreturned. discriminate Hreturned.
Defined.

(** With the abort signal set after the first interaction, the fold of
    [tx_add; tx_fail] rejects before [tx_fail]. *)
Lemma abort_between_interactions_witness :
  match DefaultStateEvaluator.doReadState (host abortedAfterFirst [])
          CacheableStateEvaluator.onStateEvaluated
          ([tx_add] ++ tx_fail :: []) (EvalStateResult.mk 1 ∅ ∅)
          (context [tx_add; tx_fail] None true false) emptyWorld with
  | (Thrown e, w) => JsError.name e = "AbortError" ∧ w.1 !! contractA = None
  | (Returned _, _) => False
  end.
Proof.
  assert (match DefaultStateEvaluator.loop (host abortedAfterFirst [])
                  (context [tx_add; tx_fail] None true false) 0 2 [tx_add]
                  (start (context [tx_add; tx_fail] None true false)) emptyWorld with
          | (Returned l1, w1) =>
              negb (DefaultStateEvaluator.shouldBreakAfterEvolve l1)
              && DefaultStateEvaluator.signal_aborted (host abortedAfterFirst []) w1
              && match w1.1 !! contractA with None => true | Some _ => false end
          | (Thrown _, _) => false
          end = true) as Hchecked by (vm_compute; reflexivity).
  destruct (DefaultStateEvaluator.loop (host abortedAfterFirst [])
              (context [tx_add; tx_fail] None true false) 0 2 [tx_add]
              (start (context [tx_add; tx_fail] None true false)) emptyWorld)
    as [[l1|e] w1] eqn:Hloop; [|discriminate Hchecked].
  apply andb_true_iff in Hchecked as [Hchecked Hcache].
  apply andb_true_iff in Hchecked as [Hbreak%negb_true_iff Habort].
  rewrite (abort_between_interactions (host abortedAfterFirst [])
             CacheableStateEvaluator.onStateEvaluated [tx_add] tx_fail []
             (EvalStateResult.mk 1 ∅ ∅) (context [tx_add; tx_fail] None true false)
             emptyWorld w1 l1 Hloop Hbreak Habort).
  split; [reflexivity|]. by destruct (w1.1 !! contractA).
Defined.

(** A modifier that evolves contract A to an unsafe source, with the
    option to skip such contracts: [tx_add] is marked invalid and the
    loop stops. *)
Lemma modifier_error_stops_evaluation_witness :
  match DefaultStateEvaluator.afterInteraction (host (λ _, false) [evolveToUnsafe])
          contractA true 0 2 tx_add (start (context [tx_add; tx_fail] None true false))
          emptyWorld with
  | (Returned l', _) =>
      DefaultStateEvaluator.shouldBreakAfterEvolve l' = true
      ∧ DefaultStateEvaluator.validity l' !! Tx.id tx_add = Some (Some false)
      ∧ DefaultStateEvaluator.errorMessages l' !! Tx.id tx_add
        = Some (Some (ErrString (JsError.message unsafeSkip)))
  | (Thrown _, _) => False
  end.
Proof.
  destruct (DefaultStateEvaluator.afterInteraction (host (λ _, false) [evolveToUnsafe])
              contractA true 0 2 tx_add (start (context [tx_add; tx_fail] None true false))
              emptyWorld) as [[l'|e] w'] eqn:Hafter.
  - destruct (proj2 (modifier_error_stops_evaluation (host (λ _, false) [evolveToUnsafe])
                       (context [tx_add; tx_fail] None true false)
                       (context [tx_add; tx_fail] None true false)
                       0 2 tx_add (start (context [tx_add; tx_fail] None true false))
                       emptyWorld emptyWorld unsafeSkip eq_refl) eq_refl l' w' Hafter)
      as (Hbreak & Hvalidity & Hmessages & _).
    split; [exact Hbreak|]. split; [exact Hvalidity|exact Hmessages].
  - assert (match (DefaultStateEvaluator.afterInteraction
                     (host (λ _, false) [evolveToUnsafe]) contractA true 0 2 tx_add
                     (start (context [tx_add; tx_fail] None true false)) emptyWorld).1 with
            | Returned _ => true
            | Thrown _ => false
            end = true) as Hreturned by (vm_compute; reflexivity).
    rewrite Hafter in Hreturned. discriminate Hreturned.
Defined.

(** The rejecting contract on a storage that never throws: [handle]
    returns. *)
Lemma handle_returns_witness :
  ∃ r,
    (JsHandlerApi.handle kvStep kvStep kvStep kvStep rejecting (λ _, true)
       (λ _, "undefined") (λ _, None) JsError.message
       (EvalStateResult.mk 1 ∅ ∅)
       {| JsHandlerApi.input := Call "fail";
          JsHandlerApi.caller := Tx.owner_address tx_fail;
          JsHandlerApi.interactionType := "write" |}
       tx_fail
       {| JsHandlerApi._activeTx := None; JsHandlerApi.swCaller := None;
          JsHandlerApi.kv := 0%nat |}).1 = Returned r.
Proof.
  refine (handle_returns kvStep kvStep kvStep kvStep rejecting (λ _, true)
            (λ _, "undefined") (λ _, None) JsError.message
            (EvalStateResult.mk 1 ∅ ∅)
            {| JsHandlerApi.input := Call "fail";
               JsHandlerApi.caller := Tx.owner_address tx_fail;
               JsHandlerApi.interactionType := "write" |}
            tx_fail
            {| JsHandlerApi._activeTx := None; JsHandlerApi.swCaller := None;
               JsHandlerApi.kv := 0%nat |} _ _ _ _ _).
  - intros store. reflexivity.
  - intros store. reflexivity.
  - intros store. discriminate.
  - intros store. discriminate.
  - intros st store. discriminate.
Defined.

(** On a storage that cannot be closed, [handle] throws what [close]
    threw, though the contract had only rejected the interaction. *)
Lemma handle_close_failure_witness :
  (JsHandlerApi.handle kvStep kvStep kvStep closeFails rejecting (λ _, true)
     (λ _, "undefined") (λ _, None) JsError.message
     (EvalStateResult.mk 1 ∅ ∅)
     {| JsHandlerApi.input := Call "fail";
        JsHandlerApi.caller := Tx.owner_address tx_fail;
        JsHandlerApi.interactionType := "write" |}
     tx_fail
     {| JsHandlerApi._activeTx := None; JsHandlerApi.swCaller := None;
        JsHandlerApi.kv := 0%nat |}).1
  = Thrown (JsHandlerApi.ThrownString "storage is locked").
Proof.
  refine (handle_close_failure kvStep kvStep kvStep closeFails rejecting (λ _, true)
            (λ _, "undefined") (λ _, None) JsError.message
            (EvalStateResult.mk 1 ∅ ∅)
            {| JsHandlerApi.input := Call "fail";
               JsHandlerApi.caller := Tx.owner_address tx_fail;
               JsHandlerApi.interactionType := "write" |}
            tx_fail
            {| JsHandlerApi._activeTx := None; JsHandlerApi.swCaller := None;
               JsHandlerApi.kv := 0%nat |}
            (JsHandlerApi.ThrownString "storage is locked") _).
  intros store. reflexivity.
Defined.

(** Both pages of the gateway are returned, in order, the second
    interaction with the status the gateway gave. *)
Lemma load_returns_all_pages_witness :
  WarpGatewayInteractionsLoader.load gatewayTwoPages WARP_GW_URL None None 5 contractA
    None None
  = Some (Returned
            [WarpGatewayInteractionsLoader.with_status
               {| WarpGatewayInteractionsLoader.interaction := tx_add;
                  WarpGatewayInteractionsLoader.status := Some "confirmed" |};
             WarpGatewayInteractionsLoader.with_status
               {| WarpGatewayInteractionsLoader.interaction := tx_fail;
                  WarpGatewayInteractionsLoader.status := Some "not_processed" |}]).
Proof.
  refine (proj1 (load_returns_all_pages gatewayTwoPages WARP_GW_URL None None 5 contractA
                   None None
                   [gatewayPage tx_add "confirmed"; gatewayPage tx_fail "not_processed"]
                   2 _ _ _)).
  - intros [|[|j]] response Hj; simpl in Hj; [| |discriminate Hj];
      injection Hj as <-; split; vm_compute; reflexivity.
  - reflexivity.
  - simpl. lia.
Defined.

(** The unsafe contract under the option ['skip'] is refused with an
    error that the evaluator skips and after which the loop stops. *)
Lemma create_skippable_errors_witness :
  (∃ e, HandlerExecutorFactory.create (λ _, false) (λ _, Returned false)
          (λ source _, default "" source) (Returned tt) (λ engine _, Returned engine)
          unsafeContract skipUnsafe = Thrown e
        ∧ DefaultStateEvaluator.skipped_in_internal_write e = true)
  ∧ (∃ e, HandlerExecutorFactory.create (λ _, false) (λ _, Returned false)
            (λ source _, default "" source) (Returned tt) (λ engine _, Returned engine)
            unsafeContract skipUnsafe = Thrown e
          ∧ DefaultStateEvaluator.stops_after_evolve e = true).
Proof.
  destruct (create_skippable_errors (λ _, false) (λ _, Returned false)
              (λ source _, default "" source) (Returned tt) (λ engine _, Returned engine)
              unsafeContract skipUnsafe eq_refl) as [Hskipped Hstops].
  { intros engine source e He. discriminate He. }
  split.
  - apply Hskipped. right. right. split; [discriminate|]. split; reflexivity.
  - apply Hstops. split.
    + intros [Hplugin _]. discriminate Hplugin.
    + right. split; [discriminate|]. split; reflexivity.
Defined.

End more_examples.
